(** * Synthesizer (json-to-synthesis, src/index.js): a shallow embedding

    The development follows the source file top to bottom:
    - [JS], [Obj], [JMap]: the fragment of JavaScript the code relies on
      (values, truthiness, property keys, object literals with their
      property order and the members they inherit, [Map],
      [Array.prototype.slice], a stable sort, arithmetic on doubles and
      [toFixed]);
    - the data model (rules, tallies, model objects) and the external
      collaborators (lodash [get], the serializer, zlib, fs) as a class;
    - the class [Synthesizer], method by method, in a state and exception
      monad over the instance and the trace of what it emits and writes;
    - the vocabulary of the statements, then the theorems: [setParams], the
      model codec, the stream guard, rule application, failing calls,
      tallying and ranking. *)

From Stdlib Require Import List String Ascii Bool Arith ZArith NArith QArith Lia.
From Stdlib Require Import Qround Qpower Qabs Lqa.
From Stdlib Require Import Permutation Sorted.
From Stdlib Require Import DecimalString.
Import ListNotations.

#[local] Set Warnings "-register-all".

Local Close Scope Q_scope.
Local Open Scope string_scope.
Local Open Scope list_scope.

(* ===================================================================== *)
(** ** Errors raised by the code *)
(* ===================================================================== *)

Inductive error : Type :=
| StreamWithoutRules   (* "You Must Specify Rules when using a Stream" *)
| NoRules              (* "Not able to transform without rules" *)
| BadOutputStream      (* "outputStream must be a writable stream" *)
| BadCallback          (* "Callback must be a function" *)
| NoPathToSave         (* "No Path to Save Model" *)
| NoModelToSave        (* "No Model To Save" *)
| TypeError            (* member access or call on undefined/null *)
| CodecError           (* unzipSync or eval threw, or eval gave null/undefined *)
| IOError.             (* fs.readFileSync / fs.writeFileSync threw *)

Definition result (A : Type) : Type := (A + error)%type.

Definition Ok {A} (a : A) : result A := inl a.
Definition Throw {A} (e : error) : result A := inr e.

Definition bind {A B} (m : result A) (f : A -> result B) : result B :=
  match m with
  | inl a => f a
  | inr e => inr e
  end.

Notation "x <- m ;; k" := (bind m (fun x => k))
  (at level 61, m at next level, right associativity).

(** [forEach f xs s]: run [f] on every element in order, threading the state,
    stopping at the first exception. *)
Fixpoint forEach {A S} (f : A -> S -> result S) (xs : list A) (s : S) : result S :=
  match xs with
  | [] => Ok s
  | x :: rest => s' <- f x s ;; forEach f rest s'
  end.

(* ===================================================================== *)
(** ** The JavaScript fragment *)
(* ===================================================================== *)

Module JS.

(** Values found in documents.  Numbers are restricted to integers (meant
    within the safe range, below 2^53 in magnitude): their string form is
    then the decimal numeral. *)
Inductive value : Type :=
| VUndefined
| VNull
| VBool (b : bool)
| VNum (n : Z)
| VStr (s : string)
| VArr (items : list value)
| VObj (props : list (string * value)).

(** [!v] is [negb (truthy v)]. *)
Definition truthy (v : value) : bool :=
  match v with
  | VUndefined | VNull => false
  | VBool b => b
  | VNum n => negb (n =? 0)%Z
  | VStr s => negb (s =? "")
  | VArr _ | VObj _ => true
  end.

Definition isArray (v : value) : bool :=
  match v with VArr _ => true | _ => false end.

Definition numeral (n : Z) : string := NilZero.string_of_int (Z.to_int n).

Fixpoint join (sep : string) (parts : list string) : string :=
  match parts with
  | [] => ""
  | [p] => p
  | p :: rest => (p ++ sep ++ join sep rest)%string
  end.

(** Does the conversion of [v] to a string return?  Converting an object
    calls its [toString]; an object of a document that has an own property
    of that name (data, not a function) has no primitive value, and the
    conversion throws a TypeError.  An array converts its elements. *)
Fixpoint converts (v : value) : bool :=
  match v with
  | VArr items => forallb converts items
  | VObj props => negb (existsb (fun p => fst p =? "toString") props)
  | _ => true
  end.

(** [String(v)] for a [v] that converts. *)
Fixpoint toString (v : value) : string :=
  match v with
  | VUndefined => "undefined"
  | VNull => "null"
  | VBool true => "true"
  | VBool false => "false"
  | VNum n => numeral n
  | VStr s => s
  | VArr items =>
      join "," (map (fun x => match x with
                              | VUndefined | VNull => ""
                              | _ => toString x
                              end) items)
  | VObj _ => "[object Object]"
  end.

(** The property key of [obj[v]]: the string [v] converts to, or the
    TypeError of the conversion. *)
Definition toPropertyKey (v : value) : result string :=
  if converts v then Ok (toString v) else Throw TypeError.

(** *** Array indices among property keys

    A key is an array index when it is the canonical numeral of an integer
    in [0, 2^32 - 2]. *)
Definition digit (c : ascii) : option N :=
  let n := N_of_ascii c in
  if ((48 <=? n) && (n <=? 57))%N then Some (n - 48)%N else None.

Fixpoint parseDigits (s : string) (acc : N) : option N :=
  match s with
  | EmptyString => Some acc
  | String c rest =>
      match digit c with
      | Some d => parseDigits rest (10 * acc + d)%N
      | None => None
      end
  end.

Definition arrayIndex (s : string) : option N :=
  match s with
  | EmptyString => None
  | String c rest =>
      if (c =? "0")%char then (if rest =? "" then Some 0%N else None)
      else match parseDigits s 0 with
           | Some n => if (n <=? 4294967294)%N then Some n else None
           | None => None
           end
  end.

Definition isArrayIndex (s : string) : bool :=
  match arrayIndex s with Some _ => true | None => false end.

(** *** A stable sort

    [Array.prototype.sort] is stable; with a consistent comparator its
    output is the one of insertion sort.  [before a b] says that [a] may
    stay in front of [b]. *)
Section Sort.
Context {A : Type} (before : A -> A -> bool).

Fixpoint insert (x : A) (l : list A) : list A :=
  match l with
  | [] => [x]
  | y :: rest => if before x y then x :: l else y :: insert x rest
  end.

Fixpoint sort (l : list A) : list A :=
  match l with
  | [] => []
  | x :: rest => insert x (sort rest)
  end.

End Sort.

(** *** [Array.prototype.slice(0, end)] *)
Definition toIntegerOrInfinity (q : Q) : Z := Z.quot (Qnum q) (Zpos (Qden q)).

Definition sliceEnd (len : nat) (endArg : option Q) : nat :=
  match endArg with
  | None => len
  | Some q =>
      let rel := toIntegerOrInfinity q in
      if (rel <? 0)%Z then Z.to_nat (Z.max (Z.of_nat len + rel) 0)
      else Z.to_nat (Z.min rel (Z.of_nat len))
  end.

Definition slice0 {A} (l : list A) (endArg : option Q) : list A :=
  firstn (sliceEnd (List.length l) endArg) l.

(** *** Arithmetic on doubles

    A quotient or a product is the double nearest to the exact result: for
    [2^e <= q < 2^(e+1)] the doubles around [q] are the multiples of
    [2^(e-52)], and the result is the nearest multiple, the even one at a
    tie.  (Beyond 2^1024 and below 2^-1022 doubles behave otherwise; counts
    and percentages do not come near.)  A double is given by its exact
    value. *)
Definition binade (q : Q) : Z :=
  let d := (Z.log2 (Qnum q) - Z.log2 (Zpos (Qden q)))%Z in
  if Qle_bool (Qpower 2 d) q then d else (d - 1)%Z.

Definition roundEven (q : Q) : Z :=
  let f := Qfloor q in
  match Qcompare (q - inject_Z f) (1 # 2) with
  | Lt => f
  | Gt => (f + 1)%Z
  | Eq => if Z.even f then f else (f + 1)%Z
  end.

(** The double nearest to [q >= 0]. *)
Definition double (q : Q) : Q :=
  if Qle_bool q 0 then 0%Q
  else
    let ulp := Qpower 2 (binade q - 52) in
    (inject_Z (roundEven (q / ulp)) * ulp)%Q.

(** [Number(x.toFixed(1))] for a double [0 <= x < 10^21]: of the numbers
    [n / 10], the nearest to the exact value of [x], the larger one at a
    tie; it is identified with the decimal it prints as. *)
Definition toFixed1 (x : Q) : Q := Qmake (Qfloor (x * 10 + (1 # 2))) 10.

End JS.

(* ===================================================================== *)
(** ** Ordinary objects and [Map] *)
(* ===================================================================== *)

(** An object created by a literal [{}]: its own string-keyed properties in
    creation order, above [Object.prototype]. *)
Module Obj.

Definition t (A : Type) : Type := list (string * A).

Definition empty {A} : t A := [].

(** The own property [k], if any. *)
Fixpoint own {A} (k : string) (o : t A) : option A :=
  match o with
  | [] => None
  | (k', v) :: rest => if k' =? k then Some v else own k rest
  end.

(** The members an object literal inherits from [Object.prototype]; each
    one is a function, or the prototype object itself for [__proto__], hence
    truthy when read through [o[k]]. *)
Definition inherited : list string :=
  [ "constructor"; "__defineGetter__"; "__defineSetter__"; "hasOwnProperty";
    "__lookupGetter__"; "__lookupSetter__"; "isPrototypeOf";
    "propertyIsEnumerable"; "toString"; "valueOf"; "__proto__";
    "toLocaleString" ].

Definition inherits (k : string) : bool := existsb (String.eqb k) inherited.
#[global] Arguments inherits k : simpl never.

(** Is [o[k]] truthy, for an object whose own properties are all objects. *)
Definition has {A} (k : string) (o : t A) : bool :=
  match own k o with
  | Some _ => true
  | None => inherits k
  end.

Fixpoint replace {A} (k : string) (v : A) (o : t A) : t A :=
  match o with
  | [] => []
  | (k', v') :: rest =>
      if k' =? k then (k', v) :: rest else (k', v') :: replace k v rest
  end.

(** Write the own property [k]: in place when it exists, appended otherwise. *)
Definition define {A} (k : string) (v : A) (o : t A) : t A :=
  match own k o with
  | Some _ => replace k v o
  | None => o ++ [(k, v)]
  end.

(** [o[k] = v] with [v] an object.  The key [__proto__] reaches the setter
    inherited from [Object.prototype], which creates no own property. *)
Definition set {A} (k : string) (v : A) (o : t A) : t A :=
  if k =? "__proto__" then o else define k v o.

Definition indexOf {A} (p : string * A) : N :=
  match JS.arrayIndex (fst p) with Some n => n | None => 0%N end.

(** [Object.entries(o)]: array-index keys in ascending numeric order, then
    the other keys in creation order. *)
Definition entries {A} (o : t A) : list (string * A) :=
  JS.sort (fun a b => (indexOf a <=? indexOf b)%N)
          (filter (fun p => JS.isArrayIndex (fst p)) o)
  ++ filter (fun p => negb (JS.isArrayIndex (fst p))) o.

Definition keys {A} (o : t A) : list string := map fst (entries o).

End Obj.

(** A [Map] with string keys: insertion order, whatever the keys. *)
Module JMap.

Definition t (A : Type) : Type := list (string * A).

Definition empty {A} : t A := [].

Definition get {A} (k : string) (m : t A) : option A := Obj.own k m.

Definition set {A} (k : string) (v : A) (m : t A) : t A := Obj.define k v m.

End JMap.

(** [Object.keys(v)] for a document value. *)
Definition indices (n : nat) : list string :=
  map (fun i => JS.numeral (Z.of_nat i)) (seq 0 n).

Definition objectKeys (v : JS.value) : result (list string) :=
  match v with
  | JS.VUndefined | JS.VNull => Throw TypeError
  | JS.VBool _ | JS.VNum _ => Ok []
  | JS.VStr s => Ok (indices (String.length s))
  | JS.VArr items => Ok (indices (List.length items))
  | JS.VObj props => Ok (Obj.keys props)
  end.

(** [new Set()] with [add]: insertion order, no duplicates. *)
Definition setAdd (k : string) (s : list string) : list string :=
  if existsb (String.eqb k) s then s else s ++ [k].

(** [arr.includes(k)] *)
Definition includes (k : string) (arr : list string) : bool :=
  existsb (String.eqb k) arr.

(* ===================================================================== *)
(** ** Data model *)
(* ===================================================================== *)

(** A rule object.  [threshold] and [mode] are optional because
    [_buildDefaultRules] copies them from instance fields that may be
    undefined. *)
Record Rule : Type := mkRule {
  key : string;
  threshold : option Q;
  mode : option string;
  operator : option string;
  cap : option Q
}.

(** An entry of [root.values]: [{ count }], later [{ count, percentage }]. *)
Record Entry : Type := mkEntry {
  count : nat;
  percentage : option Q
}.

(** [{ total, values }] *)
Record Tally : Type := mkTally {
  total : nat;
  values : Obj.t Entry
}.

Definition Results : Type := JMap.t Tally.
Definition Ranked : Type := list (string * Entry).
Definition Selections : Type := Obj.t (list string).
Definition Stats : Type := Obj.t Ranked.

(** An [outputStream] argument, by what [transform] asks of it: whether its
    [pipe] is a function, which [checkStream] tests, and whether its [write]
    is, which the call [outputStream.write(...)] needs. *)
Record Sink : Type := mkSink {
  hasPipe : bool;
  hasWrite : bool
}.

(** The hooks. [filterData] is modelled by the truthiness of what it returns. *)
Definition FilterData : Type := string -> JS.value -> bool.
Definition TranslateKey : Type := string -> string.
Definition TranslateValue : Type := string -> JS.value -> JS.value.

(** Property values of a model object. *)
Inductive mval : Type :=
| MUndefined
| MString (s : string)
| MNumber (q : Q)
| MBoolean (b : bool)
| MRules (rs : list Rule)
| MStrings (ks : list string)
| MFilterData (f : FilterData)
| MTranslateKey (f : TranslateKey)
| MTranslateValue (f : TranslateValue).

Definition ModelObject : Type := Obj.t mval.

(** What [eval] makes of an artifact: an object, given by its properties, or
    a primitive (a number, a string, a boolean), given by its truthiness.
    Reading a property of a primitive gives [undefined] for every name
    [extractDataFromModel] asks for. *)
Inductive Decoded : Type :=
| DecodedObject (m : ModelObject)
| DecodedPrimitive (truthy : bool).

Definition propertiesOf (d : Decoded) : ModelObject :=
  match d with
  | DecodedObject m => m
  | DecodedPrimitive _ => Obj.empty
  end.

(** [m.k] *)
Definition prop (k : string) (m : ModelObject) : mval :=
  match Obj.own k m with Some v => v | None => MUndefined end.

(* ===================================================================== *)
(** ** External collaborators *)
(* ===================================================================== *)

(** What the module imports: lodash [get], serialize-javascript, zlib and
    fs.  [Text] is the serializer's output and [Bytes] a [Buffer].  A [None]
    stands for a call that throws; for [evalModel], which is
    [eval("(" + text + ")")], also for a result that is null or undefined,
    on which the next statement ([model.name]) throws.  Any other result,
    an object or a primitive, is returned. *)
Class External : Type := {
  Text : Type;
  Bytes : Type;
  get : JS.value -> string -> JS.value;
  serialize : ModelObject -> Text;
  gzipSync : Text -> Bytes;
  unzipSync : Bytes -> option Text;
  evalModel : Text -> option Decoded;
  readFileSync : string -> option Bytes;
  writable : string -> bool
}.

(* ===================================================================== *)
(** ** The class [Synthesizer] *)
(* ===================================================================== *)

Section Synth.
Context {E : External}.

(** [this.model]: the raw artifact (constructor) or the decoded object
    ([loadModel], [setModel]). *)
Inductive ModelRef : Type :=
| RawModel (raw : Bytes)
| DecodedModel (d : Decoded).

(** The instance fields; [None] is [undefined]. *)
Record Synthesizer : Type := mkSynthesizer {
  this_name : option string;
  this_rules : option (list Rule);
  this_skipKeys : option (list string);
  this_filterData : option FilterData;
  this_translateKey : option TranslateKey;
  this_translateValue : option TranslateValue;
  this_defaultRuleMode : option string;
  this_defaultRuleValue : option Q;
  this_defaultRuleOperator : option string;
  this_keepAutogeneratedRules : option bool;
  this_verbose : bool;
  this_model : option ModelRef
}.

(** The document source: whether [docs.pipe] is a function, and the
    documents iteration yields. *)
Record Docs : Type := mkDocs {
  pipe : bool;
  items : list JS.value
}.

(** What the instance does to the outside: events, sink, callback, files. *)
Inductive Effect : Type :=
| Emit_model_update (compressed : Bytes) (model : ModelObject)
| Emit_transformed (results : Selections) (chunk : Docs) (stats : Stats)
| Emit_model_save (compressed : Bytes) (model : ModelObject)
| Emit_model_loaded (model : Decoded)
| Emit_model_set (model : Decoded)
| SinkWrite (results : Selections) (chunk : Docs) (stats : Stats)
| Callback (results : Selections) (chunk : Docs) (stats : Stats)
| WriteFile (path : string) (content : Bytes + ModelObject)
| ConsoleLog (model : Decoded).

(** *** A state and exception monad for the methods *)

Record State : Type := mkState {
  this : Synthesizer;
  trace : list Effect
}.

Definition M (A : Type) : Type := State -> result A * State.

Definition ret {A} (a : A) : M A := fun s => (Ok a, s).
Definition throw {A} (e : error) : M A := fun s => (Throw e, s).
Definition lift {A} (r : result A) : M A := fun s => (r, s).

Definition mbind {A B} (m : M A) (f : A -> M B) : M B :=
  fun s => match m s with
           | (inl a, s') => f a s'
           | (inr e, s') => (inr e, s')
           end.

Notation "x <~ m ;; k" := (mbind m (fun x => k))
  (at level 61, m at next level, right associativity).
Notation "m ;;; k" := (mbind m (fun _ => k))
  (at level 61, right associativity).

Definition self : M Synthesizer := fun s => (Ok (this s), s).
Definition update (f : Synthesizer -> Synthesizer) : M unit :=
  fun s => (Ok tt, mkState (f (this s)) (trace s)).
Definition effect (e : Effect) : M unit :=
  fun s => (Ok tt, mkState (this s) (trace s ++ [e])).
Definition when (b : bool) (m : M unit) : M unit := if b then m else ret tt.

(** Field assignments [this.f = v]. *)
Definition set_rules (v : option (list Rule)) (t : Synthesizer) : Synthesizer :=
  mkSynthesizer (this_name t) v (this_skipKeys t) (this_filterData t)
    (this_translateKey t) (this_translateValue t) (this_defaultRuleMode t)
    (this_defaultRuleValue t) (this_defaultRuleOperator t)
    (this_keepAutogeneratedRules t) (this_verbose t) (this_model t).

Definition set_skipKeys (v : option (list string)) (t : Synthesizer) : Synthesizer :=
  mkSynthesizer (this_name t) (this_rules t) v (this_filterData t)
    (this_translateKey t) (this_translateValue t) (this_defaultRuleMode t)
    (this_defaultRuleValue t) (this_defaultRuleOperator t)
    (this_keepAutogeneratedRules t) (this_verbose t) (this_model t).

Definition set_filterData (v : option FilterData) (t : Synthesizer) : Synthesizer :=
  mkSynthesizer (this_name t) (this_rules t) (this_skipKeys t) v
    (this_translateKey t) (this_translateValue t) (this_defaultRuleMode t)
    (this_defaultRuleValue t) (this_defaultRuleOperator t)
    (this_keepAutogeneratedRules t) (this_verbose t) (this_model t).

Definition set_translateKey (v : option TranslateKey) (t : Synthesizer) : Synthesizer :=
  mkSynthesizer (this_name t) (this_rules t) (this_skipKeys t) (this_filterData t)
    v (this_translateValue t) (this_defaultRuleMode t)
    (this_defaultRuleValue t) (this_defaultRuleOperator t)
    (this_keepAutogeneratedRules t) (this_verbose t) (this_model t).

Definition set_model (v : option ModelRef) (t : Synthesizer) : Synthesizer :=
  mkSynthesizer (this_name t) (this_rules t) (this_skipKeys t) (this_filterData t)
    (this_translateKey t) (this_translateValue t) (this_defaultRuleMode t)
    (this_defaultRuleValue t) (this_defaultRuleOperator t)
    (this_keepAutogeneratedRules t) (this_verbose t) v.

(** Reading a member of [undefined], or calling it, throws. *)
Definition defined {A} (o : option A) : result A :=
  match o with Some a => Ok a | None => Throw TypeError end.

Definition isSome {A} (o : option A) : bool :=
  match o with Some _ => true | None => false end.

(** [checkStream(obj)]: [obj != null && typeof obj.pipe === "function"];
    the object is given by whether its [pipe] is a function. *)
Definition checkStream (obj : option bool) : bool :=
  match obj with
  | Some pipeIsFunction => pipeIsFunction
  | None => false
  end.

(** *** [setParams] and the model codec *)

Definition ofString (o : option string) : mval :=
  match o with Some s => MString s | None => MUndefined end.
Definition ofNumber (o : option Q) : mval :=
  match o with Some q => MNumber q | None => MUndefined end.
Definition ofBoolean (o : option bool) : mval :=
  match o with Some b => MBoolean b | None => MUndefined end.
Definition ofRules (o : option (list Rule)) : mval :=
  match o with Some rs => MRules rs | None => MUndefined end.
Definition ofStrings (o : option (list string)) : mval :=
  match o with Some ks => MStrings ks | None => MUndefined end.
Definition ofFilterData (o : option FilterData) : mval :=
  match o with Some f => MFilterData f | None => MUndefined end.
Definition ofTranslateKey (o : option TranslateKey) : mval :=
  match o with Some f => MTranslateKey f | None => MUndefined end.
Definition ofTranslateValue (o : option TranslateValue) : mval :=
  match o with Some f => MTranslateValue f | None => MUndefined end.

Definition asString (v : mval) : option string :=
  match v with MString s => Some s | _ => None end.
Definition asNumber (v : mval) : option Q :=
  match v with MNumber q => Some q | _ => None end.
Definition asBoolean (v : mval) : option bool :=
  match v with MBoolean b => Some b | _ => None end.
Definition asRules (v : mval) : option (list Rule) :=
  match v with MRules rs => Some rs | _ => None end.
Definition asStrings (v : mval) : option (list string) :=
  match v with MStrings ks => Some ks | _ => None end.
Definition asFilterData (v : mval) : option FilterData :=
  match v with MFilterData f => Some f | _ => None end.
Definition asTranslateKey (v : mval) : option TranslateKey :=
  match v with MTranslateKey f => Some f | _ => None end.
Definition asTranslateValue (v : mval) : option TranslateValue :=
  match v with MTranslateValue f => Some f | _ => None end.

(** [getModel()]; [now] is what [Date.now()] returns. *)
Definition getModel (now : Z) (t : Synthesizer) : Bytes * ModelObject :=
  let model := Obj.empty in
  let model := Obj.set "name" (ofString (this_name t)) model in
  let model := Obj.set "rules" (ofRules (this_rules t)) model in
  let model := Obj.set "skipKeys" (ofStrings (this_skipKeys t)) model in
  let model := Obj.set "filterData" (ofFilterData (this_filterData t)) model in
  let model := Obj.set "translateKey" (ofTranslateKey (this_translateKey t)) model in
  let model := Obj.set "translateValue" (ofTranslateValue (this_translateValue t)) model in
  let model := Obj.set "defaultRuleMode" (ofString (this_defaultRuleMode t)) model in
  let model := Obj.set "defaultRuleValue" (ofNumber (this_defaultRuleValue t)) model in
  let model := Obj.set "defaultRuleOperator" (ofString (this_defaultRuleOperator t)) model in
  let model :=
    Obj.set "keepAutogeneratedRules" (ofBoolean (this_keepAutogeneratedRules t)) model in
  let model := Obj.set "creationDate" (MNumber (inject_Z now)) model in
  let serialized := serialize model in
  let compressed := gzipSync serialized in
  (compressed, model).

(** [extractDataFromModel(raw)] *)
Definition extractDataFromModel (raw : Bytes) : M Decoded :=
  decompressed <~
    lift (match unzipSync raw with Some d => Ok d | None => Throw CodecError end) ;;
  model <~
    lift (match evalModel decompressed with Some m => Ok m | None => Throw CodecError end) ;;
  update (fun t =>
    mkSynthesizer
      (asString (prop "name" (propertiesOf model)))
      (asRules (prop "rules" (propertiesOf model)))
      (asStrings (prop "skipFields" (propertiesOf model)))
      (asFilterData (prop "filterData" (propertiesOf model)))
      (asTranslateKey (prop "translateKey" (propertiesOf model)))
      (asTranslateValue (prop "translateValue" (propertiesOf model)))
      (asString (prop "defaultRuleMode" (propertiesOf model)))
      (asNumber (prop "defaultRuleValue" (propertiesOf model)))
      (asString (prop "defaultRuleOperator" (propertiesOf model)))
      (asBoolean (prop "keepAutogeneratedRules" (propertiesOf model)))
      (this_verbose t) (this_model t)) ;;;
  ret model.

(** [setParams({ rules, skipFields, filterData, translateKey, translateValue })];
    an argument is [Some] when it is provided and truthy.  The fifth
    statement, [if (translateValue) this.translateValue;], only reads the
    field. *)
Definition setParams (now : Z)
    (rules : option (list Rule)) (skipFields : option (list string))
    (filterData : option FilterData) (translateKey : option TranslateKey)
    (translateValue : option TranslateValue) : M unit :=
  when (isSome rules) (update (set_rules rules)) ;;;
  when (isSome skipFields) (update (set_skipKeys skipFields)) ;;;
  when (isSome filterData) (update (set_filterData filterData)) ;;;
  when (isSome translateKey) (update (set_translateKey translateKey)) ;;;
  when (isSome translateValue) (t <~ self ;; let _ := this_translateValue t in ret tt) ;;;
  t <~ self ;;
  let '(compressed, model) := getModel now t in
  effect (Emit_model_update compressed model).

(** *** [_buildDefaultRules] *)

(** [if (dataPath) doc = get(doc, dataPath)] *)
Definition project (dataPath : option string) (doc : JS.value) : JS.value :=
  match dataPath with
  | Some p => if p =? "" then doc else get doc p
  | None => doc
  end.

Definition _buildDefaultRules (t : Synthesizer) (docs : Docs)
    (dataPath : option string) : result (list Rule) :=
  rulesSet <-
    forEach (fun doc rulesSet =>
               ks <- objectKeys (project dataPath doc) ;;
               Ok (fold_left (fun s k => setAdd k s) ks rulesSet))
            (items docs) [] ;;
  forEach (fun key rules =>
             skipKeys <- defined (this_skipKeys t) ;;
             if includes key skipKeys then Ok rules
             else
               filterData <- defined (this_filterData t) ;;
               if filterData key JS.VUndefined then Ok rules
               else Ok (rules ++ [mkRule key (this_defaultRuleValue t)
                                         (this_defaultRuleMode t) None None]))
          rulesSet [].

Definition getRules : M (option (list Rule)) :=
  t <~ self ;; ret (this_rules t).

(** *** [transform]: tallying *)

(** The statements of [addValue] after its guard, for the property key [k]
    of the value.  When [root.values[k]] is truthy through an inherited
    member, the increment lands on that member and no own entry appears;
    that write (a property [count] on a member of [Object.prototype], or on
    [Object.prototype] itself for [__proto__]) is outside the instance and
    the tallies, and is not recorded here. *)
Definition increment (k : string) (root : Tally) : Tally :=
  let values' :=
    if Obj.has k (values root) then
      match Obj.own k (values root) with
      | Some e => Obj.replace k (mkEntry (count e + 1) (percentage e)) (values root)
      | None => values root
      end
    else Obj.set k (mkEntry 1 None) (values root) in
  mkTally (total root + 1) values'.

(** The closure [addValue(value, root)] on a defined [root]:
    [root.values[value]] converts the value to a property key, which throws
    for a value that has no string form. *)
Definition addValue (value : JS.value) (root : Tally) : result Tally :=
  if negb (JS.truthy value) then Ok root
  else
    k <- JS.toPropertyKey value ;;
    Ok (increment k root).

(** [addValue(value, results.get(field))]: with [root] undefined the first
    member access, reached for a truthy [value] only, throws. *)
Definition addValueAt (value : JS.value) (field : string) (results : Results)
    : result Results :=
  match JMap.get field results with
  | Some root =>
      root' <- addValue value root ;;
      Ok (JMap.set field root' results)
  | None => if JS.truthy value then Throw TypeError else Ok results
  end.

(** One observation [v] of [field]. *)
Definition observe (t : Synthesizer) (field : string) (v : JS.value)
    (results : Results) : result Results :=
  filterData <- defined (this_filterData t) ;;
  if filterData field v then Ok results
  else
    translateValue <- defined (this_translateValue t) ;;
    addValueAt (translateValue field v) field results.

(** The body of [for (const key of fields)]. *)
Definition tallyField (t : Synthesizer) (doc : JS.value) (key : string)
    (results : Results) : result Results :=
  skipKeys <- defined (this_skipKeys t) ;;
  if includes key skipKeys then Ok results
  else
    translateKey <- defined (this_translateKey t) ;;
    let field := translateKey key in
    let value := get doc field in
    match value with
    | JS.VArr vs => forEach (observe t field) vs results
    | _ => observe t field value results
    end.

(** The loop [for await (let doc of docs)]. *)
Definition aggregate (t : Synthesizer) (dataPath : option string)
    (fields : list string) (docs : Docs) (results : Results) : result Results :=
  forEach (fun doc => forEach (tallyField t (project dataPath doc)) fields)
          (items docs) results.

(** [fields.forEach((f) => results.set(f, { total: 0, values: {} }))] *)
Definition initResults (fields : list string) : Results :=
  fold_left (fun results f => JMap.set f (mkTally 0 Obj.empty) results)
            fields JMap.empty.

(** [Number(((count / total) * 100).toFixed(1))] for a positive [total]
    (a tally that holds a value has one): the quotient and the product are
    rounded to doubles, the product then to one decimal. *)
Definition toPercentage (count total : nat) : Q :=
  let quotient := JS.double (Z.of_nat count # Pos.of_nat total) in
  JS.toFixed1 (JS.double (quotient * 100)).

Definition withPercentage (v : Tally) : Tally :=
  mkTally (total v)
    (map (fun e : string * Entry =>
            (fst e, mkEntry (count (snd e))
                            (Some (toPercentage (count (snd e)) (total v)))))
         (values v)).

Definition computePercentage (results : Results) : Results :=
  map (fun kv : string * Tally => (fst kv, withPercentage (snd kv))) results.

(** The comparator [(a, b) => b[1].count - a[1].count] is not positive when
    [b]'s count does not exceed [a]'s. *)
Definition byCount (a b : string * Entry) : bool :=
  (count (snd b) <=? count (snd a))%nat.

(** [Object.entries(v.values).sort(...)] *)
Definition rank (v : Tally) : Ranked := JS.sort byCount (Obj.entries (values v)).

Definition sortResults (results : Results) : Obj.t Ranked :=
  fold_left (fun sortedResults kv => Obj.set (fst kv) (rank (snd kv)) sortedResults)
            results Obj.empty.

(** *** [transform]: applying the rules *)

Inductive Comparison : Type := Equal | Lt | Lte | Gt | Gte.

(** [x === y], [x < y], ... on numbers that may be undefined. *)
Definition compareNum (c : Comparison) (x y : option Q) : bool :=
  match x, y with
  | Some a, Some b =>
      match c with
      | Equal => Qeq_bool a b
      | Lt => negb (Qle_bool b a)
      | Lte => Qle_bool a b
      | Gt => negb (Qle_bool a b)
      | Gte => Qle_bool b a
      end
  | None, None => match c with Equal => true | _ => false end
  | _, _ => false
  end.

Definition equals (s : string) (o : option string) : bool :=
  match o with Some x => x =? s | None => false end.

(** The blocks [switch (operator)] runs: none of them ends in [break], so
    control enters at the matching label and runs every block below it. *)
Definition switchOperator (operator : option string) : list Comparison :=
  if equals "equal" operator then [Equal; Lt; Lte; Gt; Gte]
  else if equals "lt" operator then [Lt; Lte; Gt; Gte]
  else if equals "lte" operator then [Lte; Gt; Gte]
  else if equals "gt" operator then [Gt; Gte]
  else [Gte].

(** [finalResults[k] = sel.map((i) => i[0]); if (includeStats) stats[k] = sel] *)
Definition assign (includeStats : bool) (k : string) (sel : Ranked)
    (out : Selections * Stats) : Selections * Stats :=
  (Obj.set k (map fst sel) (fst out),
   if includeStats then Obj.set k sel (snd out) else snd out).

Definition satisfying (c : Comparison) (threshold : option Q) (v : Ranked) : Ranked :=
  filter (fun j => compareNum c (percentage (snd j)) threshold) v.

(** [if (cap) { ... }]: a number is truthy unless it is zero. *)
Definition applyCap (includeStats : bool) (k : string) (cap : option Q)
    (out : Selections * Stats) : result (Selections * Stats) :=
  match cap with
  | Some c =>
      if Qeq_bool c 0 then Ok out
      else
        sel <- defined (Obj.own k (fst out)) ;;
        let finalResults := Obj.set k (JS.slice0 sel cap) (fst out) in
        if includeStats then
          st <- defined (Obj.own k (snd out)) ;;
          Ok (finalResults, Obj.set k (JS.slice0 st cap) (snd out))
        else Ok (finalResults, snd out)
  | None => Ok out
  end.

(** The callback of [Object.entries(sortedResults).forEach]. *)
Definition applyRule (regole : list Rule) (includeStats : bool)
    (kv : string * Ranked) (out : Selections * Stats) : result (Selections * Stats) :=
  let k := fst kv in
  let v := snd kv in
  r <- defined (find (fun f => key f =? k) regole) ;;
  if equals "top" (mode r) then
    Ok (assign includeStats k (JS.slice0 v (threshold r)) out)
  else if equals "percentage" (mode r) then
    applyCap includeStats k (cap r)
      (fold_left (fun out c => assign includeStats k (satisfying c (threshold r) v) out)
                 (switchOperator (operator r)) out)
  else Ok out.

Definition applyRules (regole : list Rule) (includeStats : bool)
    (sortedResults : Obj.t Ranked) : result (Selections * Stats) :=
  forEach (applyRule regole includeStats) (Obj.entries sortedResults)
          (Obj.empty, Obj.empty).

(** *** [transform] *)

(** What [transform] resolves to: [finalResults] or [[finalResults, stats]]. *)
Inductive Returned : Type :=
| Selected (finalResults : Selections)
| SelectedWithStats (finalResults : Selections) (stats : Stats).

(** The immediately invoked function that yields [regole]. *)
Definition resolveRules (now : Z) (docs : Docs) (rules : option (list Rule))
    (dataPath : option string) : M (list Rule) :=
  match rules with
  | Some given => ret given
  | None =>
      t <~ self ;;
      match this_rules t with
      | Some configured => ret configured
      | None =>
          autoRules <~ lift (_buildDefaultRules t docs dataPath) ;;
          when (match this_keepAutogeneratedRules t with Some b => b | None => false end)
               (update (set_rules (Some autoRules)) ;;;
                t' <~ self ;;
                let '(compressed, model) := getModel now t' in
                effect (Emit_model_update compressed model)) ;;;
          ret autoRules
      end
  end.

(** [cb && !typeof cb === "function"]: [!typeof cb] is the boolean [false],
    which is never identical to a string. *)
Definition callbackRejected (cb : option bool) : bool := isSome cb && false.

(** [transform({ docs, rules, dataPath, includeStats, outputStream, cb })].
    [cb] is given by whether it is callable.  Calling a [write] or a [cb]
    that is not a function throws a TypeError. *)
Definition transform (now : Z) (docs : Docs) (rules : option (list Rule))
    (dataPath : option string) (includeStats : bool)
    (outputStream : option Sink) (cb : option bool) : M Returned :=
  t <~ self ;;
  if checkStream (Some (pipe docs))
     && (negb (isSome rules) || negb (isSome (this_rules t)))
  then throw StreamWithoutRules
  else
    regole <~ resolveRules now docs rules dataPath ;;
    if (List.length regole =? 0)%nat then throw NoRules
    else if isSome outputStream
            && negb (checkStream (option_map hasPipe outputStream))
    then throw BadOutputStream
    else if callbackRejected cb then throw BadCallback
    else
      let fields := map key regole in
      t <~ self ;;
      results <~ lift (aggregate t dataPath fields docs (initResults fields)) ;;
      let sortedResults := sortResults (computePercentage results) in
      out <~ lift (applyRules regole includeStats sortedResults) ;;
      let finalResults := fst out in
      let stats := snd out in
      effect (Emit_transformed finalResults docs stats) ;;;
      match outputStream with
      | Some sink =>
          if hasWrite sink then effect (SinkWrite finalResults docs stats)
          else throw TypeError
      | None => ret tt
      end ;;;
      match cb with
      | Some true => effect (Callback finalResults docs stats)
      | Some false => throw TypeError
      | None => ret tt
      end ;;;
      ret (if includeStats then SelectedWithStats finalResults stats
           else Selected finalResults).

(** The ranked tallies a successful aggregation leads to. *)
Definition rankedTallies (t : Synthesizer) (regole : list Rule)
    (dataPath : option string) (docs : Docs) : result (Obj.t Ranked) :=
  let fields := map key regole in
  results <- aggregate t dataPath fields docs (initResults fields) ;;
  Ok (sortResults (computePercentage results)).

(** *** [saveModel], [loadModel], [setModel] *)

Fixpoint endsWithSlash (s : string) : bool :=
  match s with
  | EmptyString => false
  | String c EmptyString => (c =? "/")%char
  | String _ rest => endsWithSlash rest
  end.

(** [`${v}`] *)
Definition template (v : mval) : string :=
  match v with
  | MString s => s
  | _ => "undefined"
  end.

Definition writeFileSync (path : string) (content : Bytes + ModelObject) : M unit :=
  if writable path then effect (WriteFile path content) else throw IOError.

(** Is [this.model] truthy?  The artifact handed to the constructor is
    (its branch is taken for a truthy [model] only); [loadModel] and
    [setModel] store whatever [eval] returned, which is falsy when it is a
    falsy primitive. *)
Definition truthyModel (m : option ModelRef) : bool :=
  match m with
  | Some (RawModel _) => true
  | Some (DecodedModel (DecodedObject _)) => true
  | Some (DecodedModel (DecodedPrimitive b)) => b
  | None => false
  end.

Definition saveModel (now : Z) (dir : option string) (generateJSONCopy : bool)
    : M (Bytes * ModelObject) :=
  match dir with
  | None => throw NoPathToSave
  | Some dir =>
      if dir =? "" then throw NoPathToSave
      else
        t <~ self ;;
        if truthyModel (this_model t) then
          let '(compressed, model) := getModel now t in
          let dir := if endsWithSlash dir then dir else (dir ++ "/")%string in
          let name := template (prop "name" model) in
          when generateJSONCopy
               (writeFileSync (dir ++ name ++ ".json")%string (inr model)) ;;;
          writeFileSync (dir ++ name ++ ".j2s")%string (inl compressed) ;;;
          effect (Emit_model_save compressed model) ;;;
          ret (compressed, model)
        else throw NoModelToSave
  end.

Definition loadModel (path : string) : M unit :=
  raw <~ lift (match readFileSync path with Some b => Ok b | None => Throw IOError end) ;;
  model <~ extractDataFromModel raw ;;
  t <~ self ;;
  when (this_verbose t) (effect (ConsoleLog model)) ;;;
  update (set_model (Some (DecodedModel model))) ;;;
  effect (Emit_model_loaded model).

Definition setModel (raw : Bytes) : M unit :=
  model <~ extractDataFromModel raw ;;
  t <~ self ;;
  when (this_verbose t) (effect (ConsoleLog model)) ;;;
  update (set_model (Some (DecodedModel model))) ;;;
  effect (Emit_model_set model).

(** *** The constructor *)

(** The constructor's argument; [None] is an omitted property. *)
Record Config : Type := mkConfig {
  cfg_model : option Bytes;
  cfg_path : option string;
  cfg_name : option string;
  cfg_rules : option (list Rule);
  cfg_skipKeys : option (list string);
  cfg_defaultRuleMode : option string;
  cfg_defaultRuleValue : option Q;
  cfg_defaultRuleOperator : option string;
  cfg_keepAutogeneratedRules : option bool;
  cfg_verbose : option bool;
  cfg_filterData : option FilterData;
  cfg_translateKey : option TranslateKey;
  cfg_translateValue : option TranslateValue
}.

Definition orDefault {A} (o : option A) (d : A) : A :=
  match o with Some a => a | None => d end.

(** The object under construction, every field undefined. *)
Definition blank : Synthesizer :=
  mkSynthesizer None None None None None None None None None None false None.

Definition truthyString (o : option string) : bool :=
  match o with Some s => negb (s =? "") | None => false end.

Definition construct (now : Z) (c : Config) : M unit :=
  match cfg_model c with
  | Some model =>
      extractDataFromModel model ;;;
      update (set_model (Some (RawModel model)))
  | None =>
      if truthyString (cfg_path c) then loadModel (orDefault (cfg_path c) "")
      else
        update (fun t =>
          mkSynthesizer (this_name t) (cfg_rules c)
            (Some (orDefault (cfg_skipKeys c) []))
            (this_filterData t) (this_translateKey t) (this_translateValue t)
            (Some (orDefault (cfg_defaultRuleMode c) "top"))
            (Some (orDefault (cfg_defaultRuleValue c) (3 # 1)%Q))
            (Some (orDefault (cfg_defaultRuleOperator c) "gte"))
            (Some (orDefault (cfg_keepAutogeneratedRules c) false))
            (this_verbose t) (this_model t))
  end ;;;
  update (fun t =>
    mkSynthesizer
      (if truthyString (this_name t) then this_name t
       else Some (orDefault (cfg_name c) ("model_" ++ JS.numeral now)%string))
      (this_rules t) (this_skipKeys t)
      (Some (orDefault (this_filterData t)
                       (orDefault (cfg_filterData c) (fun _ _ => false))))
      (Some (orDefault (this_translateKey t)
                       (orDefault (cfg_translateKey c) (fun k => k))))
      (Some (orDefault (this_translateValue t)
                       (orDefault (cfg_translateValue c) (fun _ v => v))))
      (this_defaultRuleMode t) (this_defaultRuleValue t)
      (this_defaultRuleOperator t) (this_keepAutogeneratedRules t)
      (orDefault (cfg_verbose c) false) (this_model t)).

(** [new Synthesizer(c)]: the instance and what happened, or the exception. *)
Definition new (now : Z) (c : Config) : result unit * State :=
  construct now c (mkState blank []).

End Synth.

(* ===================================================================== *)
(** ** Collaborators for concrete runs *)
(* ===================================================================== *)

(** [get(doc, path)] for a path free of dots and brackets against a plain
    object with that own key. *)
Definition flatGet (doc : JS.value) (path : string) : JS.value :=
  match doc with
  | JS.VObj props =>
      match Obj.own path props with
      | Some v => v
      | None => JS.VUndefined
      end
  | _ => JS.VUndefined
  end.

(** Collaborators whose codec is lossless: the text and the bytes are
    represented by the object they encode; no file exists, every write
    succeeds. *)
Definition Lossless : External := {|
  Text := ModelObject;
  Bytes := ModelObject;
  get := flatGet;
  serialize := fun m => m;
  gzipSync := fun t => t;
  unzipSync := fun b => Some b;
  evalModel := fun t => Some (DecodedObject t);
  readFileSync := fun _ => None;
  writable := fun _ => true
|}.

(** [new Synthesizer({})] and [new Synthesizer({ keepAutogeneratedRules: true })],
    created at time 0. *)
Definition emptyConfig : @Config Lossless :=
  mkConfig None None None None None None None None None None None None None.

Definition instanceOf (c : @Config Lossless) : @Synthesizer Lossless :=
  this (snd (new 0 c)).

(** [new Synthesizer({ skipKeys: ["b"] })] *)
Definition skippingB : @Synthesizer Lossless :=
  instanceOf (mkConfig None None None None (Some ["b"]) None None None None None
                       None None None).

Definition docsOf (ds : list JS.value) : Docs := mkDocs false ds.
Definition streamOf (ds : list JS.value) : Docs := mkDocs true ds.

(** [{ a: v }] *)
Definition doc1 (k : string) (v : JS.value) : JS.value := JS.VObj [(k, v)].

Definition topRule (k : string) (n : Z) : Rule :=
  mkRule k (Some (inject_Z n)) (Some "top") None None.

Definition percentageRule (k : string) (op : option string) (n : Z) : Rule :=
  mkRule k (Some (inject_Z n)) (Some "percentage") op None.

(** [new Synthesizer({})] before any call. *)
Definition fresh : @State Lossless := mkState (instanceOf emptyConfig) [].

(** [[{ a: "x" }, { a: "x" }, { a: "y" }]] and the ranking of its field [a]. *)
Definition xxy : Docs :=
  docsOf [doc1 "a" (JS.VStr "x"); doc1 "a" (JS.VStr "x"); doc1 "a" (JS.VStr "y")].

Definition xxyRanked : Ranked :=
  [("x", mkEntry 2 (Some (667 # 10)%Q)); ("y", mkEntry 1 (Some (333 # 10)%Q))].

(** [[{ a: "x" }, { a: "y" }]] and [[{ a: "x" }, { a: "7" }]]: two values seen
    once each. *)
Definition xy : Docs := docsOf [doc1 "a" (JS.VStr "x"); doc1 "a" (JS.VStr "y")].
Definition x7 : Docs := docsOf [doc1 "a" (JS.VStr "x"); doc1 "a" (JS.VStr "7")].

Definition half : Entry := mkEntry 1 (Some (500 # 10)%Q).

(** The hooks of [new Synthesizer({})]. *)
Definition keepAll : FilterData := fun _ _ => false.
Definition sameKey : TranslateKey := fun k => k.
Definition sameValue : TranslateValue := fun _ v => v.

(** [[{ a: "constructor" }, { a: "x" }]] *)
Definition ctorDocs : Docs :=
  docsOf [doc1 "a" (JS.VStr "constructor"); doc1 "a" (JS.VStr "x")].

(** [new Synthesizer({ translateKey: (k) => k + "_id" })] before any call. *)
Definition suffixing : @State Lossless :=
  mkState (instanceOf (mkConfig None None None None None None None None None None
                                None (Some (fun k => (k ++ "_id")%string)) None)) [].

(** A rule whose mode the rule block does not know. *)
Definition medianRule (k : string) : Rule :=
  mkRule k (Some (inject_Z 1)) (Some "median") None None.

(* ===================================================================== *)
(** ** Vocabulary of the statements *)
(* ===================================================================== *)

(** One element in front of another, anywhere in a list. *)
Definition precedes {A} (a b : A) (l : list A) : Prop :=
  exists l1 l2 l3, l = l1 ++ a :: l2 ++ b :: l3.

(** The entries of a given count. *)
Definition sameCount (c : nat) (e : string * Entry) : bool := (count (snd e) =? c)%nat.

(** What the rule block of [transform] leaves under a key, read off the
    branches: the slice for "top"; for "percentage" the last block of the
    switch, then the cap; nothing for another mode. *)
Definition capped (cap : option Q) (sel : Ranked) : Ranked :=
  match cap with
  | Some c => if Qeq_bool c 0 then sel else JS.slice0 sel cap
  | None => sel
  end.

Definition ruleSelection (r : Rule) (v : Ranked) : option Ranked :=
  if equals "top" (mode r) then Some (JS.slice0 v (threshold r))
  else if equals "percentage" (mode r) then
    Some (capped (cap r) (satisfying Gte (threshold r) v))
  else None.

Definition ruleFor (k : string) (regole : list Rule) : option Rule :=
  find (fun f => key f =? k) regole.

(** The two objects a [transform] result carries; [stats] is empty when it
    is not returned. *)
Definition selectionsOf (r : Returned) : Selections :=
  match r with
  | Selected finalResults => finalResults
  | SelectedWithStats finalResults _ => finalResults
  end.

Definition statsOf (r : Returned) : Stats :=
  match r with
  | Selected _ => Obj.empty
  | SelectedWithStats _ stats => stats
  end.

(** The calls [addValue(value, results.get(field))] that the loop of
    [transform] makes, in order, given the hooks: the field and the
    translated value of every observation that [filterData] lets through. *)
Section Observations.
Context {E : External}.
Variables (skipKeys : list string) (filterData : FilterData)
          (translateKey : TranslateKey) (translateValue : TranslateValue).

Definition observationsOf (doc : JS.value) (key : string) : list (string * JS.value) :=
  if includes key skipKeys then []
  else
    let field := translateKey key in
    match get doc field with
    | JS.VArr vs =>
        map (fun v => (field, translateValue field v))
            (filter (fun v => negb (filterData field v)) vs)
    | value =>
        if filterData field value then [] else [(field, translateValue field value)]
    end.

Definition observations (dataPath : option string) (fields : list string)
    (docs : Docs) : list (string * JS.value) :=
  flat_map (fun doc => flat_map (observationsOf (project dataPath doc)) fields)
           (items docs).

(** The values sent to the tally of [field], in order. *)
Definition observedFor (field : string) (dataPath : option string)
    (fields : list string) (docs : Docs) : list JS.value :=
  map snd (filter (fun c => fst c =? field) (observations dataPath fields docs)).

End Observations.

(** One such call. *)
Definition addValueCall (c : string * JS.value) : Results -> result Results :=
  addValueAt (snd c) (fst c).

(** The root after a call [addValue(value, root)] that returned, and after
    successive ones. *)
Definition counted (value : JS.value) (root : Tally) : Tally :=
  if JS.truthy value then increment (JS.toString value) root else root.

Definition tallyAll (vs : list JS.value) (root : Tally) : Tally :=
  fold_left (fun r v => counted v r) vs root.

(** A value that [addValue] accepts: falsy, or with a string form to count
    it under. *)
Definition keyable (v : JS.value) : bool := negb (JS.truthy v) || JS.converts v.

(** The keys under which values are counted: the string forms of the truthy
    ones. *)
Definition seenKeys (vs : list JS.value) : list string :=
  map JS.toString (filter JS.truthy vs).

(** [a] occurs in the sequence before any occurrence of [b]. *)
Definition firstSeenBefore (a b : string) (seen : list string) : Prop :=
  a <> b /\ exists l1 l2, seen = l1 ++ a :: l2 /\ ~ In b l1.

(** The own keys a sequence of keys creates on top of [acc]. *)
Definition created (seen : list string) (acc : list string) : list string :=
  fold_left (fun acc k =>
               if existsb (String.eqb k) acc || Obj.inherits k then acc
               else acc ++ [k])
            seen acc.

Definition sumCounts (vals : Obj.t Entry) : nat :=
  list_sum (map (fun e => count (snd e)) vals).

(** The truthy values whose key is an inherited member. *)
Definition shadowed (vs : list JS.value) : list JS.value :=
  filter (fun v => JS.truthy v && Obj.inherits (JS.toString v)) vs.

(** No own key is an inherited member. *)
Definition unshadowed (root : Tally) : Prop :=
  forall k, In k (map fst (values root)) -> Obj.inherits k = false.

Definition emptyTally : Tally := mkTally 0 Obj.empty.

(** The calls that can fail, run for their effect on the state. *)
Section Calls.
Context {E : External}.




(** The lifecycle notifications among the effects. *)
Definition isEmit (e : Effect) : bool :=
  match e with
  | Emit_model_update _ _ | Emit_transformed _ _ _ | Emit_model_save _ _
  | Emit_model_loaded _ | Emit_model_set _ => true
  | SinkWrite _ _ _ | Callback _ _ _ | WriteFile _ _ | ConsoleLog _ => false
  end.

Definition emitted (tr : list Effect) : list Effect := filter isEmit tr.




End Calls.


(** [new Synthesizer({ keepAutogeneratedRules: true })] before any call. *)
Definition keeping : @State Lossless :=
  mkState (instanceOf (mkConfig None None None None None None None None (Some true)
                                None None None None)) [].

(** The relative error of an operation on doubles: [2^-53]. *)
Definition eps : Q := (1 # 9007199254740992)%Q.

(** A tally as [addValue] keeps it: every entry counted at least once and
    not yet given a percentage, no own key an inherited member, and the
    counts adding up to no more than the total. *)
Definition wellCounted (root : Tally) : Prop :=
  unshadowed root /\
  Forall (fun e : string * Entry => 1 <= count (snd e) /\ percentage (snd e) = None)
         (values root) /\
  sumCounts (values root) <= total root.

(** [new Synthesizer({ skipKeys: ["a"] })] before any call. *)
Definition skippingA : @State Lossless :=
  mkState (instanceOf (mkConfig None None None None (Some ["a"]) None None None None None
                                None None None)) [].

(** An [outputStream] with a [pipe] and a [write], and one with a [pipe]
    only. *)
Definition writableSink : Sink := mkSink true true.
Definition pipeOnly : Sink := mkSink true false.

(** [[{ a: ["x", "y"] }]] *)
Definition arrayDoc : JS.value := doc1 "a" (JS.VArr [JS.VStr "x"; JS.VStr "y"]).

(** [new Synthesizer({ model })] for the artifact that [getModel] of
    [new Synthesizer({ skipKeys: ["b"] })] returned at time 5. *)
Definition fromSaved : @Config Lossless :=
  mkConfig (Some (fst (getModel 5 skippingB))) None None None None None None None None
           None None None None.

(** What [_buildDefaultRules] works with: the keys of the documents, taken
    under [dataPath]; the rule it pushes for a key; the documents
    [Object.keys] rejects. *)
Section Derived.
Context {E : External}.

Definition documentKey (dataPath : option string) (docs : Docs) (k : string) : Prop :=
  exists doc ks,
    In doc (items docs) /\ objectKeys (project dataPath doc) = Ok ks /\ In k ks.

Definition defaultRule (t : Synthesizer) (k : string) : Rule :=
  mkRule k (this_defaultRuleValue t) (this_defaultRuleMode t) None None.

Definition derivable (sk : list string) (fd : FilterData) (k : string) : bool :=
  negb (includes k sk) && negb (fd k JS.VUndefined).

End Derived.

Definition nullish (v : JS.value) : bool :=
  match v with
  | JS.VUndefined | JS.VNull => true
  | _ => false
  end.

(** [[{ a: "x", b: 1 }, { b: 2, c: "y" }]] and [[{ a: "x" }, null]] *)
Definition abDocs : Docs :=
  docsOf [JS.VObj [("a", JS.VStr "x"); ("b", JS.VNum 1)];
          JS.VObj [("b", JS.VNum 2); ("c", JS.VStr "y")]].

Definition nullDocs : Docs := docsOf [doc1 "a" (JS.VStr "x"); JS.VNull].

(** What can be done with an instance short of giving it a model. *)
Section Uses.
Context {E : External}.

Inductive Use : Type :=
| UseTransform (now : Z) (docs : Docs) (rules : option (list Rule))
    (dataPath : option string) (includeStats : bool) (outputStream : option Sink)
    (cb : option bool)
| UseSetParams (now : Z) (rules : option (list Rule))
    (skipFields : option (list string)) (filterData : option FilterData)
    (translateKey : option TranslateKey) (translateValue : option TranslateValue)
| UseGetRules
| UseSaveModel (now : Z) (dir : option string) (generateJSONCopy : bool).

Definition use (u : Use) (s : State) : State :=
  match u with
  | UseTransform now docs rules dataPath includeStats outputStream cb =>
      snd (transform now docs rules dataPath includeStats outputStream cb s)
  | UseSetParams now rules skipFields filterData translateKey translateValue =>
      snd (setParams now rules skipFields filterData translateKey translateValue s)
  | UseGetRules => snd (getRules s)
  | UseSaveModel now dir generateJSONCopy => snd (saveModel now dir generateJSONCopy s)
  end.

Definition after (us : list Use) (s : State) : State :=
  fold_left (fun s u => use u s) us s.

(** The file [saveModel] writes the artifact to. *)
Definition artifactPath (dir : string) (model : ModelObject) : string :=
  ((if endsWithSlash dir then dir else dir ++ "/")
   ++ template (prop "name" model) ++ ".j2s")%string.

End Uses.

(** [new Synthesizer({ name: "m", rules: [{ key: "a", mode: "top", threshold: 1 }] })]
    used for a [transform] and a [setParams]. *)
Definition namedConfig : @Config Lossless :=
  mkConfig None None (Some "m") (Some [topRule "a" 1]) None None None None None None
           None None None.

Definition someUses : list Use :=
  [UseTransform 1 xxy None None false None None;
   UseSetParams 2 None (Some ["b"]) None None None].

(** The artifact of [new Synthesizer({ model })] above, taken at time 7; the
    collaborators of [Lossless] with a file system that holds it under every
    path; and the same instance with these collaborators. *)
Definition savedModel : ModelObject := snd (getModel 7 (instanceOf fromSaved)).

Definition Stored : External := {|
  Text := ModelObject;
  Bytes := ModelObject;
  get := flatGet;
  serialize := fun m => m;
  gzipSync := fun t => t;
  unzipSync := fun b => Some b;
  evalModel := fun t => Some (DecodedObject t);
  readFileSync := fun _ => Some savedModel;
  writable := fun _ => true
|}.

Definition storedState : @State Stored :=
  snd (new 9 (mkConfig (Some (snd (getModel 5 skippingB) : @Bytes Stored)) None None None
                       None None None None None None None None None)).

(** A "top" rule without its [operator] and [cap]. *)
Definition bare (r : Rule) : Rule :=
  if equals "top" (mode r) then mkRule (key r) (threshold r) (mode r) None None else r.

(** [{ key: k, mode: "percentage", threshold: n, cap: c }] *)
Definition cappedRule (k : string) (n : Z) (c : Q) : Rule :=
  mkRule k (Some (inject_Z n)) (Some "percentage") None (Some c).

(** An instance with the [verbose] flag of another. *)
Definition withVerbose {E : External} (b : bool) (t : Synthesizer) : Synthesizer :=
  mkSynthesizer (this_name t) (this_rules t) (this_skipKeys t) (this_filterData t)
    (this_translateKey t) (this_translateValue t) (this_defaultRuleMode t)
    (this_defaultRuleValue t) (this_defaultRuleOperator t)
    (this_keepAutogeneratedRules t) b (this_model t).

(** [new Synthesizer({ verbose: true })] before any call. *)
Definition chatty : @State Lossless :=
  mkState (instanceOf (mkConfig None None None None None None None None None (Some true)
                                None None None)) [].

(** Collaborators for which every artifact holds the text [0], which
    [eval] turns into the number zero; an instance with them. *)
Definition Zero : External := {|
  Text := unit;
  Bytes := unit;
  get := flatGet;
  serialize := fun _ => tt;
  gzipSync := fun t => t;
  unzipSync := fun b => Some b;
  evalModel := fun _ => Some (DecodedPrimitive false);
  readFileSync := fun _ => Some tt;
  writable := fun _ => true
|}.

Definition zeroArtifact : @Bytes Zero := tt.

Definition zeroState : @State Zero :=
  snd (new 0 (mkConfig None None None None None None None None None None None None None)).

(* ===================================================================== *)
(** * Theorems *)
(* ===================================================================== *)

(** ** Concrete runs of the JavaScript fragment *)

Example numeral_samples :
  JS.numeral 0 = "0" /\ JS.numeral 42 = "42" /\ JS.numeral (-7) = "-7".
Proof. repeat split. Qed.

Example toString_samples :
  JS.toString (JS.VArr [JS.VNum 1; JS.VNull; JS.VStr "b"]) = "1,,b".
Proof. reflexivity. Qed.

Example arrayIndex_samples :
  JS.arrayIndex "7" = Some 7%N /\ JS.arrayIndex "07" = None /\
  JS.arrayIndex "x" = None /\ JS.arrayIndex "4294967295" = None /\
  JS.arrayIndex "0" = Some 0%N.
Proof. repeat split. Qed.

Example slice_samples :
  JS.slice0 [1;2;3] (Some (2#1)%Q) = [1;2] /\
  JS.slice0 [1;2;3] (Some (-1#1)%Q) = [1;2] /\
  JS.slice0 [1;2;3] (Some (5#2)%Q) = [1;2] /\
  JS.slice0 [1;2;3] (Some (-1#2)%Q) = [] /\
  JS.slice0 [1;2;3] None = [1;2;3].
Proof. repeat split. Qed.

(** Quotients and products are rounded as doubles are: 41 of 80 is 0.5125
    exactly, the nearest double lies below it, and so does its product with
    100 lie below 51.25, which prints as 51.2. *)
Example double_samples :
  JS.double (41 # 80) = (4616189618054758 # 9007199254740992)%Q /\
  (JS.double (JS.double (41 # 80) * 100) < 5125 # 100)%Q /\
  toPercentage 41 80 = (512 # 10)%Q /\
  toPercentage 2 3 = (667 # 10)%Q /\
  toPercentage 1 8 = (125 # 10)%Q /\
  toPercentage 3 3 = (1000 # 10)%Q.
Proof. repeat split. Qed.

Example entries_order :
  Obj.keys [("b", 1); ("10", 2); ("a", 3); ("2", 4); ("01", 5)]
  = ["2"; "10"; "b"; "a"; "01"].
Proof. reflexivity. Qed.

(** The two scenarios the documentation gives for [[{a:"x"},{a:"x"},{a:"y"}]]. *)
Example documented_scenarios :
  fst (transform 0 xxy (Some [topRule "a" 1]) None true None None fresh)
    = Ok (SelectedWithStats [("a", ["x"])]
                            [("a", [("x", mkEntry 2 (Some (667 # 10)%Q))])]) /\
  rankedTallies (instanceOf emptyConfig) [topRule "a" 1] None xxy
    = Ok [("a", xxyRanked)] /\
  fst (transform 0 xxy (Some [percentageRule "a" (Some "gte") 50]) None false
                 None None fresh)
    = Ok (Selected [("a", ["x"])]).
Proof. repeat split. Qed.

(** Without rules anywhere, they are derived from the keys of the batch. *)
Example derived_rules :
  _buildDefaultRules (instanceOf emptyConfig) xxy None
    = Ok [mkRule "a" (Some (3 # 1)%Q) (Some "top") None None] /\
  fst (transform 0 xxy None None false None None fresh)
    = Ok (Selected [("a", ["x"; "y"])]).
Proof. split; reflexivity. Qed.

(** ** [setParams] *)

Section SetParams.
Context {E : External}.

(** C5. After [setParams], each of [rules], [skipFields], [filterData] and
    [translateKey] that was provided (truthy) has replaced the instance
    field and each omitted one is retained; [translateValue], provided or
    not, leaves [this.translateValue] as it was. *)
Theorem setParams_fields (now : Z)
    (rules : option (list Rule)) (skipFields : option (list string))
    (filterData : option FilterData) (translateKey : option TranslateKey)
    (translateValue : option TranslateValue) (s : State) :
  let t' := this (snd (setParams now rules skipFields filterData translateKey
                                 translateValue s)) in
  this_rules t' = (if isSome rules then rules else this_rules (this s)) /\
  this_skipKeys t' = (if isSome skipFields then skipFields else this_skipKeys (this s)) /\
  this_filterData t' = (if isSome filterData then filterData else this_filterData (this s)) /\
  this_translateKey t' =
    (if isSome translateKey then translateKey else this_translateKey (this s)) /\
  this_translateValue t' = this_translateValue (this s).
Proof.
  destruct s as [t tr].
  destruct rules, skipFields, filterData, translateKey, translateValue;
    cbn; repeat split.
Qed.

(** [setParams] announces the update exactly once. *)
Lemma setParams_emits (now : Z) rules skipFields filterData translateKey
    translateValue (s : State) :
  let r := setParams now rules skipFields filterData translateKey translateValue s in
  fst r = Ok tt /\
  trace (snd r) =
    trace s ++ [Emit_model_update (fst (getModel now (this (snd r))))
                                  (snd (getModel now (this (snd r))))].
Proof.
  destruct s as [t tr].
  destruct rules, skipFields, filterData, translateKey, translateValue;
    cbn; split; reflexivity.
Qed.

End SetParams.

(** A hook passed to [setParams] is not the one observations go through. *)
Example setParams_translateValue_ignored :
  let shout : TranslateValue := fun _ _ => JS.VStr "z" in
  let t := instanceOf emptyConfig in
  let t' := this (snd (setParams 0 None None None None (Some shout) (mkState t []))) in
  option_map (fun f => f "a" (JS.VStr "x")) (this_translateValue t')
    = Some (JS.VStr "x") /\
  shout "a" (JS.VStr "x") = JS.VStr "z".
Proof. split; reflexivity. Qed.

(** ** The model codec *)

Section Codec.
Context {E : External}.

Lemma asRules_ofRules o : asRules (ofRules o) = o.
Proof. destruct o; reflexivity. Qed.

Lemma asString_ofString o : asString (ofString o) = o.
Proof. destruct o; reflexivity. Qed.

Lemma asNumber_ofNumber o : asNumber (ofNumber o) = o.
Proof. destruct o; reflexivity. Qed.

Lemma asBoolean_ofBoolean o : asBoolean (ofBoolean o) = o.
Proof. destruct o; reflexivity. Qed.

(** The object [getModel] builds has a property [skipKeys] and none called
    [skipFields]. *)
Lemma getModel_properties (now : Z) (t : Synthesizer) :
  let model := snd (getModel now t) in
  prop "skipKeys" model = ofStrings (this_skipKeys t) /\
  prop "skipFields" model = MUndefined /\
  prop "rules" model = ofRules (this_rules t).
Proof. cbn. repeat split. Qed.

(** C2. With a codec that loses nothing, decoding the artifact of [getModel]
    succeeds and restores [rules] and the four default fields, but
    [this.skipKeys] comes back undefined whatever it was: [getModel] stores
    the list under [skipKeys] and [extractDataFromModel] reads
    [model.skipFields]. *)
Theorem decode_encode_fields (now : Z) (t : Synthesizer) (s : State)
    (Hzip : forall x : Text, unzipSync (gzipSync x) = Some x)
    (Heval : forall m : ModelObject, evalModel (serialize m) = Some (DecodedObject m)) :
  let r := extractDataFromModel (fst (getModel now t)) s in
  fst r = Ok (DecodedObject (snd (getModel now t))) /\
  this_rules (this (snd r)) = this_rules t /\
  this_defaultRuleMode (this (snd r)) = this_defaultRuleMode t /\
  this_defaultRuleValue (this (snd r)) = this_defaultRuleValue t /\
  this_defaultRuleOperator (this (snd r)) = this_defaultRuleOperator t /\
  this_keepAutogeneratedRules (this (snd r)) = this_keepAutogeneratedRules t /\
  this_skipKeys (this (snd r)) = None.
Proof.
  unfold extractDataFromModel, getModel, mbind, lift, update, ret.
  cbn [fst snd]. rewrite Hzip. cbn [Ok]. rewrite Heval. cbn.
  rewrite asRules_ofRules, !asString_ofString, asNumber_ofNumber, asBoolean_ofBoolean.
  repeat split.
Qed.

End Codec.

Lemma decode_encode_fields_witness :
  (forall x : @Text Lossless, unzipSync (gzipSync x) = Some x) /\
  (forall m : ModelObject, @evalModel Lossless (serialize m) = Some (DecodedObject m)) /\
  this_skipKeys skippingB = Some ["b"] /\
  this_skipKeys
    (this (snd (extractDataFromModel (fst (getModel 5 skippingB))
                                     (mkState skippingB [])))) = None.
Proof.
  split; [reflexivity|]. split; [reflexivity|]. split; [reflexivity|].
  apply (@decode_encode_fields Lossless 5 skippingB (mkState skippingB [])
           (fun x => eq_refl) (fun m => eq_refl)).
Defined.

(** ** The stream guard of [transform] *)

Section StreamGuard.
Context {E : External}.

(** The guard fires exactly when the source is a stream and the call-level
    rules or the instance rules are missing. *)
Lemma stream_guard now docs rules dataPath includeStats outputStream cb (s : State) :
  pipe docs = true ->
  rules = None \/ this_rules (this s) = None ->
  transform now docs rules dataPath includeStats outputStream cb s
  = (Throw StreamWithoutRules, s).
Proof.
  intros Hp Hr. unfold transform, mbind, self. cbn. rewrite Hp.
  destruct Hr as [-> | ->]; cbn; [reflexivity|].
  rewrite orb_true_r. reflexivity.
Qed.

(** C3. A stream source with call-level rules, on an instance without
    configured rules, is rejected with "You Must Specify Rules when using a
    Stream": the guard tests [!rules || !this.rules]. *)
Theorem stream_with_call_rules_rejected now (chunks : list JS.value)
    (given : list Rule) dataPath includeStats outputStream cb
    (t : Synthesizer) (tr : list Effect) :
  transform now (mkDocs true chunks) (Some given) dataPath includeStats
            outputStream cb (mkState (set_rules None t) tr)
  = (Throw StreamWithoutRules, mkState (set_rules None t) tr).
Proof.
  apply stream_guard; [reflexivity | right; reflexivity].
Qed.

(** The mirror case: rules configured on the instance, none in the call. *)
Lemma stream_with_instance_rules_rejected now (chunks : list JS.value)
    dataPath includeStats outputStream cb (s : State) :
  transform now (mkDocs true chunks) None dataPath includeStats outputStream cb s
  = (Throw StreamWithoutRules, s).
Proof.
  apply stream_guard; [reflexivity | left; reflexivity].
Qed.

End StreamGuard.

(** A stream of three chunks with a rule passed to the call. *)
Example stream_with_rules_run :
  fst (transform 0
         (streamOf [doc1 "a" (JS.VStr "x"); doc1 "a" (JS.VStr "x"); doc1 "a" (JS.VStr "y")])
         (Some [topRule "a" 1]) None false None None
         (mkState (instanceOf emptyConfig) []))
  = Throw StreamWithoutRules.
Proof. reflexivity. Qed.

(** ** Objects, maps and the sort *)

Section ObjectFacts.
Context {A : Type}.
Implicit Types (o : Obj.t A) (k : string) (v : A).

Lemma own_None o k : Obj.own k o = None <-> ~ In k (map fst o).
Proof.
  induction o as [|[k' v'] o IH]; cbn; [tauto|].
  destruct (String.eqb_spec k' k) as [->|Hne].
  - split; [discriminate | intros H; exfalso; apply H; now left].
  - rewrite IH. split; intros H; [intros [?|?]; [congruence | tauto] | tauto].
Qed.

Lemma own_In o k v : Obj.own k o = Some v -> In (k, v) o.
Proof.
  induction o as [|[k' v'] o IH]; cbn; [discriminate|].
  destruct (String.eqb_spec k' k) as [->|Hne]; intros H.
  - injection H as ->. now left.
  - right. auto.
Qed.

Lemma In_own o k v : NoDup (map fst o) -> In (k, v) o -> Obj.own k o = Some v.
Proof.
  induction o as [|[k' v'] o IH]; cbn; [tauto|].
  intros Hnd [Heq | Hin]; inversion Hnd as [|? ? Hnotin Hnd']; subst.
  - injection Heq as -> ->. now rewrite String.eqb_refl.
  - destruct (String.eqb_spec k' k) as [->|Hne]; [|auto].
    exfalso. apply Hnotin. apply (in_map fst) in Hin. exact Hin.
Qed.

Lemma keys_replace o k v : map fst (Obj.replace k v o) = map fst o.
Proof.
  induction o as [|[k' v'] o IH]; cbn; [reflexivity|].
  destruct (String.eqb_spec k' k) as [->|Hne]; cbn; congruence.
Qed.

Lemma own_replace_same o k v :
  Obj.own k o <> None -> Obj.own k (Obj.replace k v o) = Some v.
Proof.
  induction o as [|[k' v'] o IH]; cbn; [congruence|].
  destruct (String.eqb_spec k' k) as [->|Hne]; cbn.
  - now rewrite String.eqb_refl.
  - intros H. destruct (String.eqb_spec k' k); [congruence | auto].
Qed.

Lemma own_replace_other o k k' v :
  k <> k' -> Obj.own k (Obj.replace k' v o) = Obj.own k o.
Proof.
  intros Hne. induction o as [|[k0 v0] o IH]; cbn; [reflexivity|].
  destruct (String.eqb_spec k0 k') as [->|Hne']; cbn.
  - destruct (String.eqb_spec k' k); [congruence | reflexivity].
  - now rewrite IH.
Qed.

Lemma own_app o o' k :
  Obj.own k (o ++ o') =
  match Obj.own k o with Some x => Some x | None => Obj.own k o' end.
Proof.
  induction o as [|[k0 v0] o IH]; cbn; [reflexivity|].
  destruct (k0 =? k); [reflexivity | exact IH].
Qed.

Lemma own_define_same o k v : Obj.own k (Obj.define k v o) = Some v.
Proof.
  unfold Obj.define. destruct (Obj.own k o) eqn:Hown.
  - apply own_replace_same. congruence.
  - rewrite own_app, Hown. cbn. now rewrite String.eqb_refl.
Qed.

Lemma own_define_other o k k' v :
  k <> k' -> Obj.own k (Obj.define k' v o) = Obj.own k o.
Proof.
  intros Hne. unfold Obj.define. destruct (Obj.own k' o).
  - now apply own_replace_other.
  - rewrite own_app. cbn.
    destruct (String.eqb_spec k' k); [congruence|].
    now destruct (Obj.own k o).
Qed.

Lemma keys_define o k v :
  map fst (Obj.define k v o) =
  match Obj.own k o with Some _ => map fst o | None => map fst o ++ [k] end.
Proof.
  unfold Obj.define. destruct (Obj.own k o).
  - apply keys_replace.
  - now rewrite map_app.
Qed.

Lemma NoDup_define o k v :
  NoDup (map fst o) -> NoDup (map fst (Obj.define k v o)).
Proof.
  intros Hnd. rewrite keys_define. destruct (Obj.own k o) eqn:Hown; [exact Hnd|].
  apply own_None in Hown.
  apply (Permutation_NoDup (Permutation_cons_append (map fst o) k)).
  now constructor.
Qed.

Lemma own_set_same o k v :
  k <> "__proto__" -> Obj.own k (Obj.set k v o) = Some v.
Proof.
  intros Hk. unfold Obj.set.
  destruct (String.eqb_spec k "__proto__"); [congruence|].
  apply own_define_same.
Qed.

Lemma own_set_other o k k' v :
  k <> k' -> Obj.own k (Obj.set k' v o) = Obj.own k o.
Proof.
  intros Hne. unfold Obj.set. destruct (k' =? "__proto__"); [reflexivity|].
  now apply own_define_other.
Qed.

Lemma own_set_proto o v : Obj.set "__proto__" v o = o.
Proof. reflexivity. Qed.

Lemma NoDup_set o k v : NoDup (map fst o) -> NoDup (map fst (Obj.set k v o)).
Proof.
  intros Hnd. unfold Obj.set. destruct (k =? "__proto__"); [exact Hnd|].
  now apply NoDup_define.
Qed.

Lemma proto_never_own o k v :
  ~ In "__proto__" (map fst o) -> ~ In "__proto__" (map fst (Obj.set k v o)).
Proof.
  intros Hno. unfold Obj.set.
  destruct (String.eqb_spec k "__proto__") as [->|Hne]; [exact Hno|].
  rewrite keys_define. destruct (Obj.own k o); [exact Hno|].
  rewrite in_app_iff. cbn. intros [?|[?|[]]]; [tauto | congruence].
Qed.

End ObjectFacts.

Section SortFacts.
Context {A : Type} (before : A -> A -> bool).

Lemma insert_perm x l : Permutation (JS.insert before x l) (x :: l).
Proof.
  induction l as [|y l IH]; cbn; [reflexivity|].
  destruct (before x y); [reflexivity|].
  rewrite IH. apply perm_swap.
Qed.

Lemma sort_perm l : Permutation (JS.sort before l) l.
Proof.
  induction l as [|x l IH]; cbn; [reflexivity|].
  rewrite insert_perm. now constructor.
Qed.

(** Elements of a class [p] that [before] never lets overtake each other
    keep their relative order. *)
Lemma insert_filter (p : A -> bool) x l :
  (forall y, before x y = false -> p x = true -> p y = false) ->
  filter p (JS.insert before x l) = filter p (x :: l).
Proof.
  intros Hcls. induction l as [|y l IH]; cbn; [reflexivity|].
  destruct (before x y) eqn:Hb; [reflexivity|].
  cbn. rewrite IH. cbn.
  destruct (p x) eqn:Hx; [|reflexivity].
  now rewrite (Hcls y Hb eq_refl).
Qed.

Lemma sort_filter (p : A -> bool) l :
  (forall x y, before x y = false -> p x = true -> p y = false) ->
  filter p (JS.sort before l) = filter p l.
Proof.
  intros Hcls. induction l as [|x l IH]; cbn; [reflexivity|].
  rewrite insert_filter by (apply Hcls). cbn. now rewrite IH.
Qed.

Hypothesis before_total : forall a b, before a b = true \/ before b a = true.
Hypothesis before_trans :
  forall a b c, before a b = true -> before b c = true -> before a c = true.

Lemma insert_sorted x l :
  StronglySorted (fun a b => before a b = true) l ->
  StronglySorted (fun a b => before a b = true) (JS.insert before x l).
Proof.
  induction 1 as [|y l Hs IH Hall]; cbn; [repeat constructor|].
  destruct (before x y) eqn:Hb.
  - constructor; [now constructor|].
    constructor; [exact Hb|].
    eapply Forall_impl; [|exact Hall]. intros z Hz. eapply before_trans; eauto.
  - constructor; [exact IH|].
    rewrite Forall_forall. intros z Hz.
    apply (Permutation_in _ (insert_perm x l)) in Hz.
    destruct Hz as [<- | Hz].
    + destruct (before_total x y) as [H|H]; congruence.
    + rewrite Forall_forall in Hall. auto.
Qed.

Lemma sort_sorted l : StronglySorted (fun a b => before a b = true) (JS.sort before l).
Proof.
  induction l as [|x l IH]; cbn; [constructor|]. now apply insert_sorted.
Qed.

End SortFacts.

Section Precedes.
Context {A : Type}.

Lemma precedes_cons (x a b : A) l : precedes a b l -> precedes a b (x :: l).
Proof.
  intros (l1 & l2 & l3 & ->). now exists (x :: l1), l2, l3.
Qed.

Lemma precedes_app_l (a b : A) l l' : precedes a b l -> precedes a b (l' ++ l).
Proof.
  induction l'; cbn; [auto|]. intros H. now apply precedes_cons, IHl'.
Qed.

Lemma precedes_app_r (a b : A) l l' : precedes a b l -> precedes a b (l ++ l').
Proof.
  intros (l1 & l2 & l3 & ->). exists l1, l2, (l3 ++ l').
  rewrite <- app_assoc. cbn. rewrite <- app_assoc. reflexivity.
Qed.

Lemma precedes_split (a b : A) l l' : In a l -> In b l' -> precedes a b (l ++ l').
Proof.
  intros Ha Hb. apply in_split in Ha as (l1 & l2 & ->).
  apply in_split in Hb as (l3 & l4 & ->).
  exists l1, (l2 ++ l3), l4.
  rewrite <- app_assoc. cbn. rewrite <- app_assoc. reflexivity.
Qed.

Lemma precedes_head (a b : A) l : In b l -> precedes a b (a :: l).
Proof.
  intros Hb. apply in_split in Hb as (l1 & l2 & ->). now exists [], l1, l2.
Qed.

Lemma precedes_filter_inv (p : A -> bool) (a b : A) l :
  precedes a b (filter p l) -> precedes a b l.
Proof.
  induction l as [|x l IH]; cbn.
  - intros (l1 & l2 & l3 & H). now destruct l1.
  - destruct (p x) eqn:Hx; [|intros H; now apply precedes_cons, IH].
    intros (l1 & l2 & l3 & H). destruct l1 as [|y l1]; cbn in H.
    + injection H as -> H. apply precedes_head.
      apply (filter_In p b l). rewrite H. apply in_or_app. right. now left.
    + injection H as -> H. apply precedes_cons, IH. now exists l1, l2, l3.
Qed.

Lemma precedes_filter (p : A -> bool) (a b : A) l :
  p a = true -> p b = true -> precedes a b l -> precedes a b (filter p l).
Proof.
  intros Ha Hb (l1 & l2 & l3 & ->).
  rewrite filter_app. cbn. rewrite Ha, filter_app. cbn. rewrite Hb.
  now exists (filter p l1), (filter p l2), (filter p l3).
Qed.

Lemma precedes_map {B} (f : A -> B) (a b : A) l :
  precedes a b l -> precedes (f a) (f b) (map f l).
Proof.
  intros (l1 & l2 & l3 & ->). exists (map f l1), (map f l2), (map f l3).
  now rewrite map_app, map_cons, map_app, map_cons.
Qed.

End Precedes.

Section EntriesFacts.
Context {A : Type}.
Implicit Types (o : Obj.t A).

Lemma filter_partition_perm (p : string * A -> bool) (l : list (string * A)) :
  Permutation (filter p l ++ filter (fun x => negb (p x)) l) l.
Proof.
  induction l as [|x l IH]; cbn; [reflexivity|].
  destruct (p x); cbn.
  - now constructor.
  - rewrite <- Permutation_middle. now constructor.
Qed.

Lemma entries_perm o : Permutation (Obj.entries o) o.
Proof.
  unfold Obj.entries. rewrite sort_perm.
  apply (filter_partition_perm (fun p => JS.isArrayIndex (fst p))).
Qed.

Lemma In_entries o x : In x (Obj.entries o) <-> In x o.
Proof.
  split; apply Permutation_in; [|symmetry]; apply entries_perm.
Qed.

Lemma NoDup_entries o : NoDup (map fst o) -> NoDup (map fst (Obj.entries o)).
Proof.
  apply Permutation_NoDup. symmetry. apply Permutation_map, entries_perm.
Qed.

Lemma filter_none (p : string * A -> bool) l :
  (forall x, In x l -> p x = false) -> filter p l = [].
Proof.
  induction l as [|x l IH]; cbn; [reflexivity|]. intros H.
  rewrite (H x (or_introl eq_refl)). auto.
Qed.

Lemma filter_all (p : string * A -> bool) l :
  (forall x, In x l -> p x = true) -> filter p l = l.
Proof.
  induction l as [|x l IH]; cbn; [reflexivity|]. intros H.
  rewrite (H x (or_introl eq_refl)). f_equal. auto.
Qed.

(** Keys that are not array indices keep their creation order. *)
Lemma entries_other_keys o :
  filter (fun p => negb (JS.isArrayIndex (fst p))) (Obj.entries o)
  = filter (fun p => negb (JS.isArrayIndex (fst p))) o.
Proof.
  unfold Obj.entries. rewrite filter_app, filter_none.
  - cbn. apply filter_all. intros x Hx. now apply filter_In in Hx.
  - intros x Hx. apply (Permutation_in _ (sort_perm _ _)) in Hx.
    apply filter_In in Hx as [_ ->]. reflexivity.
Qed.

(** Array-index keys come first, in ascending numeric order. *)
Lemma entries_index_first o a b :
  In a o -> In b o ->
  JS.isArrayIndex (fst a) = true -> JS.isArrayIndex (fst b) = false ->
  precedes a b (Obj.entries o).
Proof.
  intros Ha Hb Hia Hib. unfold Obj.entries. apply precedes_split.
  - apply (Permutation_in _ (Permutation_sym (sort_perm _ _))).
    apply filter_In. now split.
  - apply filter_In. split; [exact Hb|]. now rewrite Hib.
Qed.

Lemma entries_index_ascending o :
  exists front,
    Obj.entries o = front ++ filter (fun p => negb (JS.isArrayIndex (fst p))) o /\
    Forall (fun p => JS.isArrayIndex (fst p) = true) front /\
    StronglySorted (fun a b => (Obj.indexOf a <= Obj.indexOf b)%N) front.
Proof.
  eexists. split; [reflexivity|]. split.
  - rewrite Forall_forall. intros x Hx.
    apply (Permutation_in _ (sort_perm _ _)) in Hx. now apply filter_In in Hx.
  - eapply StronglySorted_ind with
      (P := fun l => StronglySorted (fun a b => (Obj.indexOf a <= Obj.indexOf b)%N) l);
      [constructor | | apply (sort_sorted (fun a b : string * A =>
                                            (Obj.indexOf a <=? Obj.indexOf b)%N))].
    + intros a l Hs IH Hall. constructor; [exact IH|].
      eapply Forall_impl; [|exact Hall]. intros z Hz. now apply N.leb_le.
    + intros a b. rewrite !N.leb_le. lia.
    + intros a b c. rewrite !N.leb_le. lia.
Qed.

End EntriesFacts.

Section RankFacts.

Lemma byCount_total a b : byCount a b = true \/ byCount b a = true.
Proof. unfold byCount. rewrite !Nat.leb_le. lia. Qed.

Lemma byCount_trans a b c :
  byCount a b = true -> byCount b c = true -> byCount a c = true.
Proof. unfold byCount. rewrite !Nat.leb_le. lia. Qed.

Lemma byCount_class c x y :
  byCount x y = false -> sameCount c x = true -> sameCount c y = false.
Proof.
  unfold byCount, sameCount. rewrite Nat.leb_gt, Nat.eqb_eq, Nat.eqb_neq. lia.
Qed.

Lemma rank_perm v : Permutation (rank v) (values v).
Proof. unfold rank. rewrite sort_perm. apply entries_perm. Qed.

Lemma rank_descending v :
  StronglySorted (fun a b => count (snd b) <= count (snd a)) (rank v).
Proof.
  pose proof (sort_sorted byCount byCount_total byCount_trans
                (Obj.entries (values v))) as Hs.
  unfold rank. induction Hs as [|a l Hs IH Hall]; constructor; [exact IH|].
  eapply Forall_impl; [|exact Hall]. intros z Hz. now apply Nat.leb_le.
Qed.

Lemma rank_stable v c :
  filter (sameCount c) (rank v) = filter (sameCount c) (Obj.entries (values v)).
Proof. apply sort_filter. intros x y. apply byCount_class. Qed.

(** Among entries of one count, the ranking keeps the order of
    [Object.entries]. *)
Lemma rank_keeps_order v a b :
  count (snd a) = count (snd b) ->
  precedes a b (Obj.entries (values v)) -> precedes a b (rank v).
Proof.
  intros Hc Hp.
  apply (precedes_filter_inv (sameCount (count (snd a)))).
  rewrite rank_stable. apply precedes_filter; [| |exact Hp].
  - apply Nat.eqb_refl.
  - unfold sameCount. rewrite Hc. apply Nat.eqb_refl.
Qed.

End RankFacts.

Section SliceFacts.
Context {A : Type}.

Lemma toInteger_nonneg (q : Q) : (0 <= q)%Q -> (0 <= JS.toIntegerOrInfinity q)%Z.
Proof.
  unfold Qle, JS.toIntegerOrInfinity. cbn. intros H.
  apply Z.quot_pos; lia.
Qed.

Lemma sliceEnd_nonneg len (q : Q) :
  (0 <= JS.toIntegerOrInfinity q)%Z ->
  JS.sliceEnd len (Some q) = Nat.min (Z.to_nat (JS.toIntegerOrInfinity q)) len.
Proof.
  intros H. unfold JS.sliceEnd.
  destruct (Z.ltb_spec (JS.toIntegerOrInfinity q) 0); lia.
Qed.

Lemma toInteger_inject (z : Z) : JS.toIntegerOrInfinity (inject_Z z) = z.
Proof. unfold JS.toIntegerOrInfinity. cbn. apply Z.quot_1_r. Qed.

Lemma firstn_min (l : list A) n : firstn (Nat.min n (List.length l)) l = firstn n l.
Proof.
  destruct (Nat.le_ge_cases n (List.length l)) as [H|H].
  - now rewrite Nat.min_l.
  - rewrite Nat.min_r by exact H. now rewrite firstn_all, firstn_all2.
Qed.

Lemma sliceEnd_negative len (q : Q) :
  (JS.toIntegerOrInfinity q < 0)%Z ->
  JS.sliceEnd len (Some q) = len - Z.to_nat (- JS.toIntegerOrInfinity q).
Proof.
  intros H. unfold JS.sliceEnd.
  destruct (Z.ltb_spec (JS.toIntegerOrInfinity q) 0); lia.
Qed.

Lemma sliceEnd_le len endArg : JS.sliceEnd len endArg <= len.
Proof.
  unfold JS.sliceEnd. destruct endArg as [q|]; [|lia].
  destruct (Z.ltb_spec (JS.toIntegerOrInfinity q) 0); lia.
Qed.

Lemma slice0_length (l : list A) endArg :
  List.length (JS.slice0 l endArg) = JS.sliceEnd (List.length l) endArg.
Proof.
  unfold JS.slice0. rewrite length_firstn.
  pose proof (sliceEnd_le (List.length l) endArg). lia.
Qed.

Lemma slice0_map {B} (f : A -> B) (l : list A) endArg :
  JS.slice0 (map f l) endArg = map f (JS.slice0 l endArg).
Proof. unfold JS.slice0. now rewrite firstn_map, length_map. Qed.

End SliceFacts.

(** ** Rule application *)

Section RuleFacts.
Implicit Types (out : Selections * Stats) (k : string) (v sel : Ranked).

Lemma switchOperator_last operator :
  exists front, switchOperator operator = front ++ [Gte].
Proof.
  unfold switchOperator.
  destruct (equals "equal" operator); [now exists [Equal; Lt; Lte; Gt]|].
  destruct (equals "lt" operator); [now exists [Lt; Lte; Gt]|].
  destruct (equals "lte" operator); [now exists [Lte; Gt]|].
  destruct (equals "gt" operator); [now exists [Gt]|].
  now exists [].
Qed.

Lemma assign_other includeStats k k' sel out :
  k' <> k ->
  Obj.own k' (fst (assign includeStats k sel out)) = Obj.own k' (fst out) /\
  Obj.own k' (snd (assign includeStats k sel out)) = Obj.own k' (snd out).
Proof.
  intros Hne. unfold assign. cbn. split; [now apply own_set_other|].
  destruct includeStats; [now apply own_set_other | reflexivity].
Qed.

Lemma assign_same includeStats k sel out :
  k <> "__proto__" ->
  Obj.own k (fst (assign includeStats k sel out)) = Some (map fst sel) /\
  Obj.own k (snd (assign includeStats k sel out))
    = (if includeStats then Some sel else Obj.own k (snd out)).
Proof.
  intros Hk. unfold assign. cbn. split; [now apply own_set_same|].
  destruct includeStats; [now apply own_set_same | reflexivity].
Qed.

Lemma fold_assign_other includeStats k k' (F : Comparison -> Ranked) cs out :
  k' <> k ->
  let out' := fold_left (fun out c => assign includeStats k (F c) out) cs out in
  Obj.own k' (fst out') = Obj.own k' (fst out) /\
  Obj.own k' (snd out') = Obj.own k' (snd out).
Proof.
  intros Hne. revert out. induction cs as [|c cs IH]; intros out; cbn; [tauto|].
  destruct (IH (assign includeStats k (F c) out)) as [H1 H2].
  destruct (assign_other includeStats k k' (F c) out Hne) as [H3 H4].
  split; congruence.
Qed.

Lemma fold_assign_nostats k (F : Comparison -> Ranked) cs out :
  snd (fold_left (fun out c => assign false k (F c) out) cs out) = snd out.
Proof.
  revert out. induction cs as [|c cs IH]; intros out; cbn; [reflexivity|].
  now rewrite IH.
Qed.

Lemma fold_assign_last includeStats k (F : Comparison -> Ranked) front c out :
  k <> "__proto__" ->
  let out' :=
    fold_left (fun out c => assign includeStats k (F c) out) (front ++ [c]) out in
  Obj.own k (fst out') = Some (map fst (F c)) /\
  Obj.own k (snd out') = (if includeStats then Some (F c) else Obj.own k (snd out)).
Proof.
  intros Hk out'. subst out'. rewrite fold_left_app. cbn [fold_left].
  destruct (assign_same includeStats k (F c)
              (fold_left (fun out c => assign includeStats k (F c) out) front out) Hk)
    as [H1 H2].
  split; [exact H1|]. rewrite H2.
  destruct includeStats; [reflexivity|]. now rewrite fold_assign_nostats.
Qed.

(** [applyCap] on a key that has just been assigned. *)
Lemma applyCap_spec includeStats k cap sel out :
  k <> "__proto__" ->
  Obj.own k (fst out) = Some (map fst sel) ->
  (includeStats = true -> Obj.own k (snd out) = Some sel) ->
  exists out',
    applyCap includeStats k cap out = Ok out' /\
    Obj.own k (fst out') = Some (map fst (capped cap sel)) /\
    Obj.own k (snd out')
      = (if includeStats then Some (capped cap sel) else Obj.own k (snd out)) /\
    (forall k', k' <> k ->
       Obj.own k' (fst out') = Obj.own k' (fst out) /\
       Obj.own k' (snd out') = Obj.own k' (snd out)).
Proof.
  intros Hk Hsel Hst. unfold applyCap, capped.
  destruct cap as [c|].
  2:{ exists out. repeat split; auto. destruct includeStats; auto. }
  destruct (Qeq_bool c 0).
  { exists out. repeat split; auto. destruct includeStats; auto. }
  rewrite Hsel. cbn [defined bind Ok]. destruct includeStats.
  - rewrite (Hst eq_refl). cbn [defined bind Ok].
    eexists. split; [reflexivity|]. cbn [fst snd].
    rewrite !own_set_same, slice0_map by exact Hk. repeat split.
    all: now apply own_set_other.
  - eexists. split; [reflexivity|]. cbn [fst snd].
    rewrite own_set_same, slice0_map by exact Hk. repeat split.
    now apply own_set_other.
Qed.

(** One iteration of the rule loop, for a key that has a rule. *)
Lemma applyRule_spec regole includeStats k v r out :
  k <> "__proto__" ->
  ruleFor k regole = Some r ->
  exists out',
    applyRule regole includeStats (k, v) out = Ok out' /\
    Obj.own k (fst out')
      = match ruleSelection r v with
        | Some sel => Some (map fst sel)
        | None => Obj.own k (fst out)
        end /\
    Obj.own k (snd out')
      = match ruleSelection r v with
        | Some sel => if includeStats then Some sel else Obj.own k (snd out)
        | None => Obj.own k (snd out)
        end /\
    (forall k', k' <> k ->
       Obj.own k' (fst out') = Obj.own k' (fst out) /\
       Obj.own k' (snd out') = Obj.own k' (snd out)).
Proof.
  intros Hk Hfind. unfold applyRule, ruleSelection. cbn [fst snd].
  unfold ruleFor in Hfind. rewrite Hfind. cbn.
  destruct (equals "top" (mode r)).
  { eexists. split; [reflexivity|].
    destruct (assign_same includeStats k (JS.slice0 v (threshold r)) out Hk) as [H1 H2].
    repeat split; auto; now apply assign_other. }
  destruct (equals "percentage" (mode r)).
  2:{ exists out. repeat split; auto. }
  destruct (switchOperator_last (operator r)) as [front ->].
  set (F := fun c => satisfying c (threshold r) v).
  destruct (fold_assign_last includeStats k F front Gte out Hk) as [H1 H2].
  set (mid := fold_left _ _ out) in *.
  destruct (applyCap_spec includeStats k (cap r) (F Gte) mid Hk H1) as (out' & Hcap & H3 & H4 & H5).
  { intros ->. exact H2. }
  exists out'. split; [exact Hcap|]. split; [exact H3|]. split.
  - rewrite H4. destruct includeStats; [reflexivity | exact H2].
  - intros k' Hne. destruct (H5 k' Hne) as [H6 H7].
    destruct (fold_assign_other includeStats k k' F (front ++ [Gte]) out Hne) as [H8 H9].
    fold mid in H8, H9. split; congruence.
Qed.

End RuleFacts.

Section RuleLoop.

Lemma applyRules_loop regole includeStats (es : list (string * Ranked))
    (out : Selections * Stats) :
  NoDup (map fst es) ->
  ~ In "__proto__" (map fst es) ->
  (forall k, In k (map fst es) -> ruleFor k regole <> None) ->
  exists out',
    forEach (applyRule regole includeStats) es out = Ok out' /\
    (forall k v, In (k, v) es ->
       exists r, ruleFor k regole = Some r /\
         Obj.own k (fst out')
           = match ruleSelection r v with
             | Some sel => Some (map fst sel)
             | None => Obj.own k (fst out)
             end /\
         Obj.own k (snd out')
           = match ruleSelection r v with
             | Some sel => if includeStats then Some sel else Obj.own k (snd out)
             | None => Obj.own k (snd out)
             end) /\
    (forall k, ~ In k (map fst es) ->
       Obj.own k (fst out') = Obj.own k (fst out) /\
       Obj.own k (snd out') = Obj.own k (snd out)).
Proof.
  revert out. induction es as [|[k v] es IH]; intros out Hnd Hproto Hrules.
  { exists out. cbn. repeat split; tauto. }
  cbn [map fst] in *. inversion Hnd as [|? ? Hfresh Hnd']; subst.
  assert (Hk : k <> "__proto__") by (intros ->; apply Hproto; now left).
  destruct (ruleFor k regole) as [r|] eqn:Hr;
    [|exfalso; apply (Hrules k); [now left | exact Hr]].
  destruct (applyRule_spec regole includeStats k v r out Hk Hr)
    as (out1 & Hstep & Hsel & Hst & Hother).
  destruct (IH out1 Hnd') as (out' & Hloop & Hin & Hout).
  { intros H. apply Hproto. now right. }
  { intros k' Hk'. apply Hrules. now right. }
  exists out'. split; [cbn; rewrite Hstep; exact Hloop|]. split.
  - intros k' v' [Heq | Hin'].
    + injection Heq as <- <-. exists r. split; [exact Hr|].
      destruct (Hout k Hfresh) as [-> ->]. now split.
    + destruct (Hin k' v' Hin') as (r' & Hr' & H1 & H2).
      assert (Hne : k' <> k).
      { intros ->. apply Hfresh. apply (in_map fst) in Hin'. exact Hin'. }
      destruct (Hother k' Hne) as [H3 H4].
      exists r'. split; [exact Hr'|]. rewrite H1, H2, H3, H4. now split.
  - intros k' Hnot.
    assert (Hne : k' <> k) by (intros ->; apply Hnot; now left).
    destruct (Hout k') as [-> ->]; [intros H; apply Hnot; now right|].
    now apply Hother.
Qed.

End RuleLoop.

(** ** Tallies: keys and well-formedness *)

Section ResultsFacts.
Context {E : External}.

Lemma forEach_invariant {X S} (f : X -> S -> result S) (P : S -> Prop) xs :
  (forall x s s', f x s = Ok s' -> P s -> P s') ->
  forall s s', forEach f xs s = Ok s' -> P s -> P s'.
Proof.
  intros Hstep. induction xs as [|x xs IH]; intros s s' Hrun Hs; cbn in Hrun.
  - injection Hrun as <-. exact Hs.
  - destruct (f x s) as [s1|e] eqn:Hf; cbn in Hrun; [|discriminate].
    eapply IH; eauto.
Qed.

Lemma forEach_app {X S} (f : X -> S -> result S) xs ys s :
  forEach f (xs ++ ys) s = bind (forEach f xs s) (forEach f ys).
Proof.
  revert s. induction xs as [|x xs IH]; intros s; cbn; [reflexivity|].
  destruct (f x s); cbn; [apply IH | reflexivity].
Qed.

Lemma initResults_keys fields :
  forall k, In k (map fst (initResults fields)) <-> In k fields.
Proof.
  unfold initResults, JMap.set, JMap.empty.
  assert (H : forall (acc : Results) k,
             In k (map fst (fold_left
                     (fun results f => Obj.define f (mkTally 0 Obj.empty) results)
                     fields acc))
             <-> In k (map fst acc) \/ In k fields).
  { induction fields as [|f fields IH]; intros acc k; cbn; [tauto|].
    rewrite IH, keys_define. destruct (Obj.own f acc) eqn:Hown.
    - apply own_In in Hown. apply (in_map fst) in Hown. cbn in Hown.
      split; [tauto|]. intros [?|[<-|?]]; tauto.
    - rewrite in_app_iff. cbn. tauto. }
  intros k. rewrite H. cbn. tauto.
Qed.

Lemma initResults_NoDup fields : NoDup (map fst (initResults fields)).
Proof.
  unfold initResults, JMap.set, JMap.empty.
  assert (H : forall acc : Results, NoDup (map fst acc) ->
             NoDup (map fst (fold_left
                      (fun results f => Obj.define f (mkTally 0 Obj.empty) results)
                      fields acc))).
  { induction fields as [|f fields IH]; intros acc Hacc; cbn; [exact Hacc|].
    apply IH. now apply NoDup_define. }
  apply H. constructor.
Qed.

(** A call of [addValue] returns unless the value is truthy and has no
    string form; when it returns, the root is as [counted] says. *)
Lemma addValue_cases v root :
  (JS.truthy v && negb (JS.converts v) = false /\ addValue v root = Ok (counted v root))
  \/ (JS.truthy v = true /\ JS.converts v = false /\ addValue v root = Throw TypeError).
Proof.
  unfold addValue, counted, JS.toPropertyKey.
  destruct (JS.truthy v); cbn [negb andb]; [|now left].
  destruct (JS.converts v); cbn; [now left | now right].
Qed.

Lemma addValue_inv v root root' : addValue v root = Ok root' -> root' = counted v root.
Proof.
  destruct (addValue_cases v root) as [[_ ->] | (_ & _ & ->)]; [|discriminate].
  intros H. unfold Ok in H. now injection H as <-.
Qed.

Lemma addValue_ok v root :
  JS.truthy v && negb (JS.converts v) = false -> addValue v root = Ok (counted v root).
Proof.
  intros Hv. destruct (addValue_cases v root) as [[_ H] | (Ht & Hc & _)]; [exact H|].
  rewrite Ht, Hc in Hv. discriminate.
Qed.

Lemma addValueAt_inv value field (results results' : Results) :
  addValueAt value field results = Ok results' ->
  match JMap.get field results with
  | Some root => results' = JMap.set field (counted value root) results
  | None => results' = results
  end.
Proof.
  unfold addValueAt. destruct (JMap.get field results) as [root|].
  - destruct (addValue value root) as [root'|e] eqn:Hadd; cbn [bind]; [|discriminate].
    apply addValue_inv in Hadd as ->. intros H. unfold Ok in H. now injection H as <-.
  - destruct (JS.truthy value); [discriminate|]. intros H. unfold Ok in H.
    now injection H as <-.
Qed.

Lemma addValueAt_keys value field (results results' : Results) :
  addValueAt value field results = Ok results' ->
  map fst results' = map fst results.
Proof.
  intros H. apply addValueAt_inv in H. unfold JMap.get, JMap.set in H.
  destruct (Obj.own field results) eqn:Hown; subst results'; [|reflexivity].
  rewrite keys_define. now rewrite Hown.
Qed.

Lemma observe_keys t field v (results results' : Results) :
  observe t field v results = Ok results' -> map fst results' = map fst results.
Proof.
  unfold observe. destruct (this_filterData t) as [fd|]; cbn; [|discriminate].
  destruct (fd field v); [intros H; now injection H as <-|].
  destruct (this_translateValue t) as [tv|]; cbn; [|discriminate].
  apply addValueAt_keys.
Qed.

Lemma tallyField_keys t doc key (results results' : Results) :
  tallyField t doc key results = Ok results' -> map fst results' = map fst results.
Proof.
  unfold tallyField. destruct (this_skipKeys t) as [sk|]; cbn; [|discriminate].
  destruct (includes key sk); [intros H; now injection H as <-|].
  destruct (this_translateKey t) as [tk|]; cbn; [|discriminate].
  destruct (get doc (tk key)) as [| | | | |vs|] eqn:Hget; try apply observe_keys.
  intros H.
  apply (forEach_invariant (observe t (tk key))
           (fun r => map fst r = map fst results) vs) in H; auto.
  intros x s s' Hx Hs. apply observe_keys in Hx. congruence.
Qed.

Lemma aggregate_keys t dataPath fields docs (results results' : Results) :
  aggregate t dataPath fields docs results = Ok results' ->
  map fst results' = map fst results.
Proof.
  unfold aggregate. intros H.
  apply (forEach_invariant _ (fun r => map fst r = map fst results)) in H; auto.
  intros doc s s' Hdoc Hs.
  apply (forEach_invariant _ (fun r => map fst r = map fst results)) in Hdoc; auto.
  intros key s0 s0' Hkey Hs0. apply tallyField_keys in Hkey. congruence.
Qed.

End ResultsFacts.

Section RankedFacts.
Context {E : External}.

Lemma computePercentage_keys (results : Results) :
  map fst (computePercentage results) = map fst results.
Proof. unfold computePercentage. rewrite map_map. reflexivity. Qed.

Lemma computePercentage_own (results : Results) k :
  Obj.own k (computePercentage results) = option_map withPercentage (Obj.own k results).
Proof.
  induction results as [|[k0 t0] rs IH]; cbn; [reflexivity|].
  destruct (k0 =? k); [reflexivity | exact IH].
Qed.

Lemma sortResults_fold_wf (rs : Results) (acc : Obj.t Ranked) :
  NoDup (map fst acc) -> ~ In "__proto__" (map fst acc) ->
  let o := fold_left (fun sr kv => Obj.set (fst kv) (rank (snd kv)) sr) rs acc in
  NoDup (map fst o) /\ ~ In "__proto__" (map fst o).
Proof.
  revert acc. induction rs as [|[k0 t0] rs IH]; intros acc Hnd Hp; cbn; [tauto|].
  apply IH; [now apply NoDup_set | now apply proto_never_own].
Qed.

Lemma sortResults_fold_own (rs : Results) (acc : Obj.t Ranked) k :
  NoDup (map fst rs) -> k <> "__proto__" ->
  Obj.own k (fold_left (fun sr kv => Obj.set (fst kv) (rank (snd kv)) sr) rs acc)
  = match Obj.own k rs with
    | Some t => Some (rank t)
    | None => Obj.own k acc
    end.
Proof.
  intros Hnd Hk. revert acc.
  induction rs as [|[k0 t0] rs IH]; intros acc; cbn; [reflexivity|].
  inversion Hnd as [|? ? Hfresh Hnd']; subst. rewrite (IH Hnd').
  destruct (String.eqb_spec k0 k) as [->|Hne].
  - apply own_None in Hfresh. rewrite Hfresh. now apply own_set_same.
  - destruct (Obj.own k rs); [reflexivity|]. apply own_set_other. congruence.
Qed.

Lemma sortResults_wf (rs : Results) :
  NoDup (map fst (sortResults rs)) /\ ~ In "__proto__" (map fst (sortResults rs)).
Proof. apply sortResults_fold_wf; [constructor | intros []]. Qed.

Lemma sortResults_own (rs : Results) k :
  NoDup (map fst rs) -> k <> "__proto__" ->
  Obj.own k (sortResults rs) = option_map rank (Obj.own k rs).
Proof.
  intros Hnd Hk. unfold sortResults. rewrite sortResults_fold_own by assumption.
  now destruct (Obj.own k rs).
Qed.

(** The entries of [sortedResults]: one per tracked field other than
    [__proto__], holding the ranking of that field's tally. *)
Lemma ranked_entries (results : Results) k v :
  NoDup (map fst results) ->
  In (k, v) (Obj.entries (sortResults (computePercentage results))) ->
  k <> "__proto__" /\
  exists tally, JMap.get k results = Some tally /\ v = rank (withPercentage tally).
Proof.
  intros Hnd Hin. apply (proj1 (In_entries _ _)) in Hin.
  destruct (sortResults_wf (computePercentage results)) as [Hnd' Hproto].
  assert (Hk : k <> "__proto__").
  { intros ->. apply Hproto. apply (in_map fst) in Hin. exact Hin. }
  split; [exact Hk|].
  apply (In_own _ _ _ Hnd') in Hin.
  rewrite sortResults_own, computePercentage_own in Hin;
    [|now rewrite computePercentage_keys | exact Hk].
  unfold JMap.get. destruct (Obj.own k results) as [tally|]; [|discriminate].
  cbn in Hin. injection Hin as <-. now exists tally.
Qed.

Lemma ranked_keys (results : Results) k :
  In k (map fst (Obj.entries (sortResults (computePercentage results)))) ->
  In k (map fst results).
Proof.
  intros Hin. apply in_map_iff in Hin as ([k' v] & <- & Hin). cbn.
  apply (proj1 (In_entries _ _)) in Hin. rewrite <- computePercentage_keys.
  generalize dependent (computePercentage results). intros rs.
  unfold sortResults.
  assert (H : forall acc : Obj.t Ranked,
             In k' (map fst (fold_left
                      (fun sr kv => Obj.set (fst kv) (rank (snd kv)) sr) rs acc)) ->
             In k' (map fst acc) \/ In k' (map fst rs)).
  { induction rs as [|[k0 t0] rs IH]; intros acc; cbn; [tauto|].
    intros H. apply IH in H as [H|H]; [|tauto].
    unfold Obj.set in H. destruct (k0 =? "__proto__"); [tauto|].
    rewrite keys_define in H. destruct (Obj.own k0 acc); [tauto|].
    apply in_app_or in H as [H|[<-|[]]]; tauto. }
  intros Hin. apply (in_map fst) in Hin. cbn in Hin.
  apply H in Hin as [[]|Hin]. exact Hin.
Qed.

Lemma ruleFor_key k regole : In k (map key regole) -> ruleFor k regole <> None.
Proof.
  intros Hin Hnone. apply in_map_iff in Hin as (r & <- & Hin).
  apply (find_none _ _ Hnone) in Hin. now rewrite String.eqb_refl in Hin.
Qed.


(** The rule loop cannot throw on the rankings of tallies that were set up
    from the rules. *)
Lemma applyRules_total regole includeStats (results : Results) :
  (forall k, In k (map fst results) -> In k (map key regole)) ->
  exists out,
    applyRules regole includeStats (sortResults (computePercentage results)) = Ok out.
Proof.
  intros Hkeys. unfold applyRules.
  destruct (sortResults_wf (computePercentage results)) as [Hnd Hproto].
  destruct (applyRules_loop regole includeStats
              (Obj.entries (sortResults (computePercentage results)))
              (Obj.empty, Obj.empty)) as (out & Hrun & _).
  - now apply NoDup_entries.
  - intros Hin. apply Hproto. apply in_map_iff in Hin as (x & Hx & Hin).
    apply (proj1 (In_entries _ _)) in Hin. rewrite <- Hx. now apply in_map.
  - intros k Hin. apply ruleFor_key, Hkeys, ranked_keys, Hin.
  - now exists out.
Qed.

End RankedFacts.

(** ** The stages of [transform] *)

Section TransformFacts.
Context {E : External}.

Lemma resolveRules_this now docs rules dataPath (s s1 : State) r :
  resolveRules now docs rules dataPath s = (r, s1) ->
  this s1 = this s \/ exists rs, this s1 = set_rules rs (this s).
Proof.
  unfold resolveRules. destruct rules as [given|].
  { intros H. injection H as <- <-. now left. }
  unfold mbind, self. cbn.
  destruct (this_rules (this s)) as [configured|].
  { intros H. injection H as <- <-. now left. }
  unfold lift. destruct (_buildDefaultRules (this s) docs dataPath) as [auto|e].
  2:{ intros H. injection H as <- <-. now left. }
  destruct (this_keepAutogeneratedRules (this s)) as [[|]|]; cbn.
  all: intros H; injection H as <- <-; cbn; eauto.
Qed.


Lemma transform_ok_inv now docs rules dataPath includeStats outputStream cb
    (s : State) answer :
  fst (transform now docs rules dataPath includeStats outputStream cb s) = Ok answer ->
  exists regole s1 results out,
    resolveRules now docs rules dataPath s = (Ok regole, s1) /\
    aggregate (this s) dataPath (map key regole) docs (initResults (map key regole))
      = Ok results /\
    applyRules regole includeStats (sortResults (computePercentage results)) = Ok out /\
    answer = (if includeStats then SelectedWithStats (fst out) (snd out)
           else Selected (fst out)).
Proof.
  unfold transform, mbind, self, lift, Ok. cbv beta iota.
  destruct (checkStream (Some (pipe docs)) && _); [discriminate|].
  destruct (resolveRules now docs rules dataPath s) as [[regole|e] s1] eqn:Hres;
    [|discriminate].
  destruct (List.length regole =? 0)%nat; [discriminate|].
  destruct (isSome outputStream && negb (checkStream (option_map hasPipe outputStream)));
    [discriminate|].
  destruct (callbackRejected cb); [discriminate|].
  destruct (aggregate (this s1) dataPath (map key regole) docs
              (initResults (map key regole))) as [results|e] eqn:Hagg; [|discriminate].
  destruct (applyRules regole includeStats (sortResults (computePercentage results)))
    as [out|e] eqn:Happ; [|discriminate].
  intros Hret. exists regole, s1, results, out.
  split; [reflexivity|]. split.
  - apply resolveRules_this in Hres as [Hthis | [rs Hthis]];
      rewrite Hthis in Hagg; exact Hagg.
  - split; [exact Happ|].
    unfold effect, when, ret, throw in Hret.
    destruct outputStream as [[p [|]]|], cb as [[|]|]; cbn in Hret; unfold Ok in Hret;
      congruence.
Qed.

Lemma transform_ok_intro now docs rules dataPath includeStats outputStream cb
    (s s1 : State) regole results out :
  pipe docs = false \/ (rules <> None /\ this_rules (this s) <> None) ->
  resolveRules now docs rules dataPath s = (Ok regole, s1) ->
  regole <> [] ->
  option_map hasPipe outputStream <> Some false ->
  option_map hasWrite outputStream <> Some false ->
  cb <> Some false ->
  aggregate (this s) dataPath (map key regole) docs (initResults (map key regole))
    = Ok results ->
  applyRules regole includeStats (sortResults (computePercentage results)) = Ok out ->
  fst (transform now docs rules dataPath includeStats outputStream cb s)
  = Ok (if includeStats then SelectedWithStats (fst out) (snd out)
        else Selected (fst out)).
Proof.
  intros Hguard Hres Hne Hos Hwr Hcb Hagg Happ.
  unfold transform, mbind, self, lift, Ok. cbv beta iota.
  assert (Hg : checkStream (Some (pipe docs))
               && (negb (isSome rules) || negb (isSome (this_rules (this s))))
               = false).
  { destruct Hguard as [Hp | [Hr Ht]]; [cbn; now rewrite Hp|].
    destruct rules; [|congruence]. destruct (this_rules (this s)); [|congruence].
    cbn. apply andb_false_r. }
  unfold Ok in Hres, Hagg, Happ. rewrite Hg, Hres. cbv beta iota.
  destruct regole as [|r0 regole']; [congruence|]. cbn [List.length Nat.eqb].
  assert (Ho : isSome outputStream
               && negb (checkStream (option_map hasPipe outputStream)) = false)
    by (destruct outputStream as [[[|] w]|]; cbn in *; congruence).
  rewrite Ho. unfold callbackRejected. rewrite andb_false_r.
  assert (Hsame : aggregate (this s1) = aggregate (this s)).
  { apply resolveRules_this in Hres as [-> | [rs ->]]; reflexivity. }
  rewrite Hsame, Hagg, Happ.
  unfold effect, when, ret, throw.
  destruct outputStream as [[p [|]]|], cb as [[|]|]; cbn in *; try reflexivity;
    congruence.
Qed.

Lemma transform_aggregate_fail now docs rules dataPath includeStats outputStream cb
    (s s1 : State) regole e :
  pipe docs = false \/ (rules <> None /\ this_rules (this s) <> None) ->
  resolveRules now docs rules dataPath s = (Ok regole, s1) ->
  regole <> [] ->
  option_map hasPipe outputStream <> Some false ->
  aggregate (this s) dataPath (map key regole) docs (initResults (map key regole))
    = Throw e ->
  fst (transform now docs rules dataPath includeStats outputStream cb s) = Throw e.
Proof.
  intros Hguard Hres Hne Hos Hagg.
  unfold transform, mbind, self, lift, Ok. cbv beta iota.
  assert (Hg : checkStream (Some (pipe docs))
               && (negb (isSome rules) || negb (isSome (this_rules (this s))))
               = false).
  { destruct Hguard as [Hp | [Hr Ht]]; [cbn; now rewrite Hp|].
    destruct rules; [|congruence]. destruct (this_rules (this s)); [|congruence].
    cbn. apply andb_false_r. }
  unfold Ok in Hres. unfold Throw in Hagg. rewrite Hg, Hres. cbv beta iota.
  destruct regole as [|r0 regole']; [congruence|]. cbn [List.length Nat.eqb].
  assert (Ho : isSome outputStream
               && negb (checkStream (option_map hasPipe outputStream)) = false)
    by (destruct outputStream as [[[|] w]|]; cbn in *; congruence).
  rewrite Ho. unfold callbackRejected. rewrite andb_false_r.
  assert (Hsame : aggregate (this s1) = aggregate (this s)).
  { apply resolveRules_this in Hres as [-> | [rs ->]]; reflexivity. }
  rewrite Hsame, Hagg. reflexivity.
Qed.

(** Where a failing [transform] leaves the state: untouched, or where rule
    resolution left it, apart from what was announced before a failing
    write or callback. *)
Lemma transform_fail_state now docs rules dataPath includeStats outputStream cb
    (s : State) e :
  let T := transform now docs rules dataPath includeStats outputStream cb s in
  fst T = Throw e ->
  snd T = s \/
  exists r s1,
    resolveRules now docs rules dataPath s = (r, s1) /\
    this (snd T) = this s1 /\
    (option_map hasWrite outputStream <> Some false -> cb <> Some false -> snd T = s1).
Proof.
  unfold transform, mbind, self, lift, Ok, Throw. cbv beta iota zeta.
  destruct (checkStream (Some (pipe docs)) && _); [intros _; now left|].
  destruct (resolveRules now docs rules dataPath s) as [[regole|e'] s1] eqn:Hres.
  2:{ intros _. right. exists (inr e'), s1. cbn. auto. }
  intros H. right. exists (inl regole), s1. split; [reflexivity|].
  destruct (List.length regole =? 0)%nat; [cbn; auto|].
  destruct (isSome outputStream && negb (checkStream (option_map hasPipe outputStream)));
    [cbn; auto|].
  destruct (callbackRejected cb); [cbn; auto|].
  destruct (aggregate (this s1) dataPath (map key regole) docs
              (initResults (map key regole))) as [results|e1]; [|cbn; auto].
  destruct (applyRules regole includeStats (sortResults (computePercentage results)))
    as [out|e2]; [|cbn; auto].
  revert H. unfold effect, when, ret, throw.
  destruct outputStream as [[p [|]]|], cb as [[|]|]; cbn; intros H; try discriminate;
    split; congruence.
Qed.

End TransformFacts.

(** ** What [transform] returns for each ranked field *)

Section Selection.
Context {E : External}.

Lemma equals_true s o : equals s o = true <-> o = Some s.
Proof.
  destruct o as [x|]; cbn; [|split; discriminate].
  rewrite String.eqb_eq. split; congruence.
Qed.

Lemma rankedTallies_inv t regole dataPath docs sorted :
  rankedTallies t regole dataPath docs = Ok sorted ->
  exists results,
    aggregate t dataPath (map key regole) docs (initResults (map key regole))
      = Ok results /\
    sorted = sortResults (computePercentage results).
Proof.
  unfold rankedTallies, bind.
  destruct (aggregate t dataPath (map key regole) docs (initResults (map key regole)))
    as [results|e]; [|discriminate].
  intros H. injection H as <-. now exists results.
Qed.

Lemma aggregated_keys t regole dataPath docs (results : Results) :
  aggregate t dataPath (map key regole) docs (initResults (map key regole))
    = Ok results ->
  NoDup (map fst results) /\
  (forall k, In k (map fst results) <-> In k (map key regole)).
Proof.
  intros Hagg. apply aggregate_keys in Hagg. rewrite Hagg. split.
  - apply initResults_NoDup.
  - apply initResults_keys.
Qed.

(** Every entry of [sortedResults] ends as the rule found for its key
    prescribes, in [finalResults] and, when asked for, in [stats]. *)
Lemma transform_selection now docs rules dataPath includeStats outputStream cb
    (s s1 : State) answer regole sorted k v :
  fst (transform now docs rules dataPath includeStats outputStream cb s) = Ok answer ->
  resolveRules now docs rules dataPath s = (Ok regole, s1) ->
  rankedTallies (this s) regole dataPath docs = Ok sorted ->
  In (k, v) (Obj.entries sorted) ->
  exists r,
    ruleFor k regole = Some r /\
    Obj.own k (selectionsOf answer) = option_map (map fst) (ruleSelection r v) /\
    Obj.own k (statsOf answer) = (if includeStats then ruleSelection r v else None).
Proof.
  intros Hok Hres Hranked Hin.
  apply transform_ok_inv in Hok as (regole' & s1' & results & out & Hres' & Hagg & Happ & ->).
  rewrite Hres in Hres'. injection Hres' as <- <-.
  apply rankedTallies_inv in Hranked as (results' & Hagg' & ->).
  rewrite Hagg in Hagg'. injection Hagg' as <-.
  destruct (aggregated_keys _ _ _ _ _ Hagg) as [Hnd Hkeys].
  destruct (sortResults_wf (computePercentage results)) as [Hnd' Hproto].
  destruct (applyRules_loop regole includeStats
              (Obj.entries (sortResults (computePercentage results)))
              (Obj.empty, Obj.empty)) as (out' & Hrun & Hsel & _).
  - now apply NoDup_entries.
  - intros H. apply Hproto. apply in_map_iff in H as (x & Hx & H).
    apply (proj1 (In_entries _ _)) in H. rewrite <- Hx. now apply in_map.
  - intros k' H. apply ruleFor_key, Hkeys, ranked_keys, H.
  - unfold applyRules in Happ. rewrite Happ in Hrun. injection Hrun as <-.
    destruct (Hsel k v Hin) as (r & Hr & H1 & H2). exists r. split; [exact Hr|].
    destruct (ruleSelection r v) as [sel|]; destruct includeStats; cbn in *; auto.
Qed.

(** A "percentage" rule selects by [>=], whatever its operator; the cap
    then applies. *)
Lemma percentage_selection now docs rules dataPath includeStats outputStream cb
    (s s1 : State) answer regole sorted k v r :
  fst (transform now docs rules dataPath includeStats outputStream cb s) = Ok answer ->
  resolveRules now docs rules dataPath s = (Ok regole, s1) ->
  rankedTallies (this s) regole dataPath docs = Ok sorted ->
  In (k, v) (Obj.entries sorted) ->
  ruleFor k regole = Some r ->
  mode r = Some "percentage" ->
  Obj.own k (selectionsOf answer)
  = Some (map fst (capped (cap r) (satisfying Gte (threshold r) v))).
Proof.
  intros Hok Hres Hranked Hin Hr Hmode.
  destruct (transform_selection _ _ _ _ _ _ _ _ _ _ _ _ _ _ Hok Hres Hranked Hin)
    as (r' & Hr' & Hsel & _).
  rewrite Hr in Hr'. injection Hr' as <-. rewrite Hsel.
  unfold ruleSelection. rewrite Hmode. reflexivity.
Qed.

End Selection.

(** ** "top" rules *)

Section TopRules.
Context {E : External}.

(** C4 (amended). For a "top" rule, with [n] the threshold truncated toward
    zero: when [n >= 0] the selection is the first [n] ranked values and has
    length [min n distinctValueCount], hence is empty for a threshold
    strictly between -1 and 1; when [n < 0] the selection is the ranking
    without its last [-n] values. *)
Theorem top_selection now docs rules dataPath includeStats outputStream cb
    (s s1 : State) answer regole sorted k v r (q : Q) :
  fst (transform now docs rules dataPath includeStats outputStream cb s) = Ok answer ->
  resolveRules now docs rules dataPath s = (Ok regole, s1) ->
  rankedTallies (this s) regole dataPath docs = Ok sorted ->
  In (k, v) (Obj.entries sorted) ->
  ruleFor k regole = Some r ->
  mode r = Some "top" ->
  threshold r = Some q ->
  let n := JS.toIntegerOrInfinity q in
  exists sel,
    Obj.own k (selectionsOf answer) = Some sel /\
    ((0 <= n)%Z ->
       sel = map fst (firstn (Z.to_nat n) v) /\
       List.length sel = Nat.min (Z.to_nat n) (List.length v)) /\
    ((n < 0)%Z ->
       sel = map fst (firstn (List.length v - Z.to_nat (- n)) v) /\
       List.length sel = List.length v - Z.to_nat (- n)).
Proof.
  intros Hok Hres Hranked Hin Hr Hmode Hq n.
  destruct (transform_selection _ _ _ _ _ _ _ _ _ _ _ _ _ _ Hok Hres Hranked Hin)
    as (r' & Hr' & Hsel & _).
  rewrite Hr in Hr'. injection Hr' as <-.
  unfold ruleSelection in Hsel. rewrite Hmode, Hq in Hsel.
  change (equals "top" (Some "top")) with true in Hsel. cbn [option_map] in Hsel.
  eexists. split; [exact Hsel|]. split; intros Hn.
  - unfold JS.slice0. rewrite sliceEnd_nonneg by exact Hn. fold n.
    rewrite firstn_min. split; [reflexivity|].
    rewrite length_map, length_firstn. reflexivity.
  - unfold JS.slice0. rewrite sliceEnd_negative by exact Hn. fold n.
    split; [reflexivity|]. rewrite length_map, length_firstn. lia.
Qed.

End TopRules.

Lemma top_selection_witness :
  fst (transform 0 xxy (Some [topRule "a" 1]) None false None None fresh)
    = Ok (Selected [("a", ["x"])]) /\
  exists sel,
    Obj.own "a" (selectionsOf (Selected [("a", ["x"])])) = Some sel /\
    ((0 <= 1)%Z ->
       sel = map fst (firstn (Z.to_nat 1) xxyRanked) /\
       List.length sel = Nat.min (Z.to_nat 1) (List.length xxyRanked)) /\
    ((1 < 0)%Z ->
       sel = map fst (firstn (List.length xxyRanked - Z.to_nat (- (1))) xxyRanked) /\
       List.length sel = List.length xxyRanked - Z.to_nat (- (1))).
Proof.
  split; [reflexivity|].
  apply (@top_selection Lossless 0 xxy (Some [topRule "a" 1]) None false None None
           fresh fresh (Selected [("a", ["x"])]) [topRule "a" 1]
           [("a", xxyRanked)] "a" xxyRanked (topRule "a" 1) (inject_Z 1)).
  - reflexivity.
  - reflexivity.
  - reflexivity.
  - left. reflexivity.
  - reflexivity.
  - reflexivity.
  - reflexivity.
Defined.

(** The threshold -1 is not positive, and the selection is not empty:
    [slice(0, -1)] drops the last ranked value only. *)
Lemma top_negative_threshold_counterexample :
  (inject_Z (-1) <= 0)%Q /\
  threshold (topRule "a" (-1)) = Some (inject_Z (-1)) /\
  fst (transform 0 xxy (Some [topRule "a" (-1)]) None false None None fresh)
    = Ok (Selected [("a", ["x"])]) /\
  ["x"] <> @nil string.
Proof.
  split; [discriminate|]. split; [reflexivity|]. split; [reflexivity|]. discriminate.
Qed.

(** ** Rules of another mode *)

Section OtherModes.
Context {E : External}.


End OtherModes.

(** ** "percentage" rules *)

(** C1. On three documents where "x" holds 66.7% and "y" 33.3% of the field,
    the rule [{ mode: "percentage", operator: "lt", threshold: 50 }] returns
    "x": the values at or above the threshold, not those below it, which
    are "y" alone.  The same holds for "equal", "lte" and "gt". *)
Theorem percentage_lt_runs_into_gte :
  fst (transform 0 xxy (Some [percentageRule "a" (Some "lt") 50]) None false
                 None None fresh)
    = Ok (Selected [("a", ["x"])]) /\
  rankedTallies (instanceOf emptyConfig) [percentageRule "a" (Some "lt") 50] None xxy
    = Ok [("a", xxyRanked)] /\
  map fst (satisfying Lt (Some (inject_Z 50)) xxyRanked) = ["y"] /\
  map fst (satisfying Gte (Some (inject_Z 50)) xxyRanked) = ["x"] /\
  (forall op, In op ["equal"; "lt"; "lte"; "gt"; "gte"] ->
     fst (transform 0 xxy (Some [percentageRule "a" (Some op) 50]) None false
                    None None fresh)
     = Ok (Selected [("a", ["x"])])).
Proof.
  repeat split.
  intros op [<-|[<-|[<-|[<-|[<-|[]]]]]]; reflexivity.
Qed.

(** ** Failing calls *)

Section Failures.
Context {E : External}.







End Failures.



(** With an [outputStream] that has a [pipe] but no [write], the call gets
    past the check, announces "transformed" and then fails at the write;
    the same happens at the call of a [cb] that is not a function. *)
Example unwritable_sink_announces :
  let T := transform 0 xxy (Some [topRule "a" 1]) None false (Some pipeOnly) None fresh in
  let U := transform 0 xxy (Some [topRule "a" 1]) None false None (Some false) fresh in
  fst T = Throw TypeError /\ this (snd T) = this fresh /\
  emitted (trace (snd T)) = [Emit_transformed [("a", ["x"])] xxy Obj.empty] /\
  fst U = Throw TypeError /\ this (snd U) = this fresh /\
  emitted (trace (snd U)) = [Emit_transformed [("a", ["x"])] xxy Obj.empty].
Proof. repeat split. Qed.

(** ** One root under successive [addValue] calls *)

Section RootFacts.

Lemma existsb_In k (l : list string) : existsb (String.eqb k) l = true <-> In k l.
Proof.
  rewrite existsb_exists. split.
  - intros (x & Hx & Heq). apply String.eqb_eq in Heq. now subst.
  - intros H. exists k. split; [exact H | apply String.eqb_refl].
Qed.

Lemma own_existsb {A} (o : Obj.t A) k :
  existsb (String.eqb k) (map fst o) = isSome (Obj.own k o).
Proof.
  destruct (Obj.own k o) eqn:Hown; cbn.
  - apply existsb_In. apply own_In in Hown. now apply (in_map fst) in Hown.
  - apply own_None in Hown. destruct (existsb _ _) eqn:H; [|reflexivity].
    apply existsb_In in H. contradiction.
Qed.

Lemma counted_falsy v root : JS.truthy v = false -> counted v root = root.
Proof. intros H. unfold counted, increment. now rewrite H. Qed.

Lemma counted_total v root :
  total (counted v root) = total root + (if JS.truthy v then 1 else 0).
Proof. unfold counted, increment. destruct (JS.truthy v); cbn; lia. Qed.

Lemma inherits_proto : Obj.inherits "__proto__" = true.
Proof. reflexivity. Qed.

Lemma counted_keys v root :
  map fst (values (counted v root))
  = created (seenKeys [v]) (map fst (values root)).
Proof.
  unfold counted, increment, seenKeys. cbn [filter]. destruct (JS.truthy v); cbn; [|reflexivity].
  rewrite own_existsb. unfold Obj.has.
  destruct (Obj.own (JS.toString v) (values root)) eqn:Hown; cbn.
  - apply keys_replace.
  - destruct (Obj.inherits (JS.toString v)) eqn:Hinh; cbn; [reflexivity|].
    unfold Obj.set.
    destruct (String.eqb_spec (JS.toString v) "__proto__") as [Heq|_].
    + rewrite Heq in Hinh. discriminate.
    + rewrite keys_define, Hown. reflexivity.
Qed.

Lemma created_app seen seen' acc :
  created (seen ++ seen') acc = created seen' (created seen acc).
Proof. unfold created. apply fold_left_app. Qed.

Lemma tallyAll_keys vs root :
  map fst (values (tallyAll vs root)) = created (seenKeys vs) (map fst (values root)).
Proof.
  revert root. induction vs as [|v vs IH]; intros root; [reflexivity|].
  cbn [tallyAll fold_left]. fold (tallyAll vs (counted v root)).
  rewrite IH, counted_keys.
  change (seenKeys (v :: vs)) with (seenKeys ([v] ++ vs)).
  unfold seenKeys. rewrite filter_app, map_app. now rewrite created_app.
Qed.

Lemma tallyAll_total vs root :
  total (tallyAll vs root) = total root + List.length (filter JS.truthy vs).
Proof.
  revert root. induction vs as [|v vs IH]; intros root; cbn; [lia|].
  fold (tallyAll vs (counted v root)). rewrite IH, counted_total.
  destruct (JS.truthy v); cbn; lia.
Qed.

Lemma created_cons x seen acc :
  created (x :: seen) acc
  = created seen (if existsb (String.eqb x) acc || Obj.inherits x then acc
                  else acc ++ [x]).
Proof. reflexivity. Qed.

Lemma created_In seen acc k :
  In k (created seen acc) <-> In k acc \/ (In k seen /\ Obj.inherits k = false).
Proof.
  revert acc. induction seen as [|x seen IH]; intros acc; [cbn; tauto|].
  rewrite created_cons, IH. cbn [In].
  destruct (existsb (String.eqb x) acc) eqn:Hex; cbn [orb].
  - apply existsb_In in Hex. split; [tauto|].
    intros [?|[[<-|?] ?]]; tauto.
  - destruct (Obj.inherits x) eqn:Hinh.
    + split; [tauto|]. intros [?|[[<-|?] ?]]; [tauto | congruence | tauto].
    + rewrite in_app_iff. cbn [In]. split; [|tauto].
      intros [[?|[<-|[]]]|?]; tauto.
Qed.

Lemma created_extends seen acc : exists ext, created seen acc = acc ++ ext.
Proof.
  revert acc. induction seen as [|x seen IH]; intros acc.
  - exists []. cbn. now rewrite app_nil_r.
  - rewrite created_cons.
    destruct (existsb (String.eqb x) acc || Obj.inherits x); [apply IH|].
    destruct (IH (acc ++ [x])) as [ext ->]. exists (x :: ext).
    now rewrite <- app_assoc.
Qed.

Lemma created_NoDup seen acc : NoDup acc -> NoDup (created seen acc).
Proof.
  revert acc. induction seen as [|x seen IH]; intros acc Hnd; [exact Hnd|].
  rewrite created_cons.
  destruct (existsb (String.eqb x) acc) eqn:Hex; cbn [orb]; [now apply IH|].
  destruct (Obj.inherits x); [now apply IH|]. apply IH.
  apply (Permutation_NoDup (Permutation_cons_append acc x)). constructor; [|exact Hnd].
  intros Hin. apply existsb_In in Hin. congruence.
Qed.

Lemma created_own_keys seen k :
  In k (created seen []) -> Obj.inherits k = false.
Proof. intros H. apply created_In in H as [[]|[_ H]]. exact H. Qed.

(** Keys appear in the order of their first occurrence. *)
Lemma created_precedes seen a b :
  firstSeenBefore a b seen ->
  In a (created seen []) -> In b (created seen []) ->
  precedes a b (created seen []).
Proof.
  intros (Hne & l1 & l2 & -> & Hb1) Ha Hb.
  pose proof (created_own_keys _ _ Ha) as Hinh.
  change (l1 ++ a :: l2) with (l1 ++ [a] ++ l2) in *.
  rewrite !created_app in *.
  set (acc2 := created [a] (created l1 [])) in *.
  assert (Ha2 : In a acc2).
  { apply created_In. destruct (in_dec string_dec a (created l1 [])); [now left|].
    right. split; [now left | exact Hinh]. }
  assert (Hb2 : ~ In b acc2).
  { intros H. apply created_In in H as [H|[[H|[]] _]]; [|congruence].
    apply created_In in H as [[]|[H _]]. contradiction. }
  destruct (created_extends l2 acc2) as [ext Hext]. rewrite Hext in *.
  apply precedes_split; [exact Ha2|].
  apply in_app_or in Hb as [Hb|Hb]; [contradiction | exact Hb].
Qed.

End RootFacts.

(** ** The tallies [transform] builds *)

Section TallyFacts.
Context {E : External}.
Variables (t : Synthesizer) (sk : list string) (fd : FilterData)
          (tk : TranslateKey) (tv : TranslateValue).
Hypothesis Hsk : this_skipKeys t = Some sk.
Hypothesis Hfd : this_filterData t = Some fd.
Hypothesis Htk : this_translateKey t = Some tk.
Hypothesis Htv : this_translateValue t = Some tv.

Lemma bind_Ok {A} (m : result A) : bind m Ok = m.
Proof. now destruct m. Qed.

Lemma forEach_flat_map {X Y S} (f : Y -> S -> result S) (g : X -> list Y) xs s :
  forEach f (flat_map g xs) s = forEach (fun x => forEach f (g x)) xs s.
Proof.
  revert s. induction xs as [|x xs IH]; intros s; cbn; [reflexivity|].
  rewrite forEach_app. destruct (forEach f (g x) s); cbn; [apply IH | reflexivity].
Qed.

Lemma forEach_ext {X S} (f g : X -> S -> result S) xs s :
  (forall x s, f x s = g x s) -> forEach f xs s = forEach g xs s.
Proof.
  intros Hfg. revert s. induction xs as [|x xs IH]; intros s; cbn; [reflexivity|].
  rewrite Hfg. destruct (g x s); cbn; [apply IH | reflexivity].
Qed.

Lemma observe_call field v results :
  observe t field v results
  = if fd field v then Ok results else addValueAt (tv field v) field results.
Proof. unfold observe. rewrite Hfd, Htv. reflexivity. Qed.

Lemma observe_each field vs results :
  forEach (observe t field) vs results
  = forEach addValueCall (map (fun v => (field, tv field v))
                      (filter (fun v => negb (fd field v)) vs)) results.
Proof.
  revert results. induction vs as [|v vs IH]; intros results; cbn; [reflexivity|].
  rewrite observe_call. destruct (fd field v); cbn; [apply IH|].
  unfold addValueCall at 1. cbn.
  destruct (addValueAt (tv field v) field results); cbn; [apply IH | reflexivity].
Qed.

Lemma tallyField_observations doc key results :
  tallyField t doc key results
  = forEach addValueCall (observationsOf sk fd tk tv doc key) results.
Proof.
  unfold tallyField, observationsOf. rewrite Hsk, Htk. cbn.
  destruct (includes key sk); [reflexivity|].
  destruct (get doc (tk key)) as [| | | | |vs|]; try apply observe_each.
  all: rewrite observe_call.
  all: match goal with |- context [fd ?f ?v] => destruct (fd f v) end.
  all: try reflexivity.
  all: cbn; unfold addValueCall; cbn; now rewrite bind_Ok.
Qed.

Lemma aggregate_observations dataPath fields docs results :
  aggregate t dataPath fields docs results
  = forEach addValueCall (observations sk fd tk tv dataPath fields docs) results.
Proof.
  unfold aggregate, observations. rewrite forEach_flat_map.
  apply forEach_ext. intros doc s. rewrite forEach_flat_map.
  apply forEach_ext. intros key s'. apply tallyField_observations.
Qed.

Lemma calls_run calls (results results' : Results) f root :
  forEach addValueCall calls results = Ok results' ->
  JMap.get f results = Some root ->
  JMap.get f results'
  = Some (tallyAll (map snd (filter (fun c => fst c =? f) calls)) root).
Proof.
  revert results root. induction calls as [|[f0 v] calls IH]; intros results root.
  { cbn. intros H Hget. unfold Ok in H. injection H as <-. exact Hget. }
  cbn [forEach]. unfold addValueCall at 1. cbn [fst snd].
  intros Hrun Hget. cbn [filter fst].
  destruct (addValueAt v f0 results) as [results1|e] eqn:Hstep; cbn [bind] in Hrun;
    [|discriminate].
  apply addValueAt_inv in Hstep.
  destruct (String.eqb_spec f0 f) as [->|Hne].
  - rewrite Hget in Hstep. subst results1. cbn [map snd tallyAll fold_left].
    apply (IH _ _ Hrun). unfold JMap.get, JMap.set. apply own_define_same.
  - apply (IH _ _ Hrun).
    destruct (JMap.get f0 results) as [root0|]; subst results1; [|exact Hget].
    unfold JMap.get, JMap.set. rewrite own_define_other by congruence. exact Hget.
Qed.

Lemma initResults_fresh fields f root :
  JMap.get f (initResults fields) = Some root -> root = emptyTally.
Proof.
  unfold initResults, JMap.get, JMap.set, JMap.empty. intros Hget.
  apply own_In in Hget.
  assert (H : forall (fs : list string) (acc : Results),
             Forall (fun kv => snd kv = emptyTally) acc ->
             Forall (fun kv => snd kv = emptyTally)
                    (fold_left (fun results f => Obj.define f (mkTally 0 Obj.empty) results)
                               fs acc)).
  { induction fs as [|x xs IH]; intros acc Hacc; cbn; [exact Hacc|].
    apply IH. unfold Obj.define. destruct (Obj.own x acc).
    - clear -Hacc. induction acc as [|[k0 v0] acc IHacc]; cbn; [constructor|].
      inversion Hacc; subst. destruct (k0 =? x); constructor; auto.
    - apply Forall_app. split; [exact Hacc|]. now repeat constructor. }
  specialize (H fields [] (Forall_nil _)). rewrite Forall_forall in H.
  apply (H _ Hget).
Qed.

(** Every tally [transform] ends with is the outcome of the [addValue]
    calls made for its field, in document order, on a fresh root. *)
Lemma aggregate_tally dataPath fields docs (results : Results) f tally :
  aggregate t dataPath fields docs (initResults fields) = Ok results ->
  JMap.get f results = Some tally ->
  tally = tallyAll (observedFor sk fd tk tv f dataPath fields docs) emptyTally.
Proof.
  intros Hagg Hget. pose proof (aggregate_keys _ _ _ _ _ _ Hagg) as Hkeys.
  destruct (JMap.get f (initResults fields)) as [root0|] eqn:Hinit.
  - pose proof (initResults_fresh _ _ _ Hinit) as ->.
    rewrite aggregate_observations in Hagg.
    rewrite (calls_run _ _ _ _ _ Hagg Hinit) in Hget. now injection Hget as <-.
  - exfalso. unfold JMap.get in *. apply own_None in Hinit. apply Hinit.
    rewrite <- Hkeys. apply own_In in Hget. now apply (in_map fst) in Hget.
Qed.

End TallyFacts.

(** ** Rules of another mode *)

Section UnknownModes.
Context {E : External}.


End UnknownModes.


(** ** The ranking *)

Section Ranking.
Context {E : External}.

Lemma NoDup_fst_inj {A} (l : list (string * A)) a a' :
  NoDup (map fst l) -> In a l -> In a' l -> fst a = fst a' -> a = a'.
Proof.
  intros Hnd Ha Ha' Heq. destruct a as [k v], a' as [k' v']. cbn in Heq. subst k'.
  apply (In_own _ _ _ Hnd) in Ha. apply (In_own _ _ _ Hnd) in Ha'. congruence.
Qed.

Lemma precedes_keys {A} (l : list (string * A)) a b :
  NoDup (map fst l) -> In a l -> In b l ->
  precedes (fst a) (fst b) (map fst l) -> precedes a b l.
Proof.
  intros Hnd Ha Hb (l1 & l2 & l3 & Hsplit).
  apply map_eq_app in Hsplit as (m1 & r1 & -> & <- & Hr1).
  apply map_eq_cons in Hr1 as (a' & r2 & -> & Ha' & Hr2).
  apply map_eq_app in Hr2 as (m2 & r3 & -> & <- & Hr3).
  apply map_eq_cons in Hr3 as (b' & m3 & -> & Hb' & <-).
  assert (a = a') as <-.
  { apply (NoDup_fst_inj _ _ _ Hnd Ha); [|congruence].
    apply in_or_app. right. now left. }
  assert (b = b') as <-.
  { apply (NoDup_fst_inj _ _ _ Hnd Hb); [|congruence].
    apply in_or_app. right. right. apply in_or_app. right. now left. }
  now exists m1, m2, m3.
Qed.

Lemma precedes_or {A} (l : list A) a b :
  In a l -> In b l -> a <> b -> precedes a b l \/ precedes b a l.
Proof.
  intros Ha Hb Hne. apply in_split in Ha as (l1 & l2 & ->).
  apply in_app_or in Hb as [Hb | [Hb | Hb]]; [| congruence |].
  - right. apply in_split in Hb as (p & q & ->). exists p, q, l2.
    now rewrite <- app_assoc.
  - left. apply in_split in Hb as (p & q & ->). now exists l1, p, q.
Qed.

Lemma sorted_precedes {A} (R : A -> A -> Prop) (l : list A) a b :
  StronglySorted R l -> precedes a b l -> R a b.
Proof.
  intros Hs (l1 & l2 & l3 & ->). induction l1 as [|x l1 IH]; cbn in Hs.
  - apply StronglySorted_inv in Hs as [_ Hall]. rewrite Forall_forall in Hall.
    apply Hall. apply in_or_app. right. now left.
  - apply StronglySorted_inv in Hs as [Hs _]. auto.
Qed.

Lemma withPercentage_keys v :
  map fst (values (withPercentage v)) = map fst (values v).
Proof. unfold withPercentage. cbn. rewrite map_map. reflexivity. Qed.

Lemma tallied_keys_NoDup vs : NoDup (map fst (values (tallyAll vs emptyTally))).
Proof. rewrite tallyAll_keys. apply created_NoDup. constructor. Qed.

(** The order of [Object.entries] on the values of a tally, for two entries
    given by their keys. *)
Lemma tally_entries_order vs (a b : string * Entry) :
  let vals := values (withPercentage (tallyAll vs emptyTally)) in
  In a vals -> In b vals ->
  (JS.isArrayIndex (fst a) = false -> JS.isArrayIndex (fst b) = false ->
   firstSeenBefore (fst a) (fst b) (seenKeys vs) ->
   precedes a b (Obj.entries vals)) /\
  (JS.isArrayIndex (fst a) = true -> JS.isArrayIndex (fst b) = false ->
   precedes a b (Obj.entries vals)) /\
  (JS.isArrayIndex (fst a) = true -> JS.isArrayIndex (fst b) = true ->
   (Obj.indexOf a < Obj.indexOf b)%N ->
   precedes a b (Obj.entries vals)).
Proof.
  intros vals Ha Hb.
  assert (Hkeys : map fst vals = created (seenKeys vs) []).
  { unfold vals. now rewrite withPercentage_keys, tallyAll_keys. }
  assert (Hnd : NoDup (map fst vals)).
  { rewrite Hkeys. apply created_NoDup. constructor. }
  split; [|split].
  - intros Hia Hib Hseen.
    apply (precedes_filter_inv (fun p => negb (JS.isArrayIndex (fst p)))).
    rewrite entries_other_keys.
    apply precedes_filter; [now rewrite Hia | now rewrite Hib |].
    apply (precedes_keys _ _ _ Hnd Ha Hb). rewrite Hkeys.
    apply created_precedes; [exact Hseen | |]; rewrite <- Hkeys; now apply in_map.
  - intros Hia Hib. now apply entries_index_first.
  - intros Hia Hib Hlt.
    destruct (entries_index_ascending vals) as (front & Hfront & Hall & Hsorted).
    rewrite Hfront. apply precedes_app_r.
    assert (Hin : forall x, In x vals -> JS.isArrayIndex (fst x) = true -> In x front).
    { intros x Hx Hix. apply In_entries in Hx. rewrite Hfront in Hx.
      apply in_app_or in Hx as [Hx|Hx]; [exact Hx|].
      apply filter_In in Hx as [_ Hx]. rewrite Hix in Hx. discriminate. }
    destruct (precedes_or front a b) as [H|H]; auto.
    + intros ->. lia.
    + apply (sorted_precedes _ _ _ _ Hsorted) in H. lia.
Qed.

End Ranking.

Section RankingOrder.
Context {E : External}.

Lemma ranked_of own_field (results : Results) field ranking :
  own_field = Obj.own field (sortResults (computePercentage results)) ->
  NoDup (map fst results) ->
  own_field = Some ranking ->
  exists tally,
    JMap.get field results = Some tally /\ ranking = rank (withPercentage tally).
Proof.
  intros -> Hnd Hown.
  eapply ranked_entries; [exact Hnd|]. apply In_entries. now apply own_In.
Qed.

(** C6 (amended). The ranking of a field is sorted by descending count, and
    entries of equal count stand in the order of [Object.entries]: values
    that are array indices first, in ascending numeric order, then the
    other values in the order in which they were first encountered. *)
Theorem ranking_order (t : Synthesizer) sk fd tk tv regole dataPath docs
    sorted field ranking (a b : string * Entry) :
  this_skipKeys t = Some sk ->
  this_filterData t = Some fd ->
  this_translateKey t = Some tk ->
  this_translateValue t = Some tv ->
  rankedTallies t regole dataPath docs = Ok sorted ->
  Obj.own field sorted = Some ranking ->
  In a ranking -> In b ranking ->
  count (snd a) = count (snd b) ->
  let seen := seenKeys (observedFor sk fd tk tv field dataPath (map key regole) docs) in
  StronglySorted (fun x y => count (snd y) <= count (snd x)) ranking /\
  (JS.isArrayIndex (fst a) = false -> JS.isArrayIndex (fst b) = false ->
   firstSeenBefore (fst a) (fst b) seen -> precedes a b ranking) /\
  (JS.isArrayIndex (fst a) = true -> JS.isArrayIndex (fst b) = false ->
   precedes a b ranking) /\
  (JS.isArrayIndex (fst a) = true -> JS.isArrayIndex (fst b) = true ->
   (Obj.indexOf a < Obj.indexOf b)%N -> precedes a b ranking).
Proof.
  intros Hsk Hfd Htk Htv Hranked Hown Ha Hb Hcount seen.
  apply rankedTallies_inv in Hranked as (results & Hagg & ->).
  destruct (aggregated_keys _ _ _ _ _ Hagg) as [Hnd _].
  destruct (ranked_of _ results field ranking eq_refl Hnd Hown) as (tally & Hget & ->).
  pose proof (aggregate_tally t sk fd tk tv Hsk Hfd Htk Htv _ _ _ _ _ _ Hagg Hget)
    as Htally.
  split; [apply rank_descending|].
  apply (Permutation_in _ (rank_perm _)) in Ha.
  apply (Permutation_in _ (rank_perm _)) in Hb.
  rewrite Htally in Ha, Hb |- *.
  destruct (tally_entries_order _ a b Ha Hb) as (H1 & H2 & H3).
  repeat split; intros; apply rank_keeps_order; auto.
Qed.

End RankingOrder.

Lemma ranking_order_witness :
  let a := ("x", half) in
  let b := ("y", half) in
  StronglySorted (fun x y => count (snd y) <= count (snd x)) [a; b] /\
  (JS.isArrayIndex (fst a) = false -> JS.isArrayIndex (fst b) = false ->
   firstSeenBefore (fst a) (fst b)
     (seenKeys (@observedFor Lossless [] keepAll sameKey sameValue "a" None
                             (map key [topRule "a" 2]) xy)) ->
   precedes a b [a; b]) /\
  (JS.isArrayIndex (fst a) = true -> JS.isArrayIndex (fst b) = false ->
   precedes a b [a; b]) /\
  (JS.isArrayIndex (fst a) = true -> JS.isArrayIndex (fst b) = true ->
   (Obj.indexOf a < Obj.indexOf b)%N -> precedes a b [a; b]).
Proof.
  apply (@ranking_order Lossless (instanceOf emptyConfig) [] keepAll sameKey sameValue
           [topRule "a" 2] None xy [("a", [("x", half); ("y", half)])] "a"
           [("x", half); ("y", half)] ("x", half) ("y", half)).
  - reflexivity.
  - reflexivity.
  - reflexivity.
  - reflexivity.
  - reflexivity.
  - reflexivity.
  - left. reflexivity.
  - right. left. reflexivity.
  - reflexivity.
Defined.

(** "x" is met before "7" and both are counted once, yet "7" is ranked
    first: it is an array index. *)
Lemma ranking_index_counterexample :
  rankedTallies (instanceOf emptyConfig) [topRule "a" 2] None x7
    = Ok [("a", [("7", half); ("x", half)])] /\
  seenKeys (@observedFor Lossless [] keepAll sameKey sameValue "a" None
                         (map key [topRule "a" 2]) x7)
    = ["x"; "7"] /\
  fst (transform 0 x7 (Some [topRule "a" 2]) None false None None fresh)
    = Ok (Selected [("a", ["7"; "x"])]) /\
  ~ precedes ("x", half) ("7", half) [("7", half); ("x", half)].
Proof.
  split; [reflexivity|]. split; [reflexivity|]. split; [reflexivity|].
  intros (l1 & l2 & l3 & H).
  destruct l1 as [|p [|p' l1]]; cbn in H.
  - discriminate.
  - injection H as _ H. destruct l2; discriminate.
  - injection H as _ _ H. destruct l1; discriminate.
Qed.

(** ** Totals and counts *)

Section Sums.
Context {E : External}.

Lemma sumCounts_cons k e (o : Obj.t Entry) :
  sumCounts ((k, e) :: o) = count e + sumCounts o.
Proof. reflexivity. Qed.

Lemma sum_replace (o : Obj.t Entry) k e e' :
  Obj.own k o = Some e ->
  sumCounts (Obj.replace k e' o) + count e = sumCounts o + count e'.
Proof.
  induction o as [|[k0 e0] o IH]; [discriminate|].
  cbn [Obj.own Obj.replace].
  destruct (String.eqb_spec k0 k) as [->|Hne]; rewrite !sumCounts_cons.
  - intros H. injection H as ->. lia.
  - intros H. specialize (IH H). lia.
Qed.

Lemma sum_append (o : Obj.t Entry) k e :
  sumCounts (o ++ [(k, e)]) = sumCounts o + count e.
Proof.
  induction o as [|[k0 e0] o IH]; [cbn; lia|].
  cbn [app]. rewrite !sumCounts_cons, IH. lia.
Qed.

Lemma counted_unshadowed v root : unshadowed root -> unshadowed (counted v root).
Proof.
  intros Hroot k. rewrite counted_keys, created_In. intros [H|[_ H]]; auto.
Qed.

Lemma counted_sum v root :
  unshadowed root ->
  sumCounts (values (counted v root))
  + (if JS.truthy v && Obj.inherits (JS.toString v) then 1 else 0)
  = sumCounts (values root) + (if JS.truthy v then 1 else 0).
Proof.
  intros Hroot. unfold counted, increment. destruct (JS.truthy v); cbn [negb andb values]; [|lia].
  unfold Obj.has. destruct (Obj.own (JS.toString v) (values root)) as [e|] eqn:Hown.
  - assert (Hinh : Obj.inherits (JS.toString v) = false).
    { apply Hroot. apply own_In in Hown. now apply (in_map fst) in Hown. }
    rewrite Hinh. pose proof (sum_replace _ _ _ (mkEntry (count e + 1) (percentage e)) Hown).
    cbn [count] in *. lia.
  - destruct (Obj.inherits (JS.toString v)) eqn:Hinh; [lia|].
    unfold Obj.set, Obj.define.
    destruct (String.eqb_spec (JS.toString v) "__proto__") as [Heq|_].
    + rewrite Heq in Hinh. discriminate.
    + rewrite Hown, sum_append. cbn. lia.
Qed.

Lemma tallyAll_sum vs root :
  unshadowed root ->
  sumCounts (values (tallyAll vs root)) + List.length (shadowed vs)
  = sumCounts (values root) + List.length (filter JS.truthy vs).
Proof.
  revert root. induction vs as [|v vs IH]; intros root Hroot; [cbn; lia|].
  cbn [tallyAll fold_left]. fold (tallyAll vs (counted v root)).
  specialize (IH _ (counted_unshadowed v root Hroot)).
  pose proof (counted_sum v root Hroot) as Hstep.
  unfold shadowed in *. cbn [filter].
  destruct (JS.truthy v), (Obj.inherits (JS.toString v)); cbn [andb List.length] in *; lia.
Qed.

(** What the counts of a field add up to: its total, less the observations
    whose key is a member inherited from [Object.prototype]. *)
Lemma aggregate_sum (t : Synthesizer) sk fd tk tv dataPath fields docs
    (results : Results) f tally :
  this_skipKeys t = Some sk ->
  this_filterData t = Some fd ->
  this_translateKey t = Some tk ->
  this_translateValue t = Some tv ->
  aggregate t dataPath fields docs (initResults fields) = Ok results ->
  JMap.get f results = Some tally ->
  sumCounts (values tally)
  + List.length (shadowed (observedFor sk fd tk tv f dataPath fields docs))
  = total tally.
Proof.
  intros Hsk Hfd Htk Htv Hagg Hget.
  rewrite (aggregate_tally t sk fd tk tv Hsk Hfd Htk Htv _ _ _ _ _ _ Hagg Hget).
  rewrite tallyAll_total, tallyAll_sum; [reflexivity|]. intros k [].
Qed.

(** C8. On [[{ a: "constructor" }, { a: "x" }]] the field [a] ends with total
    2 while its values map holds the single entry "x" of count 1:
    [root.values["constructor"]] is truthy by inheritance, so the first
    observation is added to [total] and to no entry. *)
Theorem inherited_key_breaks_sum :
  aggregate (instanceOf emptyConfig) None ["a"] ctorDocs (initResults ["a"])
    = Ok [("a", mkTally 2 [("x", mkEntry 1 None)])] /\
  sumCounts [("x", mkEntry 1 None)] = 1 /\
  fst (transform 0 ctorDocs (Some [topRule "a" 3]) None true None None fresh)
    = Ok (SelectedWithStats [("a", ["x"])] [("a", [("x", half)])]).
Proof. repeat split. Qed.

End Sums.

(** ** One observation *)

Section Observation.
Context {E : External}.
Variables (t : Synthesizer) (fd : FilterData) (tv : TranslateValue).
Hypothesis Hfd : this_filterData t = Some fd.
Hypothesis Htv : this_translateValue t = Some tv.

(** An observation that [filterData] rejects changes no tally. *)
Lemma observe_filtered field v (results : Results) :
  fd field v = true -> observe t field v results = Ok results.
Proof. intros H. unfold observe. rewrite Hfd. cbn. now rewrite H. Qed.

Lemma define_unchanged {A} (o : Obj.t A) k v :
  Obj.own k o = Some v -> Obj.define k v o = o.
Proof.
  intros Hown. unfold Obj.define. rewrite Hown. revert Hown.
  induction o as [|[k0 v0] rs IH]; cbn; [discriminate|].
  destruct (String.eqb_spec k0 k) as [->|Hne].
  - intros H. now injection H as ->.
  - intros H. f_equal. auto.
Qed.

(** Nor does one whose translated value is falsy, whether or not the field
    has a tally. *)
Lemma observe_falsy field v (results : Results) :
  JS.truthy (tv field v) = false -> observe t field v results = Ok results.
Proof.
  intros H. unfold observe. rewrite Hfd, Htv. cbn.
  destruct (fd field v); [reflexivity|]. unfold addValueAt.
  destruct (JMap.get field results) as [root|] eqn:Hget; [|now rewrite H].
  rewrite addValue_ok by (now rewrite H). unfold Ok at 1. cbn [bind].
  rewrite (counted_falsy _ _ H). unfold JMap.set. now rewrite define_unchanged.
Qed.

(** A kept, truthy observation that has a string form goes to the tally of
    the translated field: the total grows by one; the value's entry is
    created or incremented, unless its key is an inherited member, in which
    case no entry is touched. *)
Lemma observe_kept field v (results : Results) root :
  fd field v = false ->
  JS.truthy (tv field v) = true ->
  JS.converts (tv field v) = true ->
  JMap.get field results = Some root ->
  unshadowed root ->
  let k := JS.toString (tv field v) in
  let root' := counted (tv field v) root in
  observe t field v results = Ok (JMap.set field root' results) /\
  total root' = total root + 1 /\
  (Obj.inherits k = false ->
   exists e, Obj.own k (values root') = Some e /\
     count e = match Obj.own k (values root) with
               | Some e0 => count e0 + 1
               | None => 1
               end) /\
  (Obj.inherits k = true -> values root' = values root).
Proof.
  intros Hkeep Htruthy Hconv Hget Hroot k root'.
  split.
  { unfold observe. rewrite Hfd, Htv. cbn. rewrite Hkeep. unfold addValueAt.
    rewrite Hget, addValue_ok by (now rewrite Hconv, andb_false_r). reflexivity. }
  split.
  { unfold root'. rewrite counted_total, Htruthy. reflexivity. }
  unfold root', counted, increment. rewrite Htruthy. cbn [negb values]. fold k. unfold Obj.has.
  destruct (Obj.own k (values root)) as [e0|] eqn:Hown.
  - split.
    + intros _. eexists. split; [apply own_replace_same; congruence | reflexivity].
    + intros Hinh. exfalso.
      apply own_In in Hown. apply (in_map fst) in Hown. apply Hroot in Hown.
      cbn in Hown. congruence.
  - split.
    + intros Hinh. rewrite Hinh.
      assert (Hk : k <> "__proto__") by (intros Heq; rewrite Heq in Hinh; discriminate).
      exists (mkEntry 1 None). split; [now apply own_set_same | reflexivity].
    + intros Hinh. now rewrite Hinh.
Qed.

End Observation.

(** C7. Two kept, truthy observations that are not tallied.  The value
    "constructor" raises the total of its field and enters no entry of the
    values map.  With a [translateKey] that renames the rule key "a" to
    "a_id", for which no tally was set up, the observation of
    [{ a_id: "x" }] makes [transform] throw a TypeError. *)
Theorem kept_observation_not_tallied :
  aggregate (instanceOf emptyConfig) None ["a"]
            (docsOf [doc1 "a" (JS.VStr "constructor")]) (initResults ["a"])
    = Ok [("a", mkTally 1 [])] /\
  fst (transform 0 (docsOf [doc1 "a_id" (JS.VStr "x")]) (Some [topRule "a" 1])
                 None false None None suffixing)
    = Throw TypeError.
Proof. split; reflexivity. Qed.

(** ** Which stage throws what *)

Section Errors.
Context {E : External}.

Lemma forEach_throws {X S} (P : error -> Prop) (f : X -> S -> result S) xs s e :
  (forall x s e, f x s = Throw e -> P e) -> forEach f xs s = Throw e -> P e.
Proof.
  intros Hf. revert s. induction xs as [|x xs IH]; intros s; cbn; [discriminate|].
  destruct (f x s) as [s'|e'] eqn:Hx; cbn.
  - apply IH.
  - intros H. unfold Throw in *. injection H as <-. eapply Hf, Hx.
Qed.

Lemma defined_throws {A} (o : option A) e : defined o = Throw e -> e = TypeError.
Proof. destruct o; cbn; [discriminate|]. unfold Throw. congruence. Qed.

Lemma addValueAt_throws v field (results : Results) e :
  addValueAt v field results = Throw e -> e = TypeError.
Proof.
  unfold addValueAt. destruct (JMap.get field results) as [root|].
  - destruct (addValue_cases v root) as [[_ ->] | (_ & _ & ->)];
      unfold Ok, Throw; cbn [bind]; [discriminate | congruence].
  - destruct (JS.truthy v); [|discriminate]. unfold Throw. congruence.
Qed.

Lemma observe_throws t field v (results : Results) e :
  observe t field v results = Throw e -> e = TypeError.
Proof.
  unfold observe. destruct (this_filterData t) as [fd|]; cbn;
    [|unfold Throw; congruence].
  destruct (fd field v); [discriminate|].
  destruct (this_translateValue t) as [tv|]; cbn; [|unfold Throw; congruence].
  apply addValueAt_throws.
Qed.

Lemma aggregate_throws t dataPath fields docs (results : Results) e :
  aggregate t dataPath fields docs results = Throw e -> e = TypeError.
Proof.
  unfold aggregate. apply (forEach_throws (fun e => e = TypeError)). intros doc s e1.
  apply (forEach_throws (fun e => e = TypeError)). intros key s' e2. unfold tallyField.
  destruct (this_skipKeys t) as [sk|]; cbn; [|unfold Throw; congruence].
  destruct (includes key sk); [discriminate|].
  destruct (this_translateKey t) as [tk|]; cbn; [|unfold Throw; congruence].
  destruct (get (project dataPath doc) (tk key)); try apply observe_throws.
  apply (forEach_throws (fun e => e = TypeError)). intros v s0 e3. apply observe_throws.
Qed.

Lemma applyRules_throws regole includeStats sortedResults e :
  applyRules regole includeStats sortedResults = Throw e -> e = TypeError.
Proof.
  unfold applyRules. apply (forEach_throws (fun e => e = TypeError)). intros [k v] out e1.
  unfold applyRule. cbn [fst snd].
  destruct (find (fun f => key f =? k) regole) as [r|]; cbn;
    [|unfold Throw; congruence].
  destruct (equals "top" (mode r)); [discriminate|].
  destruct (equals "percentage" (mode r)); [|discriminate].
  unfold applyCap. destruct (cap r) as [c|]; [|discriminate].
  destruct (Qeq_bool c 0); [discriminate|].
  match goal with |- context [defined ?o] => destruct o end; cbn;
    [|unfold Throw; congruence].
  destruct includeStats; [|discriminate].
  match goal with |- context [defined ?o] => destruct o end; cbn;
    [discriminate | unfold Throw; congruence].
Qed.

Lemma buildDefaultRules_throws t docs dataPath e :
  _buildDefaultRules t docs dataPath = Throw e -> e = TypeError.
Proof.
  unfold _buildDefaultRules, bind.
  match goal with |- context [forEach ?f (items docs) []] =>
    destruct (forEach f (items docs) []) as [rulesSet|e1] eqn:Hkeys
  end.
  - apply (forEach_throws (fun e => e = TypeError)). intros key rules e2.
    destruct (this_skipKeys t) as [sk|]; cbn; [|unfold Throw; congruence].
    destruct (includes key sk); [discriminate|].
    destruct (this_filterData t) as [fd|]; cbn; [|unfold Throw; congruence].
    destruct (fd key JS.VUndefined); discriminate.
  - intros H. unfold Throw in H. injection H as <-. revert Hkeys.
    apply (forEach_throws (fun e => e = TypeError)). intros doc s e2.
    destruct (project dataPath doc); cbn; unfold Throw, Ok; congruence.
Qed.

Lemma resolveRules_throws now docs rules dataPath (s : State) e :
  fst (resolveRules now docs rules dataPath s) = Throw e -> e = TypeError.
Proof.
  unfold resolveRules. destruct rules; [discriminate|].
  unfold mbind, self. cbn. destruct (this_rules (this s)); [discriminate|].
  unfold lift.
  destruct (_buildDefaultRules (this s) docs dataPath) as [auto|e1] eqn:Hb.
  - destruct (this_keepAutogeneratedRules (this s)) as [[|]|]; cbn; discriminate.
  - cbn. intros H. unfold Throw in H. injection H as <-.
    eapply buildDefaultRules_throws, Hb.
Qed.

(** "You Must Specify Rules when using a Stream" is raised exactly when the
    source is a stream and the call-level rules or the instance rules are
    missing. *)
Lemma stream_error_iff now docs rules dataPath includeStats outputStream cb
    (s : State) :
  fst (transform now docs rules dataPath includeStats outputStream cb s)
    = Throw StreamWithoutRules
  <-> pipe docs = true /\ (rules = None \/ this_rules (this s) = None).
Proof.
  split.
  2:{ intros [Hp Hr]. now rewrite stream_guard. }
  unfold transform, mbind, self, lift, Ok. cbv beta iota.
  destruct (checkStream (Some (pipe docs)) && _) eqn:Hguard.
  { intros _. apply andb_prop in Hguard as [Hp Hr]. split; [exact Hp|].
    destruct rules; [|now left]. destruct (this_rules (this s)); [discriminate | now right]. }
  pose proof (resolveRules_throws now docs rules dataPath s) as Hres.
  destruct (resolveRules now docs rules dataPath s) as [[regole|e] s1].
  2:{ cbn in *. intros H. unfold Throw in H. injection H as ->.
      specialize (Hres _ eq_refl). discriminate. }
  destruct (List.length regole =? 0)%nat; [discriminate|].
  destruct (isSome outputStream && negb (checkStream (option_map hasPipe outputStream)));
    [discriminate|].
  destruct (callbackRejected cb); [discriminate|].
  destruct (aggregate (this s1) dataPath (map key regole) docs
              (initResults (map key regole))) as [results|e] eqn:Hagg.
  2:{ cbn. intros H. unfold Throw in H. injection H as ->.
      apply aggregate_throws in Hagg. discriminate. }
  destruct (applyRules regole includeStats (sortResults (computePercentage results)))
    as [out|e] eqn:Happ.
  2:{ cbn. intros H. unfold Throw in H. injection H as ->.
      apply applyRules_throws in Happ. discriminate. }
  unfold effect, when, ret, throw.
  destruct outputStream as [[hp [|]]|], cb as [[|]|]; cbn; discriminate.
Qed.

End Errors.

(* ===================================================================== *)
(** * Further properties of the methods *)
(* ===================================================================== *)

(** ** How [transform] ends *)

Section Outcomes.
Context {E : External}.

(** The three ways rule resolution can go. *)
Lemma resolveRules_cases now docs rules dataPath (s s1 : State) r :
  resolveRules now docs rules dataPath s = (r, s1) ->
  (s1 = s /\
   (rules <> None \/ this_rules (this s) <> None
    \/ this_keepAutogeneratedRules (this s) <> Some true
    \/ exists e, r = Throw e))
  \/
  (rules = None /\ this_rules (this s) = None /\
   this_keepAutogeneratedRules (this s) = Some true /\
   exists derived,
     _buildDefaultRules (this s) docs dataPath = Ok derived /\
     r = Ok derived /\
     s1 = mkState (set_rules (Some derived) (this s))
                  (trace s ++ [Emit_model_update
                                 (fst (getModel now (set_rules (Some derived) (this s))))
                                 (snd (getModel now (set_rules (Some derived) (this s))))])).
Proof.
  unfold resolveRules. destruct rules as [given|].
  { intros H. injection H as <- <-. left. split; [reflexivity | left; discriminate]. }
  unfold mbind, self. cbn [fst snd]. cbv beta iota.
  destruct (this_rules (this s)) as [configured|] eqn:Hrules.
  { intros H. unfold Ok in H. cbv beta iota in H. rewrite Hrules in H.
    injection H as <- <-. left. split; [reflexivity | right; left; discriminate]. }
  unfold Ok. cbv beta iota. rewrite Hrules. unfold lift.
  destruct (_buildDefaultRules (this s) docs dataPath) as [derived|e] eqn:Hb.
  2:{ intros H. injection H as <- <-. left. split; [reflexivity|].
      right. right. right. now exists e. }
  destruct (this_keepAutogeneratedRules (this s)) as [[|]|] eqn:Hkeep; cbn.
  - intros H. injection H as <- <-. right. repeat split; auto.
    exists derived. repeat split; auto.
  - intros H. injection H as <- <-. left. destruct s. split; [reflexivity|].
    right. right. left. discriminate.
  - intros H. injection H as <- <-. left. destruct s. split; [reflexivity|].
    right. right. left. discriminate.
Qed.

Lemma applyRule_nostats regole kv (out out' : Selections * Stats) :
  applyRule regole false kv out = Ok out' -> snd out' = snd out.
Proof.
  unfold applyRule.
  destruct (find (fun f => key f =? fst kv) regole) as [r|]; cbn; [|discriminate].
  destruct (equals "top" (mode r)).
  { intros H. unfold Ok in H. injection H as <-. reflexivity. }
  destruct (equals "percentage" (mode r)).
  2:{ intros H. unfold Ok in H. now injection H as <-. }
  unfold applyCap. destruct (cap r) as [c|].
  2:{ intros H. unfold Ok in H. injection H as <-. apply fold_assign_nostats. }
  destruct (Qeq_bool c 0).
  { intros H. unfold Ok in H. injection H as <-. apply fold_assign_nostats. }
  match goal with |- context [defined ?o] => destruct o end; cbn; [|discriminate].
  intros H. unfold Ok in H. injection H as <-. apply fold_assign_nostats.
Qed.

Lemma applyRules_nostats regole sortedResults out :
  applyRules regole false sortedResults = Ok out -> snd out = Obj.empty.
Proof.
  unfold applyRules. intros H.
  apply (forEach_invariant _ (fun o : Selections * Stats => snd o = Obj.empty)) in H;
    auto.
  intros kv o o' Hstep Ho. apply applyRule_nostats in Hstep. congruence.
Qed.

(** The final state of a successful [transform]. *)
Lemma transform_ok_full now docs rules dataPath includeStats outputStream cb
    (s : State) answer :
  fst (transform now docs rules dataPath includeStats outputStream cb s) = Ok answer ->
  exists regole s1,
    resolveRules now docs rules dataPath s = (Ok regole, s1) /\
    regole <> [] /\
    snd (transform now docs rules dataPath includeStats outputStream cb s)
    = mkState (this s1)
        (trace s1
         ++ [Emit_transformed (selectionsOf answer) docs (statsOf answer)]
         ++ (if isSome outputStream
             then [SinkWrite (selectionsOf answer) docs (statsOf answer)] else [])
         ++ (if isSome cb
             then [Callback (selectionsOf answer) docs (statsOf answer)] else [])).
Proof.
  unfold transform, mbind, self, lift, Ok. cbv beta iota.
  destruct (checkStream (Some (pipe docs)) && _); [discriminate|].
  destruct (resolveRules now docs rules dataPath s) as [[regole|e] s1] eqn:Hres;
    [|discriminate].
  destruct regole as [|r0 regole']; [discriminate|]. cbn [List.length Nat.eqb].
  destruct (isSome outputStream && negb (checkStream (option_map hasPipe outputStream)));
    [discriminate|].
  destruct (callbackRejected cb); [discriminate|].
  destruct (aggregate (this s1) dataPath (map key (r0 :: regole')) docs
              (initResults (map key (r0 :: regole')))) as [results|e] eqn:Hagg;
    [|discriminate].
  destruct (applyRules (r0 :: regole') includeStats
              (sortResults (computePercentage results))) as [out|e] eqn:Happ;
    [|discriminate].
  intros Hret. exists (r0 :: regole'), s1. split; [reflexivity|]. split; [discriminate|].
  assert (Hstats : includeStats = false -> snd out = Obj.empty).
  { intros ->. eapply applyRules_nostats. exact Happ. }
  revert Hret. unfold effect, when, ret, throw.
  destruct includeStats, outputStream as [[hp [|]]|], cb as [[|]|];
    cbn [fst snd this trace isSome hasWrite];
    intros Hret; try discriminate; unfold Ok in Hret; injection Hret as <-;
    cbn [selectionsOf statsOf]; rewrite <- ?Hstats by reflexivity;
    rewrite <- ?app_assoc; reflexivity.
Qed.

End Outcomes.

Section OutcomeTheorems.
Context {E : External}.

Lemma transform_this_cases now docs rules dataPath includeStats outputStream cb
    (s : State) :
  let T := transform now docs rules dataPath includeStats outputStream cb s in
  this (snd T) = this s \/
  (rules = None /\ this_rules (this s) = None /\
   this_keepAutogeneratedRules (this s) = Some true /\
   exists derived,
     _buildDefaultRules (this s) docs dataPath = Ok derived /\
     this (snd T) = set_rules (Some derived) (this s)).
Proof.
  intros T. subst T.
  destruct (fst (transform now docs rules dataPath includeStats outputStream cb s))
    as [answer|e] eqn:Hrun.
  - destruct (transform_ok_full _ _ _ _ _ _ _ _ _ Hrun) as (regole & s1 & Hres & _ & ->).
    cbn [this].
    apply resolveRules_cases in Hres
      as [[-> _] | (Hr & Ht & Hk & derived & Hb & _ & ->)]; [now left|].
    right. repeat split; auto. now exists derived.
  - pose proof (transform_fail_state _ _ _ _ _ _ _ _ _ Hrun) as Hstate.
    cbv zeta in Hstate. destruct Hstate as [-> | (r & s1 & Hres & -> & _)]; [now left|].
    apply resolveRules_cases in Hres
      as [[-> _] | (Hr & Ht & Hk & derived & Hb & _ & ->)]; [now left|].
    right. repeat split; auto. now exists derived.
Qed.

(** X1. Whatever its outcome, [transform] changes no instance field other
    than [rules], and changes [rules] only by storing the rules it derived,
    which happens only when neither the call nor the instance had rules and
    [keepAutogeneratedRules] is set. *)
Theorem transform_touches_rules_only now docs rules dataPath includeStats
    outputStream cb (s : State) :
  let t := this s in
  let t' := this (snd (transform now docs rules dataPath includeStats outputStream cb s)) in
  this_name t' = this_name t /\
  this_skipKeys t' = this_skipKeys t /\
  this_filterData t' = this_filterData t /\
  this_translateKey t' = this_translateKey t /\
  this_translateValue t' = this_translateValue t /\
  this_defaultRuleMode t' = this_defaultRuleMode t /\
  this_defaultRuleValue t' = this_defaultRuleValue t /\
  this_defaultRuleOperator t' = this_defaultRuleOperator t /\
  this_keepAutogeneratedRules t' = this_keepAutogeneratedRules t /\
  this_verbose t' = this_verbose t /\
  this_model t' = this_model t /\
  (this_rules t' = this_rules t \/
   (rules = None /\ this_rules t = None /\
    this_keepAutogeneratedRules t = Some true /\
    exists derived,
      _buildDefaultRules t docs dataPath = Ok derived /\ this_rules t' = Some derived)).
Proof.
  intros t t'. subst t t'.
  pose proof (transform_this_cases now docs rules dataPath includeStats outputStream cb s)
    as Hcases.
  cbv zeta in Hcases.
  destruct Hcases as [-> | (Hr & Ht & Hk & derived & Hb & ->)].
  - repeat split; auto.
  - repeat split; auto. right. repeat split; auto. exists derived. now split.
Qed.

(** X2. [transform] raises nothing but its three messages ("You Must Specify
    Rules when using a Stream", "Not able to transform without rules",
    "outputStream must be a writable stream") and TypeErrors; in particular
    "Callback must be a function" is never raised, whatever [cb] is. *)
Theorem transform_raises_only now docs rules dataPath includeStats outputStream cb
    (s : State) (e : error) :
  fst (transform now docs rules dataPath includeStats outputStream cb s) = Throw e ->
  e = StreamWithoutRules \/ e = NoRules \/ e = BadOutputStream \/ e = TypeError.
Proof.
  unfold transform, mbind, self, lift, Ok, Throw. cbv beta iota.
  destruct (checkStream (Some (pipe docs)) && _).
  { cbn. intros H. injection H as <-. auto. }
  pose proof (resolveRules_throws now docs rules dataPath s) as Hres.
  destruct (resolveRules now docs rules dataPath s) as [[regole|e1] s1].
  2:{ cbn in *. intros H. injection H as <-. right. right. right. now apply Hres. }
  destruct (List.length regole =? 0)%nat.
  { cbn. intros H. injection H as <-. auto. }
  destruct (isSome outputStream && negb (checkStream (option_map hasPipe outputStream))).
  { cbn. intros H. injection H as <-. auto. }
  unfold callbackRejected. rewrite andb_false_r.
  destruct (aggregate (this s1) dataPath (map key regole) docs
              (initResults (map key regole))) as [results|e2] eqn:Hagg.
  2:{ cbn. intros H. injection H as <-. apply aggregate_throws in Hagg. auto. }
  destruct (applyRules regole includeStats (sortResults (computePercentage results)))
    as [out|e3] eqn:Happ.
  2:{ cbn. intros H. injection H as <-. apply applyRules_throws in Happ. auto. }
  unfold effect, when, ret, throw.
  destruct outputStream as [[hp [|]]|], cb as [[|]|]; cbn; intros H; try discriminate;
    injection H as <-; auto.
Qed.

(** X3. "Not able to transform without rules" is raised exactly when the
    stream guard passes and the rules resolve (from the call, the instance
    or the derivation) to the empty list. *)
Theorem no_rules_error_iff now docs rules dataPath includeStats outputStream cb
    (s : State) :
  fst (transform now docs rules dataPath includeStats outputStream cb s) = Throw NoRules
  <-> ~ (pipe docs = true /\ (rules = None \/ this_rules (this s) = None)) /\
      fst (resolveRules now docs rules dataPath s) = Ok [].
Proof.
  split.
  - intros Hrun. split.
    + intros Hguard. apply stream_error_iff with (now := now) (dataPath := dataPath)
        (includeStats := includeStats) (outputStream := outputStream) (cb := cb) in Hguard.
      rewrite Hguard in Hrun. discriminate.
    + revert Hrun. unfold transform, mbind, self, lift, Ok, Throw. cbv beta iota.
      destruct (checkStream (Some (pipe docs)) && _); [discriminate|].
      pose proof (resolveRules_throws now docs rules dataPath s) as Hres.
      destruct (resolveRules now docs rules dataPath s) as [[regole|e1] s1].
      2:{ cbn in *. intros H. injection H as ->. specialize (Hres _ eq_refl).
          discriminate. }
      destruct regole as [|r0 regole']; [reflexivity|]. cbn [List.length Nat.eqb].
      destruct (isSome outputStream && negb (checkStream (option_map hasPipe outputStream)));
    [discriminate|].
      unfold callbackRejected. rewrite andb_false_r.
      destruct (aggregate (this s1) dataPath (map key (r0 :: regole')) docs
                  (initResults (map key (r0 :: regole')))) as [results|e2] eqn:Hagg.
      2:{ cbn. intros H. injection H as ->. apply aggregate_throws in Hagg.
          discriminate. }
      destruct (applyRules (r0 :: regole') includeStats
                  (sortResults (computePercentage results))) as [out|e3] eqn:Happ.
      2:{ cbn. intros H. injection H as ->. apply applyRules_throws in Happ.
          discriminate. }
      unfold effect, when, ret, throw.
      destruct outputStream as [[hp [|]]|], cb as [[|]|]; cbn; discriminate.
  - intros [Hguard Hres]. unfold transform, mbind, self, lift, Ok. cbv beta iota.
    assert (Hg : checkStream (Some (pipe docs))
                 && (negb (isSome rules) || negb (isSome (this_rules (this s))))
                 = false).
    { cbn [checkStream]. destruct (pipe docs); [|reflexivity].
      destruct rules; [|exfalso; apply Hguard; auto].
      destruct (this_rules (this s)); [reflexivity | exfalso; apply Hguard; auto]. }
    rewrite Hg.
    destruct (resolveRules now docs rules dataPath s) as [r s1]. cbn in Hres.
    subst r. reflexivity.
Qed.

(** X4. "outputStream must be a writable stream" is raised exactly when the
    stream guard passes, the rules resolve to a non-empty list and an
    [outputStream] was given whose [pipe] is not a function. *)
Theorem bad_output_stream_iff now docs rules dataPath includeStats outputStream cb
    (s : State) :
  fst (transform now docs rules dataPath includeStats outputStream cb s)
    = Throw BadOutputStream
  <-> ~ (pipe docs = true /\ (rules = None \/ this_rules (this s) = None)) /\
      (exists r regole, fst (resolveRules now docs rules dataPath s) = Ok (r :: regole)) /\
      option_map hasPipe outputStream = Some false.
Proof.
  split.
  - intros Hrun. split.
    + intros Hguard. apply stream_error_iff with (now := now) (dataPath := dataPath)
        (includeStats := includeStats) (outputStream := outputStream) (cb := cb) in Hguard.
      rewrite Hguard in Hrun. discriminate.
    + revert Hrun. unfold transform, mbind, self, lift, Ok, Throw. cbv beta iota.
      destruct (checkStream (Some (pipe docs)) && _); [discriminate|].
      pose proof (resolveRules_throws now docs rules dataPath s) as Hres.
      destruct (resolveRules now docs rules dataPath s) as [[regole|e1] s1].
      2:{ cbn in *. intros H. injection H as ->. specialize (Hres _ eq_refl).
          discriminate. }
      destruct regole as [|r0 regole']; [discriminate|]. cbn [List.length Nat.eqb].
      destruct outputStream as [[[|] hw]|];
        cbn [isSome checkStream negb andb option_map hasPipe].
      2:{ intros _. split; [now exists r0, regole' | reflexivity]. }
      all: unfold callbackRejected; rewrite andb_false_r.
      all: destruct (aggregate (this s1) dataPath (map key (r0 :: regole')) docs
                  (initResults (map key (r0 :: regole')))) as [results|e2] eqn:Hagg;
        [|cbn; intros H; injection H as ->; apply aggregate_throws in Hagg;
          discriminate].
      all: destruct (applyRules (r0 :: regole') includeStats
                  (sortResults (computePercentage results))) as [out|e3] eqn:Happ;
        [|cbn; intros H; injection H as ->; apply applyRules_throws in Happ;
          discriminate].
      all: unfold effect, when, ret, throw.
      all: try destruct hw; destruct cb as [[|]|]; cbn; discriminate.
  - intros (Hguard & (r0 & regole' & Hres) & Hos).
    unfold transform, mbind, self, lift, Ok. cbv beta iota.
    assert (Hg : checkStream (Some (pipe docs))
                 && (negb (isSome rules) || negb (isSome (this_rules (this s))))
                 = false).
    { cbn [checkStream]. destruct (pipe docs); [|reflexivity].
      destruct rules; [|exfalso; apply Hguard; auto].
      destruct (this_rules (this s)); [reflexivity | exfalso; apply Hguard; auto]. }
    rewrite Hg.
    destruct (resolveRules now docs rules dataPath s) as [r s1]. cbn in Hres.
    subst r. destruct outputStream as [[[|] hw]|]; cbn in Hos; try discriminate.
    reflexivity.
Qed.

End OutcomeTheorems.

Lemma transform_raises_only_witness :
  NoRules = StreamWithoutRules \/ NoRules = NoRules \/ NoRules = BadOutputStream
  \/ NoRules = TypeError.
Proof.
  apply (@transform_raises_only Lossless 0 (docsOf []) None None false None None fresh).
  reflexivity.
Defined.

(** ** What a successful [transform] returns and announces *)

Section Returned.
Context {E : External}.

(** The two objects the rule loop builds, key by key. *)
Lemma applyRules_spec t regole dataPath docs includeStats (results : Results) out :
  aggregate t dataPath (map key regole) docs (initResults (map key regole)) = Ok results ->
  applyRules regole includeStats (sortResults (computePercentage results)) = Ok out ->
  let es := Obj.entries (sortResults (computePercentage results)) in
  (forall k v, In (k, v) es ->
     exists r, ruleFor k regole = Some r /\
       Obj.own k (fst out) = option_map (map fst) (ruleSelection r v) /\
       Obj.own k (snd out) = (if includeStats then ruleSelection r v else None)) /\
  (forall k, ~ In k (map fst es) ->
     Obj.own k (fst out) = None /\ Obj.own k (snd out) = None).
Proof.
  intros Hagg Happ es.
  destruct (aggregated_keys _ _ _ _ _ Hagg) as [Hnd Hkeys].
  destruct (sortResults_wf (computePercentage results)) as [Hnd' Hproto].
  destruct (applyRules_loop regole includeStats es (Obj.empty, Obj.empty))
    as (out' & Hrun & Hsel & Hrest).
  - now apply NoDup_entries.
  - intros H. apply Hproto. apply in_map_iff in H as (x & Hx & H).
    apply (proj1 (In_entries _ _)) in H. rewrite <- Hx. now apply in_map.
  - intros k' H. apply ruleFor_key, Hkeys, ranked_keys, H.
  - unfold applyRules in Happ. fold es in Happ. rewrite Happ in Hrun.
    unfold Ok in Hrun. injection Hrun as <-. split.
    + intros k v Hin. destruct (Hsel k v Hin) as (r & Hr & H1 & H2).
      exists r. split; [exact Hr|].
      destruct (ruleSelection r v), includeStats; cbn in *; auto.
    + intros k Hk. apply (Hrest k Hk).
Qed.

Lemma ranked_entry_of t regole dataPath docs (results : Results) k tally :
  aggregate t dataPath (map key regole) docs (initResults (map key regole)) = Ok results ->
  JMap.get k results = Some tally ->
  k <> "__proto__" ->
  In (k, rank (withPercentage tally))
     (Obj.entries (sortResults (computePercentage results))).
Proof.
  intros Hagg Hget Hk. destruct (aggregated_keys _ _ _ _ _ Hagg) as [Hnd _].
  apply In_entries. apply own_In. unfold JMap.get in Hget.
  rewrite sortResults_own, computePercentage_own, Hget;
    [reflexivity | now rewrite computePercentage_keys | exact Hk].
Qed.

(** X5. With [includeStats], [stats] mirrors [finalResults]: it has the same
    keys, and under each key the selected values are the first components
    of the pairs [stats] keeps. *)
Theorem stats_mirror_selections now docs rules dataPath outputStream cb
    (s : State) answer (k : string) :
  fst (transform now docs rules dataPath true outputStream cb s) = Ok answer ->
  Obj.own k (selectionsOf answer) = option_map (map fst) (Obj.own k (statsOf answer)).
Proof.
  intros Hok.
  apply transform_ok_inv in Hok as (regole & s1 & results & out & _ & Hagg & Happ & ->).
  cbn [selectionsOf statsOf].
  destruct (applyRules_spec _ _ _ _ _ _ _ Hagg Happ) as [Hin Hout].
  destruct (in_dec string_dec k
              (map fst (Obj.entries (sortResults (computePercentage results)))))
    as [Hk|Hk].
  - apply in_map_iff in Hk as ([k' v] & Heq & Hk). cbn in Heq. subst k'.
    destruct (Hin k v Hk) as (r & _ & -> & ->). reflexivity.
  - destruct (Hout k Hk) as [-> ->]. reflexivity.
Qed.

(** X6. Asking for the statistics changes nothing in what is selected: the
    selections of a run with [includeStats] and of the same run without
    agree under every key. *)
Theorem includeStats_keeps_selections now docs rules dataPath outputStream cb
    (s : State) withStats without (k : string) :
  fst (transform now docs rules dataPath true outputStream cb s) = Ok withStats ->
  fst (transform now docs rules dataPath false outputStream cb s) = Ok without ->
  Obj.own k (selectionsOf withStats) = Obj.own k (selectionsOf without).
Proof.
  intros H1 H2.
  apply transform_ok_inv in H1 as (regole & s1 & results & out & Hres & Hagg & Happ & ->).
  apply transform_ok_inv in H2
    as (regole' & s1' & results' & out' & Hres' & Hagg' & Happ' & ->).
  rewrite Hres in Hres'. unfold Ok in Hres'. injection Hres' as <- <-.
  rewrite Hagg in Hagg'. unfold Ok in Hagg'. injection Hagg' as <-.
  cbn [selectionsOf].
  destruct (applyRules_spec _ _ _ _ _ _ _ Hagg Happ) as [Hin Hout].
  destruct (applyRules_spec _ _ _ _ _ _ _ Hagg Happ') as [Hin' Hout'].
  destruct (in_dec string_dec k
              (map fst (Obj.entries (sortResults (computePercentage results)))))
    as [Hk|Hk].
  - apply in_map_iff in Hk as ([k' v] & Heq & Hk). cbn in Heq. subst k'.
    destruct (Hin k v Hk) as (r & Hr & -> & _).
    destruct (Hin' k v Hk) as (r' & Hr' & -> & _). congruence.
  - destruct (Hout k Hk) as [-> _]. destruct (Hout' k Hk) as [-> _]. reflexivity.
Qed.

(** X7. The keys of the returned selections are exactly the keys, other than
    [__proto__], whose rule (the first one with that key) has mode "top" or
    "percentage"; such a key is present even when nothing is selected. *)
Theorem selected_keys now docs rules dataPath includeStats outputStream cb
    (s s1 : State) answer regole (k : string) :
  fst (transform now docs rules dataPath includeStats outputStream cb s) = Ok answer ->
  resolveRules now docs rules dataPath s = (Ok regole, s1) ->
  (Obj.own k (selectionsOf answer) <> None
   <-> k <> "__proto__" /\
       exists r, ruleFor k regole = Some r /\
                 (mode r = Some "top" \/ mode r = Some "percentage")).
Proof.
  intros Hok Hres.
  apply transform_ok_inv in Hok
    as (regole' & s1' & results & out & Hres' & Hagg & Happ & Hanswer).
  rewrite Hres in Hres'. unfold Ok in Hres'. injection Hres' as <- <-.
  assert (Hsel : selectionsOf answer = fst out) by (subst answer; now destruct includeStats).
  rewrite Hsel. clear Hsel Hanswer.
  destruct (applyRules_spec _ _ _ _ _ _ _ Hagg Happ) as [Hin Hout].
  destruct (aggregated_keys _ _ _ _ _ Hagg) as [Hnd Hkeys].
  split.
  - intros Hown.
    destruct (in_dec string_dec k
                (map fst (Obj.entries (sortResults (computePercentage results)))))
      as [Hk|Hk]; [|destruct (Hout k Hk); congruence].
    apply in_map_iff in Hk as ([k' v] & Heq & Hk). cbn in Heq. subst k'.
    destruct (ranked_entries _ _ _ Hnd Hk) as [Hproto _]. split; [exact Hproto|].
    destruct (Hin k v Hk) as (r & Hr & H1 & _). exists r. split; [exact Hr|].
    rewrite H1 in Hown. unfold ruleSelection in Hown.
    destruct (equals "top" (mode r)) eqn:Htop; [left; now apply equals_true|].
    destruct (equals "percentage" (mode r)) eqn:Hpct; [right; now apply equals_true|].
    now cbn in Hown.
  - intros (Hproto & r & Hr & Hmode).
    assert (Hkey : In k (map fst results)).
    { apply Hkeys. unfold ruleFor in Hr. apply find_some in Hr as [Hr Heq].
      apply String.eqb_eq in Heq. subst k. now apply in_map. }
    destruct (JMap.get k results) as [tally|] eqn:Hget;
      [|unfold JMap.get in Hget; apply own_None in Hget; contradiction].
    pose proof (ranked_entry_of _ _ _ _ _ _ _ Hagg Hget Hproto) as Hentry.
    destruct (Hin _ _ Hentry) as (r' & Hr' & -> & _).
    rewrite Hr in Hr'. injection Hr' as <-.
    unfold ruleSelection. destruct Hmode as [-> | ->]; cbn; discriminate.
Qed.

End Returned.

Lemma selected_keys_witness :
  Obj.own "a" (selectionsOf (Selected [("a", ["x"])])) <> None
  <-> "a" <> "__proto__" /\
      exists r, ruleFor "a" [topRule "a" 1] = Some r /\
                (mode r = Some "top" \/ mode r = Some "percentage").
Proof.
  apply (@selected_keys Lossless 0 xxy (Some [topRule "a" 1]) None false None None
           fresh fresh (Selected [("a", ["x"])]) [topRule "a" 1] "a");
    reflexivity.
Defined.

Lemma stats_mirror_selections_witness :
  Obj.own "a" (selectionsOf (SelectedWithStats [("a", ["x"])]
                               [("a", [("x", mkEntry 2 (Some (667 # 10)%Q))])]))
  = option_map (map fst)
      (Obj.own "a" (statsOf (SelectedWithStats [("a", ["x"])]
                               [("a", [("x", mkEntry 2 (Some (667 # 10)%Q))])]))).
Proof.
  apply (@stats_mirror_selections Lossless 0 xxy (Some [topRule "a" 1]) None None None
           fresh _ "a").
  reflexivity.
Defined.

Lemma includeStats_keeps_selections_witness :
  Obj.own "a" (selectionsOf (SelectedWithStats [("a", ["x"])]
                               [("a", [("x", mkEntry 2 (Some (667 # 10)%Q))])]))
  = Obj.own "a" (selectionsOf (Selected [("a", ["x"])])).
Proof.
  apply (@includeStats_keeps_selections Lossless 0 xxy (Some [topRule "a" 1]) None None
           None fresh _ _ "a"); reflexivity.
Defined.

(** ** Announcements and stored rules *)

Section Announcements.
Context {E : External}.

(** X8. A successful [transform] ends by emitting "transformed" once, with
    the selections and statistics it returns and the batch it was given,
    then writes the same record to [outputStream] if one was passed, then
    calls [cb] with it if one was passed.  Before that it has emitted at
    most one thing: the [model_update] of rule derivation. *)
Theorem transformed_then_sink_then_callback now docs rules dataPath includeStats
    outputStream cb (s : State) answer :
  fst (transform now docs rules dataPath includeStats outputStream cb s) = Ok answer ->
  exists before,
    (before = [] \/ exists compressed model, before = [Emit_model_update compressed model]) /\
    trace (snd (transform now docs rules dataPath includeStats outputStream cb s))
    = trace s ++ before
      ++ [Emit_transformed (selectionsOf answer) docs (statsOf answer)]
      ++ (if isSome outputStream
          then [SinkWrite (selectionsOf answer) docs (statsOf answer)] else [])
      ++ (if isSome cb
          then [Callback (selectionsOf answer) docs (statsOf answer)] else []).
Proof.
  intros Hok.
  destruct (transform_ok_full _ _ _ _ _ _ _ _ _ Hok) as (regole & s1 & Hres & _ & ->).
  cbn [trace].
  apply resolveRules_cases in Hres
    as [[-> _] | (_ & _ & _ & derived & _ & _ & ->)].
  - exists []. split; [now left|]. reflexivity.
  - eexists. split; [right; eexists; eexists; reflexivity|].
    cbn [trace]. now rewrite <- app_assoc.
Qed.

(** X9. When [transform] succeeds after deriving its rules, the derived list
    is not empty; under [keepAutogeneratedRules] it is then stored in
    [this.rules], so that a later call without rules resolves to it whatever
    its documents; otherwise the instance is left as it was. *)
Theorem derived_rules_kept now docs dataPath includeStats outputStream cb
    (s : State) answer :
  this_rules (this s) = None ->
  fst (transform now docs None dataPath includeStats outputStream cb s) = Ok answer ->
  let s' := snd (transform now docs None dataPath includeStats outputStream cb s) in
  exists derived,
    _buildDefaultRules (this s) docs dataPath = Ok derived /\
    derived <> [] /\
    (this_keepAutogeneratedRules (this s) = Some true ->
     this_rules (this s') = Some derived /\
     forall now' docs' dataPath',
       resolveRules now' docs' None dataPath' s' = (Ok derived, s')) /\
    (this_keepAutogeneratedRules (this s) <> Some true -> this s' = this s).
Proof.
  intros Hrules Hok s'. subst s'.
  destruct (transform_ok_full _ _ _ _ _ _ _ _ _ Hok) as (regole & s1 & Hres & Hne & ->).
  pose proof Hres as Hcases.
  apply resolveRules_cases in Hcases
    as [[-> Hwhy] | (_ & _ & Hkeep & derived & Hb & Hr & ->)].
  - assert (Hk : this_keepAutogeneratedRules (this s) <> Some true).
    { destruct Hwhy as [H|[H|[H|[e H]]]]; try congruence. discriminate. }
    assert (Hb : _buildDefaultRules (this s) docs dataPath = Ok regole).
    { revert Hres. unfold resolveRules, mbind, self, lift. cbn. rewrite Hrules.
      destruct (_buildDefaultRules (this s) docs dataPath) as [auto|e]; [|discriminate].
      destruct (this_keepAutogeneratedRules (this s)) as [[|]|]; [congruence| |];
        cbn; intros H; unfold ret, Ok in *; congruence. }
    exists regole. split; [exact Hb|]. split; [exact Hne|]. split.
    + intros Hkeep. contradiction.
    + intros _. reflexivity.
  - unfold Ok in Hr. injection Hr as ->.
    exists derived. split; [exact Hb|]. split; [exact Hne|]. split.
    + intros _. split; [reflexivity|]. intros now' docs' dataPath'.
      reflexivity.
    + intros H. congruence.
Qed.

(** X10. Rules passed to the call win over the rules of the instance: for a
    source that is not a stream the outcome does not depend on [this.rules],
    which the call leaves as they were. *)
Theorem call_rules_take_precedence now docs given dataPath includeStats outputStream cb
    (t : Synthesizer) (tr : list Effect) (configured configured' : option (list Rule)) :
  pipe docs = false ->
  fst (transform now docs (Some given) dataPath includeStats outputStream cb
                 (mkState (set_rules configured t) tr))
  = fst (transform now docs (Some given) dataPath includeStats outputStream cb
                   (mkState (set_rules configured' t) tr)) /\
  this (snd (transform now docs (Some given) dataPath includeStats outputStream cb
                       (mkState (set_rules configured t) tr)))
  = set_rules configured t.
Proof.
  intros Hp. split.
  - assert (Hsame : forall c, aggregate (set_rules c t) = aggregate t)
      by (intros c; reflexivity).
    unfold transform, mbind, self, resolveRules, ret, lift, Ok. cbv beta iota.
    cbn [checkStream this fst snd]. rewrite Hp. cbn [andb]. cbv beta iota.
    destruct (List.length given =? 0)%nat; [reflexivity|].
    destruct (isSome outputStream && negb (checkStream (option_map hasPipe outputStream)));
      [reflexivity|].
    destruct (callbackRejected cb); [reflexivity|].
    cbv beta iota. cbn [this]. rewrite !Hsame.
    destruct (aggregate t dataPath (map key given) docs (initResults (map key given)))
      as [results|e]; [|reflexivity].
    destruct (applyRules given includeStats (sortResults (computePercentage results)));
      [|reflexivity].
    unfold effect, when, throw. destruct outputStream as [[hp [|]]|], cb as [[|]|]; reflexivity.
  - pose proof (transform_this_cases now docs (Some given) dataPath includeStats
                  outputStream cb (mkState (set_rules configured t) tr)) as Hcases.
    cbv zeta in Hcases. destruct Hcases as [H | (H & _)]; [exact H | discriminate].
Qed.

End Announcements.

Lemma transformed_then_sink_then_callback_witness :
  exists before,
    (before = [] \/
     exists compressed model, before = [@Emit_model_update Lossless compressed model]) /\
    trace (snd (transform 0 xxy (Some [topRule "a" 1]) None false (Some writableSink)
                          (Some true) fresh))
    = trace fresh ++ before
      ++ [Emit_transformed (selectionsOf (Selected [("a", ["x"])])) xxy
                           (statsOf (Selected [("a", ["x"])]))]
      ++ (if isSome (Some writableSink)
          then [SinkWrite (selectionsOf (Selected [("a", ["x"])])) xxy
                          (statsOf (Selected [("a", ["x"])]))] else [])
      ++ (if isSome (Some true)
          then [Callback (selectionsOf (Selected [("a", ["x"])])) xxy
                         (statsOf (Selected [("a", ["x"])]))] else []).
Proof.
  apply (@transformed_then_sink_then_callback Lossless 0 xxy (Some [topRule "a" 1]) None
           false (Some writableSink) (Some true) fresh (Selected [("a", ["x"])])).
  reflexivity.
Defined.

Lemma derived_rules_kept_witness :
  exists derived,
    _buildDefaultRules (this keeping) xxy None = Ok derived /\
    derived <> [] /\
    (this_keepAutogeneratedRules (this keeping) = Some true ->
     this_rules (this (snd (transform 0 xxy None None false None None keeping)))
       = Some derived /\
     forall now' docs' dataPath',
       resolveRules now' docs' None dataPath'
                    (snd (transform 0 xxy None None false None None keeping))
       = (Ok derived, snd (transform 0 xxy None None false None None keeping))) /\
    (this_keepAutogeneratedRules (this keeping) <> Some true ->
     this (snd (transform 0 xxy None None false None None keeping)) = this keeping).
Proof.
  apply (@derived_rules_kept Lossless 0 xxy None false None None keeping
           (Selected [("a", ["x"; "y"])])); reflexivity.
Defined.

Lemma call_rules_take_precedence_witness :
  fst (transform 0 xxy (Some [topRule "a" 1]) None false None None
                 (mkState (set_rules None (this fresh)) []))
  = fst (transform 0 xxy (Some [topRule "a" 1]) None false None None
                   (mkState (set_rules (Some [medianRule "a"]) (this fresh)) [])) /\
  this (snd (transform 0 xxy (Some [topRule "a" 1]) None false None None
                       (mkState (set_rules None (this fresh)) [])))
  = set_rules None (this fresh).
Proof.
  apply (@call_rules_take_precedence Lossless 0 xxy [topRule "a" 1] None false None None
           (this fresh) [] None (Some [medianRule "a"])).
  reflexivity.
Defined.

(** ** Percentages *)

Section DoubleFacts.
Local Open Scope Q_scope.

Lemma roundEven_cases q : JS.roundEven q = Qfloor q \/ (JS.roundEven q = (Qfloor q + 1)%Z /\ inject_Z (Qfloor q) < q).
Proof.
  unfold JS.roundEven.
  destruct (Qcompare (q - inject_Z (Qfloor q)) (1 # 2)) eqn:Hc.
  - apply Qeq_alt in Hc. destruct (Z.even (Qfloor q)); [now left|]. right.
    split; [reflexivity|]. apply Qlt_minus_iff.
    change (0 < q - inject_Z (Qfloor q)). rewrite Hc. reflexivity.
  - now left.
  - right. split; [reflexivity|]. apply Qgt_alt in Hc. apply Qlt_minus_iff.
    change (0 < q - inject_Z (Qfloor q)). eapply Qlt_trans; [|exact Hc]. reflexivity.
Qed.

Lemma roundEven_le q N : q <= inject_Z N -> (JS.roundEven q <= N)%Z.
Proof.
  intros Hq. pose proof (Qfloor_resp_le _ _ Hq) as Hf. rewrite Qfloor_Z in Hf.
  destruct (roundEven_cases q) as [-> | [-> Hlt]]; [exact Hf|].
  assert (H : inject_Z (Qfloor q) < inject_Z N) by (eapply Qlt_le_trans; eassumption).
  rewrite <- Zlt_Qlt in H. lia.
Qed.

Lemma roundEven_nonneg q : 0 <= q -> (0 <= JS.roundEven q)%Z.
Proof.
  intros Hq. pose proof (Qfloor_resp_le _ _ Hq) as Hf. change (Qfloor 0) with 0%Z in Hf.
  destruct (roundEven_cases q) as [-> | [-> _]]; lia.
Qed.

Lemma two_neq_0 : ~ 2 == 0.
Proof. discriminate. Qed.

Lemma binade_spec q : 0 < q -> Qpower 2 (JS.binade q) <= q.
Proof.
  intros Hq. unfold JS.binade.
  set (a := Qnum q). set (b := Zpos (Qden q)).
  destruct (Qle_bool (Qpower 2 (Z.log2 a - Z.log2 b)) q) eqn:Hb.
  { now apply Qle_bool_iff. }
  assert (Ha : (0 < a)%Z).
  { unfold Qlt in Hq. cbn in Hq. subst a. lia. }
  assert (Hb0 : (0 < b)%Z) by (subst b; lia).
  destruct (Z.log2_spec a Ha) as [Ha1 _].
  destruct (Z.log2_spec b Hb0) as [_ Hb2].
  pose proof (Z.log2_nonneg a) as Hla. pose proof (Z.log2_nonneg b) as Hlb.
  replace (Z.log2 a - Z.log2 b - 1)%Z with (Z.log2 a - Z.succ (Z.log2 b))%Z by lia.
  rewrite Qpower_minus by apply two_neq_0.
  rewrite <- !(Zpower_Qpower 2) by lia.
  assert (Hqab : q == inject_Z a / inject_Z b).
  { subst a b. destruct q as [n d]. cbn. apply Qmake_Qdiv. }
  rewrite Hqab.
  assert (Hpb : 0 < inject_Z (2 ^ Z.succ (Z.log2 b))).
  { rewrite <- (Zlt_Qlt 0). lia. }
  assert (Hib : 0 < inject_Z b) by (rewrite <- (Zlt_Qlt 0); exact Hb0).
  apply Qle_shift_div_r; [exact Hpb|].
  unfold Qdiv. rewrite <- Qmult_assoc, (Qmult_comm (/ inject_Z b)), Qmult_assoc.
  apply Qle_shift_div_l; [exact Hib|].
  rewrite <- !inject_Z_mult, <- Zle_Qle.
  apply Z.mul_le_mono_nonneg; lia.
Qed.

Lemma binade_lt q m : 0 < q -> q < Qpower 2 m -> (JS.binade q < m)%Z.
Proof.
  intros Hq Hm. apply (Qpower_lt_compat_l_inv 2); [|reflexivity].
  eapply Qle_lt_trans; [apply binade_spec; exact Hq | exact Hm].
Qed.

Lemma double_nonneg q : 0 <= JS.double q.
Proof.
  unfold JS.double. destruct (Qle_bool q 0) eqn:Hq; [apply Qle_refl|].
  assert (Hpos : 0 < q).
  { apply Qnot_le_lt. intros H. apply Qle_bool_iff in H. congruence. }
  assert (Hu : 0 < Qpower 2 (JS.binade q - 52)) by (apply Qpower_0_lt; reflexivity).
  apply Qmult_le_0_compat; [|now apply Qlt_le_weak].
  rewrite <- (Zle_Qle 0). apply roundEven_nonneg.
  apply Qle_shift_div_l; [exact Hu|]. rewrite Qmult_0_l. now apply Qlt_le_weak.
Qed.

(** A bound that is itself on the grid of the doubles near [q] bounds the rounded value. *)
Lemma double_le q (k j : Z) :
  (0 < k)%Z ->
  q <= inject_Z k * Qpower 2 j ->
  q < Qpower 2 (j + 53) ->
  JS.double q <= inject_Z k * Qpower 2 j.
Proof.
  intros Hk Hq Hlt. unfold JS.double.
  assert (Hj : 0 < Qpower 2 j) by (apply Qpower_0_lt; reflexivity).
  destruct (Qle_bool q 0) eqn:Hq0.
  { apply Qmult_le_0_compat; [|now apply Qlt_le_weak]. rewrite <- (Zle_Qle 0). lia. }
  assert (Hpos : 0 < q).
  { apply Qnot_le_lt. intros H. apply Qle_bool_iff in H. congruence. }
  pose proof (binade_lt q _ Hpos Hlt) as He.
  set (e := (JS.binade q - 52)%Z) in *.
  assert (Hu : 0 < Qpower 2 e) by (apply Qpower_0_lt; reflexivity).
  assert (Hgrid : inject_Z k * Qpower 2 j == inject_Z (k * 2 ^ (j - e)) * Qpower 2 e).
  { rewrite inject_Z_mult, (Zpower_Qpower 2) by lia.
    rewrite <- Qmult_assoc, <- Qpower_plus by apply two_neq_0.
    replace (j - e + e)%Z with j by lia. reflexivity. }
  rewrite Hgrid. apply Qmult_le_compat_r; [|now apply Qlt_le_weak].
  rewrite <- Zle_Qle. apply roundEven_le.
  apply Qle_shift_div_r; [exact Hu|]. rewrite <- Hgrid. exact Hq.
Qed.

Lemma toFixed1_bounds x : 0 <= x -> x <= 100 -> 0 <= JS.toFixed1 x /\ JS.toFixed1 x <= 100.
Proof.
  intros H0 H1. unfold JS.toFixed1.
  assert (Hlo : (0 <= Qfloor (x * 10 + (1 # 2)))%Z).
  { change 0%Z with (Qfloor (0 * 10 + (1#2))). apply Qfloor_resp_le.
    apply Qplus_le_l. apply Qmult_le_compat_r; [exact H0 | discriminate]. }
  assert (Hhi : (Qfloor (x * 10 + (1 # 2)) <= 1000)%Z).
  { change 1000%Z with (Qfloor (100 * 10 + (1#2))). apply Qfloor_resp_le.
    apply Qplus_le_l. apply Qmult_le_compat_r; [exact H1 | discriminate]. }
  set (n := Qfloor (x * 10 + (1 # 2))) in *. unfold Qle. cbn [Qnum Qden]. lia.
Qed.

Lemma toPercentage_bounds c n :
  (c <= n)%nat -> (0 < n)%nat -> 0 <= toPercentage c n /\ toPercentage c n <= 100.
Proof.
  intros Hc Hn. unfold toPercentage.
  set (q := Z.of_nat c # Pos.of_nat n).
  assert (Hq1 : q <= 1).
  { unfold q, Qle. cbn [Qnum Qden]. rewrite Z.mul_1_r, Z.mul_1_l.
    rewrite <- positive_nat_Z, Nat2Pos.id by lia. lia. }
  assert (Hx1 : JS.double q <= 1).
  { change 1 with (inject_Z 1 * Qpower 2 0). apply double_le; [lia | exact Hq1 |].
    eapply Qle_lt_trans; [exact Hq1 | reflexivity]. }
  pose proof (double_nonneg q) as Hx0.
  assert (Hy : JS.double q * 100 <= 100).
  { change 100 with (1 * 100) at 2. apply Qmult_le_compat_r; [exact Hx1 | discriminate]. }
  apply toFixed1_bounds; [apply double_nonneg|].
  change 100 with (inject_Z 25 * Qpower 2 2). apply double_le; [lia | exact Hy |].
  eapply Qle_lt_trans; [exact Hy | reflexivity].
Qed.


Lemma roundEven_err s : Qabs (inject_Z (JS.roundEven s) - s) <= 1 # 2.
Proof.
  pose proof (Qfloor_le s) as Hlo. pose proof (Qlt_floor s) as Hhi.
  rewrite inject_Z_plus in Hhi. change (inject_Z 1) with 1 in Hhi.
  apply Qabs_Qle_condition. unfold JS.roundEven.
  destruct (Qcompare (s - inject_Z (Qfloor s)) (1 # 2)) eqn:Hc.
  - apply Qeq_alt in Hc.
    destruct (Z.even (Qfloor s)); rewrite ?inject_Z_plus; change (inject_Z 1) with 1;
      split; lra.
  - apply Qlt_alt in Hc. split; lra.
  - apply Qgt_alt in Hc. rewrite inject_Z_plus. change (inject_Z 1) with 1. split; lra.
Qed.

Lemma double_err q : 0 <= q -> Qabs (JS.double q - q) <= q * eps.
Proof.
  intros Hq0. unfold JS.double.
  destruct (Qle_bool q 0) eqn:Hb.
  { apply Qle_bool_iff in Hb. apply Qabs_Qle_condition. unfold eps. split; lra. }
  assert (Hpos : 0 < q).
  { apply Qnot_le_lt. intros H. apply Qle_bool_iff in H. congruence. }
  pose proof (binade_spec q Hpos) as Hspec.
  set (u := Qpower 2 (JS.binade q - 52)).
  assert (Hu : 0 < u) by (apply Qpower_0_lt; reflexivity).
  assert (Hu2 : u == Qpower 2 (JS.binade q) * (1 # 4503599627370496)).
  { unfold u. rewrite Qpower_minus by apply two_neq_0. reflexivity. }
  pose proof (roundEven_err (q / u)) as Herr.
  apply Qabs_Qle_condition in Herr. destruct Herr as [H1 H2].
  set (R := inject_Z (JS.roundEven (q / u))) in *.
  assert (Hqu : q / u * u == q) by (field; lra).
  assert (Hb1 : (R - q / u) * u <= (1 # 2) * u) by (apply Qmult_le_compat_r; lra).
  assert (Hb2 : - (1 # 2) * u <= (R - q / u) * u) by (apply Qmult_le_compat_r; lra).
  assert (Hhalf : (1 # 2) * u <= q * eps).
  { rewrite Hu2. unfold eps.
    setoid_replace ((1 # 2) * (Qpower 2 (JS.binade q) * (1 # 4503599627370496)))
      with (Qpower 2 (JS.binade q) * (1 # 9007199254740992)) by ring.
    apply Qmult_le_compat_r; [exact Hspec | discriminate]. }
  apply Qabs_Qle_condition. split.
  - setoid_replace (R * u - q) with ((R - q / u) * u) by (rewrite <- Hqu at 1; ring). lra.
  - setoid_replace (R * u - q) with ((R - q / u) * u) by (rewrite <- Hqu at 1; ring). lra.
Qed.

Lemma toFixed1_err x : Qabs (JS.toFixed1 x - x) <= 1 # 20.
Proof.
  unfold JS.toFixed1.
  pose proof (Qfloor_le (x * 10 + (1 # 2))) as Hlo.
  pose proof (Qlt_floor (x * 10 + (1 # 2))) as Hhi.
  rewrite inject_Z_plus in Hhi. change (inject_Z 1) with 1 in Hhi.
  set (n := Qfloor (x * 10 + (1 # 2))) in *.
  assert (Hn : n # 10 == inject_Z n / 10) by apply Qmake_Qdiv.
  rewrite Hn. apply Qabs_Qle_condition. split.
  - apply (Qmult_le_r _ _ 10); [reflexivity|]. field_simplify. lra.
  - apply (Qmult_le_r _ _ 10); [reflexivity|]. field_simplify. lra.
Qed.

(** The percentage is the exact one rounded to a tenth, up to the rounding of the two operations on doubles. *)
Lemma toPercentage_err c n :
  (c <= n)%nat -> (0 < n)%nat ->
  Qabs (toPercentage c n - 100 * (Z.of_nat c # Pos.of_nat n)) <= (1 # 20) + (1 # 10000000000000).
Proof.
  intros Hc Hn. unfold toPercentage.
  set (q := Z.of_nat c # Pos.of_nat n).
  assert (Hq0 : 0 <= q) by (unfold q, Qle; cbn; lia).
  assert (Hq1 : q <= 1).
  { unfold q, Qle. cbn [Qnum Qden]. rewrite Z.mul_1_r, Z.mul_1_l.
    rewrite <- positive_nat_Z, Nat2Pos.id by lia. lia. }
  pose proof (double_err q Hq0) as Hx. apply Qabs_Qle_condition in Hx.
  pose proof (double_nonneg q) as Hx0.
  set (x := JS.double q) in *.
  assert (Hz0 : 0 <= x * 100) by lra.
  pose proof (double_err (x * 100) Hz0) as Hy. apply Qabs_Qle_condition in Hy.
  set (y := JS.double (x * 100)) in *.
  pose proof (toFixed1_err y) as Ht. apply Qabs_Qle_condition in Ht.
  set (t := JS.toFixed1 y) in *.
  assert (Heps : 0 < eps /\ 300 * eps <= 1 # 10000000000000)
    by (split; [reflexivity | discriminate]).
  assert (Hqe : q * eps <= eps) by nra.
  assert (Hxe : x * 100 * eps <= 200 * eps) by nra.
  apply Qabs_Qle_condition. split; lra.
Qed.

End DoubleFacts.

(** ** Invariants of the tallies *)

Section TallyInvariants.
Context {E : External}.

Lemma addValueAt_invariant (P : Tally -> Prop) v field (results results' : Results) :
  (forall v root, P root -> P (counted v root)) ->
  addValueAt v field results = Ok results' ->
  (forall f root, JMap.get f results = Some root -> P root) ->
  forall f root, JMap.get f results' = Some root -> P root.
Proof.
  intros Hstep H. apply addValueAt_inv in H.
  destruct (JMap.get field results) as [root0|] eqn:Hget; subst results'.
  - intros Hinv f root. unfold JMap.get, JMap.set in *.
    destruct (String.eqb_spec f field) as [->|Hne].
    + rewrite own_define_same. intros Hr. injection Hr as <-. eauto.
    + rewrite own_define_other by exact Hne. apply Hinv.
  - exact (fun x => x).
Qed.

Lemma aggregate_invariant (P : Tally -> Prop) t dataPath fields docs
    (results results' : Results) :
  (forall v root, P root -> P (counted v root)) ->
  aggregate t dataPath fields docs results = Ok results' ->
  (forall f root, JMap.get f results = Some root -> P root) ->
  forall f root, JMap.get f results' = Some root -> P root.
Proof.
  intros Hstep Hagg. revert Hagg.
  set (Inv := fun r : Results => forall f root, JMap.get f r = Some root -> P root).
  assert (Hobs : forall field v (r r' : Results),
             observe t field v r = Ok r' -> Inv r -> Inv r').
  { intros field v r r'. unfold observe.
    destruct (this_filterData t) as [fd|]; cbn; [|discriminate].
    destruct (fd field v).
    { intros H. unfold Ok in H. injection H as <-. exact (fun x => x). }
    destruct (this_translateValue t) as [tv|]; cbn; [|discriminate].
    intros H Hr f root. apply (addValueAt_invariant P _ _ _ _ Hstep H Hr). }
  unfold aggregate. intros Hagg Hinit.
  apply (forEach_invariant _ Inv) in Hagg; [exact Hagg | | exact Hinit].
  intros doc r r' Hdoc Hr.
  apply (forEach_invariant _ Inv) in Hdoc; [exact Hdoc | | exact Hr].
  intros key r0 r0'. unfold tallyField.
  destruct (this_skipKeys t) as [sk|]; cbn; [|discriminate].
  destruct (includes key sk).
  { intros H. unfold Ok in H. injection H as <-. exact (fun x => x). }
  destruct (this_translateKey t) as [tk|]; cbn; [|discriminate].
  destruct (get (project dataPath doc) (tk key)) as [| | | | |vs|]; try apply Hobs.
  intros H Hr0. apply (forEach_invariant _ Inv) in H; [exact H | | exact Hr0].
  intros v. apply Hobs.
Qed.

Lemma count_le_sum (vals : Obj.t Entry) e : In e vals -> count (snd e) <= sumCounts vals.
Proof.
  induction vals as [|[k0 e0] vals IH]; [intros []|].
  rewrite sumCounts_cons. intros [<- | Hin]; [cbn; lia|].
  specialize (IH Hin). lia.
Qed.

Lemma counted_wellCounted v root : wellCounted root -> wellCounted (counted v root).
Proof.
  intros (Hun & Hall & Hsum). split; [now apply counted_unshadowed|]. split.
  - unfold counted, increment. destruct (JS.truthy v); cbn [negb values]; [|exact Hall].
    unfold Obj.has.
    destruct (Obj.own (JS.toString v) (values root)) as [e|] eqn:Hown.
    + assert (He : 1 <= count e /\ percentage e = None).
      { rewrite Forall_forall in Hall. apply (Hall (JS.toString v, e)).
        now apply own_In. }
      clear Hown. revert Hall. generalize (values root) as vals.
      induction vals as [|[k0 e0] vals IH]; cbn; [constructor|].
      intros Hvals. inversion Hvals as [|? ? Hhead Htail]; subst.
      destruct (k0 =? JS.toString v); constructor; auto.
      cbn. split; [lia | tauto].
    + destruct (Obj.inherits (JS.toString v)) eqn:Hinh; [exact Hall|].
      unfold Obj.set, Obj.define.
      destruct (String.eqb_spec (JS.toString v) "__proto__") as [Heq|_].
      * rewrite Heq in Hinh. discriminate.
      * rewrite Hown. apply Forall_app. split; [exact Hall|].
        constructor; [cbn; split; [lia | reflexivity] | constructor].
  - pose proof (counted_sum v root Hun) as Hs.
    pose proof (counted_total v root) as Ht.
    destruct (JS.truthy v), (Obj.inherits (JS.toString v)); cbn [andb] in Hs; lia.
Qed.

Lemma emptyTally_wellCounted : wellCounted emptyTally.
Proof.
  split; [intros k []|]. split; [constructor | cbn; lia].
Qed.

Lemma aggregate_wellCounted t dataPath fields docs (results : Results) f tally :
  aggregate t dataPath fields docs (initResults fields) = Ok results ->
  JMap.get f results = Some tally ->
  wellCounted tally.
Proof.
  intros Hagg. apply (aggregate_invariant wellCounted _ _ _ _ _ _
                        counted_wellCounted Hagg).
  intros f0 root Hget. apply initResults_fresh in Hget. subst root.
  apply emptyTally_wellCounted.
Qed.

(** X11. In every ranking, each value has been counted at least once and at
    most as often as the total of its field; its percentage is a number of
    tenths between 0 and 100 that differs from the exact percentage of the
    count in the total by at most 0.05, and by the rounding of the quotient
    and of the product to doubles, which is below [10^-13]. *)
Theorem ranked_counts_and_percentages t dataPath fields docs (results : Results)
    field tally ranking (k : string) (e : Entry) :
  aggregate t dataPath fields docs (initResults fields) = Ok results ->
  JMap.get field results = Some tally ->
  Obj.own field (sortResults (computePercentage results)) = Some ranking ->
  In (k, e) ranking ->
  1 <= count e <= total tally /\
  exists tenths : Z,
    percentage e = Some (tenths # 10)%Q /\
    (0 <= tenths <= 1000)%Z /\
    (Qabs ((tenths # 10)
           - 100 * (Z.of_nat (count e) # Pos.of_nat (total tally)))
     <= (1 # 20) + (1 # 10000000000000))%Q.
Proof.
  intros Hagg Hget Hown Hin.
  assert (Hnd : NoDup (map fst results)).
  { rewrite (aggregate_keys _ _ _ _ _ _ Hagg). apply initResults_NoDup. }
  destruct (ranked_of _ results field ranking eq_refl Hnd Hown) as (tally' & Hget' & ->).
  rewrite Hget in Hget'. injection Hget' as <-.
  destruct (aggregate_wellCounted _ _ _ _ _ _ _ Hagg Hget) as (_ & Hall & Hsum).
  apply (Permutation_in _ (rank_perm _)) in Hin.
  unfold withPercentage in Hin. cbn [values] in Hin.
  apply in_map_iff in Hin as ([k0 e0] & Heq & Hin0). cbn in Heq.
  injection Heq as <- <-. cbn [count percentage].
  pose proof (count_le_sum _ _ Hin0) as Hle. cbn in Hle.
  rewrite Forall_forall in Hall. destruct (Hall _ Hin0) as [Hone _]. cbn in Hone.
  split; [lia|].
  assert (Hc : count e0 <= total tally) by lia.
  assert (Hpos : 0 < total tally) by lia.
  destruct (toPercentage_bounds _ _ Hc Hpos) as [Hlow Hhigh].
  pose proof (toPercentage_err _ _ Hc Hpos) as Herr.
  revert Hlow Hhigh Herr. unfold toPercentage, JS.toFixed1. cbv zeta.
  match goal with |- context [Qfloor ?x] => generalize (Qfloor x) end.
  intros tenths Hlow Hhigh Herr. exists tenths.
  split; [reflexivity|]. split; [|exact Herr].
  unfold Qle in Hlow, Hhigh. cbn [Qnum Qden] in Hlow, Hhigh. lia.
Qed.

(** X12. The counts of a field never add up to more than its total, and they
    add up to the total whenever no value sent to the tally is named like a
    member inherited from [Object.prototype]. *)
Theorem counts_against_total (t : Synthesizer) sk fd tk tv dataPath fields docs
    (results : Results) f tally :
  this_skipKeys t = Some sk ->
  this_filterData t = Some fd ->
  this_translateKey t = Some tk ->
  this_translateValue t = Some tv ->
  aggregate t dataPath fields docs (initResults fields) = Ok results ->
  JMap.get f results = Some tally ->
  sumCounts (values tally) <= total tally /\
  (shadowed (observedFor sk fd tk tv f dataPath fields docs) = [] ->
   sumCounts (values tally) = total tally).
Proof.
  intros Hsk Hfd Htk Htv Hagg Hget.
  pose proof (aggregate_sum t sk fd tk tv dataPath fields docs results f tally
                Hsk Hfd Htk Htv Hagg Hget) as Hsum.
  split; [lia|]. intros Hnone. rewrite Hnone in Hsum. cbn in Hsum. lia.
Qed.

End TallyInvariants.

Lemma ranked_counts_and_percentages_witness :
  let tally := mkTally 3 [("x", mkEntry 2 None); ("y", mkEntry 1 None)] in
  let e := mkEntry 2 (Some (667 # 10)%Q) in
  1 <= count e <= total tally /\
  exists tenths : Z,
    percentage e = Some (tenths # 10)%Q /\
    (0 <= tenths <= 1000)%Z /\
    (Qabs ((tenths # 10)
           - 100 * (Z.of_nat (count e) # Pos.of_nat (total tally)))
     <= (1 # 20) + (1 # 10000000000000))%Q.
Proof.
  apply (@ranked_counts_and_percentages Lossless (instanceOf emptyConfig)
           None ["a"] xxy
           [("a", mkTally 3 [("x", mkEntry 2 None); ("y", mkEntry 1 None)])]
           "a" (mkTally 3 [("x", mkEntry 2 None); ("y", mkEntry 1 None)])
           xxyRanked "x" (mkEntry 2 (Some (667 # 10)%Q))).
  - reflexivity.
  - reflexivity.
  - reflexivity.
  - left. reflexivity.
Defined.

Lemma counts_against_total_witness :
  sumCounts (values (mkTally 3 [("x", mkEntry 2 None); ("y", mkEntry 1 None)]))
    <= total (mkTally 3 [("x", mkEntry 2 None); ("y", mkEntry 1 None)]) /\
  (shadowed (@observedFor Lossless [] keepAll sameKey sameValue "a" None ["a"] xxy) = [] ->
   sumCounts (values (mkTally 3 [("x", mkEntry 2 None); ("y", mkEntry 1 None)]))
   = total (mkTally 3 [("x", mkEntry 2 None); ("y", mkEntry 1 None)])).
Proof.
  apply (@counts_against_total Lossless (instanceOf emptyConfig) [] keepAll sameKey
           sameValue None ["a"] xxy
           [("a", mkTally 3 [("x", mkEntry 2 None); ("y", mkEntry 1 None)])] "a");
    reflexivity.
Defined.

(** ** When tallying succeeds, and what is selected *)

Section Observed.
Context {E : External}.
Variables (t : Synthesizer) (sk : list string) (fd : FilterData)
          (tk : TranslateKey) (tv : TranslateValue).
Hypothesis Hsk : this_skipKeys t = Some sk.
Hypothesis Hfd : this_filterData t = Some fd.
Hypothesis Htk : this_translateKey t = Some tk.
Hypothesis Htv : this_translateValue t = Some tv.

Lemma observations_fields dataPath fields docs c :
  In c (observations sk fd tk tv dataPath fields docs) ->
  exists key, In key fields /\ includes key sk = false /\ fst c = tk key.
Proof.
  unfold observations. intros Hin.
  apply in_flat_map in Hin as (doc & _ & Hin).
  apply in_flat_map in Hin as (key & Hkey & Hin).
  exists key. split; [exact Hkey|]. unfold observationsOf in Hin.
  destruct (includes key sk); [destruct Hin|]. split; [reflexivity|].
  destruct (get (project dataPath doc) (tk key)) as [| | | | |vs|].
  6:{ apply in_map_iff in Hin as (v & <- & _). reflexivity. }
  all: match type of Hin with context [fd ?f ?v] => destruct (fd f v) end.
  all: try (destruct Hin; fail).
  all: destruct Hin as [<- | []]; reflexivity.
Qed.

Lemma calls_ok calls (results : Results) :
  (forall c, In c calls -> In (fst c) (map fst results)) ->
  forallb keyable (map snd calls) = true ->
  exists results', forEach addValueCall calls results = Ok results'.
Proof.
  revert results. induction calls as [|[f v] calls IH]; intros results Hin Hkey.
  { now exists results. }
  cbn [map snd forallb] in Hkey. apply andb_prop in Hkey as [Hv Hrest].
  cbn [forEach]. unfold addValueCall at 1. cbn [fst snd]. unfold addValueAt.
  destruct (JMap.get f results) as [root|] eqn:Hget.
  - rewrite addValue_ok.
    2:{ unfold keyable in Hv. destruct (JS.truthy v), (JS.converts v); auto. }
    unfold Ok at 1 2. cbn [bind]. apply IH; [|exact Hrest].
    intros c Hc. unfold JMap.set. rewrite keys_define.
    unfold JMap.get in Hget. rewrite Hget. apply Hin. now right.
  - exfalso. unfold JMap.get in Hget. apply own_None in Hget. apply Hget.
    apply (Hin (f, v)). now left.
Qed.

(** Tallying cannot throw when the hooks are defined, [translateKey] sends
    every rule key that is not skipped to a rule key, and every value
    observed has a string form. *)
Lemma aggregate_ok dataPath fields docs :
  (forall key, In key fields -> includes key sk = false -> In (tk key) fields) ->
  forallb keyable (map snd (observations sk fd tk tv dataPath fields docs)) = true ->
  exists results,
    aggregate t dataPath fields docs (initResults fields) = Ok results.
Proof.
  intros Hclosed Hkey. rewrite (aggregate_observations t sk fd tk tv Hsk Hfd Htk Htv).
  apply calls_ok; [|exact Hkey]. intros c Hc.
  apply observations_fields in Hc as (key & Hkey' & Hskip & ->).
  apply initResults_keys. now apply Hclosed.
Qed.

Lemma calls_fail calls (results : Results) :
  (forall c, In c calls -> In (fst c) (map fst results)) ->
  forallb keyable (map snd calls) = false ->
  forEach addValueCall calls results = Throw TypeError.
Proof.
  revert results. induction calls as [|[f v] calls IH]; intros results Hin Hkey.
  { discriminate. }
  cbn [map snd forallb] in Hkey.
  cbn [forEach]. unfold addValueCall at 1. cbn [fst snd]. unfold addValueAt.
  destruct (JMap.get f results) as [root|] eqn:Hget.
  - destruct (addValue_cases v root) as [[Hv ->] | (Ht & Hc & ->)].
    + unfold Ok at 1 2. cbn [bind]. apply IH.
      * intros c Hc. unfold JMap.set. rewrite keys_define.
        unfold JMap.get in Hget. rewrite Hget. apply Hin. now right.
      * unfold keyable in Hkey at 1.
        destruct (JS.truthy v), (JS.converts v); cbn in Hv, Hkey; congruence.
    + reflexivity.
  - exfalso. unfold JMap.get in Hget. apply own_None in Hget. apply Hget.
    apply (Hin (f, v)). now left.
Qed.

(** It throws as soon as a value observed has none. *)
Lemma aggregate_fails dataPath fields docs :
  (forall key, In key fields -> includes key sk = false -> In (tk key) fields) ->
  forallb keyable (map snd (observations sk fd tk tv dataPath fields docs)) = false ->
  aggregate t dataPath fields docs (initResults fields) = Throw TypeError.
Proof.
  intros Hclosed Hkey. rewrite (aggregate_observations t sk fd tk tv Hsk Hfd Htk Htv).
  apply calls_fail; [|exact Hkey]. intros c Hc.
  apply observations_fields in Hc as (key & Hkey' & Hskip & ->).
  apply initResults_keys. now apply Hclosed.
Qed.

Lemma observedFor_none k dataPath fields docs :
  (forall key, In key fields -> includes key sk = false -> tk key <> k) ->
  observedFor sk fd tk tv k dataPath fields docs = [].
Proof.
  intros Hnone. unfold observedFor.
  replace (filter (fun c => fst c =? k) (observations sk fd tk tv dataPath fields docs))
    with (@nil (string * JS.value)); [reflexivity|].
  symmetry. apply filter_none. intros c Hc.
  apply observations_fields in Hc as (key & Hkey & Hskip & ->).
  apply String.eqb_neq. now apply Hnone.
Qed.

End Observed.

Section Selected.
Context {E : External}.

Lemma NoDup_fst_filter {A} (p : string * A -> bool) (l : list (string * A)) :
  NoDup (map fst l) -> NoDup (map fst (filter p l)).
Proof.
  induction l as [|x l IH]; cbn; [auto|]. intros Hnd.
  inversion Hnd as [|? ? Hfresh Hnd']; subst.
  destruct (p x); cbn; [|auto]. constructor; [|auto].
  intros Hin. apply Hfresh. apply in_map_iff in Hin as (y & Hy & Hin).
  apply filter_In in Hin as [Hin _]. rewrite <- Hy. now apply in_map.
Qed.

Lemma NoDup_fst_slice {A} (l : list (string * A)) endArg :
  NoDup (map fst l) -> NoDup (map fst (JS.slice0 l endArg)).
Proof.
  unfold JS.slice0. intros Hnd.
  rewrite <- (firstn_skipn (JS.sliceEnd (List.length l) endArg) l), map_app in Hnd.
  now apply NoDup_app_remove_r in Hnd.
Qed.

Lemma slice_incl {A} (l : list A) endArg : incl (JS.slice0 l endArg) l.
Proof.
  unfold JS.slice0. intros x Hx.
  rewrite <- (firstn_skipn (JS.sliceEnd (List.length l) endArg) l).
  apply in_or_app. now left.
Qed.

Lemma ruleSelection_sub r (v sel : Ranked) :
  ruleSelection r v = Some sel ->
  incl sel v /\ (NoDup (map fst v) -> NoDup (map fst sel)).
Proof.
  unfold ruleSelection, capped, satisfying.
  destruct (equals "top" (mode r)).
  { intros H. injection H as <-. split; [apply slice_incl | apply NoDup_fst_slice]. }
  destruct (equals "percentage" (mode r)); [|discriminate].
  destruct (cap r) as [c|].
  2:{ intros H. injection H as <-. split; [|apply NoDup_fst_filter].
      intros x Hx. now apply filter_In in Hx. }
  destruct (Qeq_bool c 0).
  { intros H. injection H as <-. split; [|apply NoDup_fst_filter].
    intros x Hx. now apply filter_In in Hx. }
  intros H. injection H as <-. split.
  - intros x Hx. apply slice_incl in Hx. now apply filter_In in Hx.
  - intros Hnd. now apply NoDup_fst_slice, NoDup_fst_filter.
Qed.

(** X13. A selection never holds a value twice, and every selected value is
    the string form of a truthy value that was sent to the tally of that
    field, none of them named like an inherited member. *)
Theorem selected_values_observed now docs rules dataPath includeStats outputStream cb
    (s s1 : State) answer regole sk fd tk tv (k : string) (sel : list string) :
  fst (transform now docs rules dataPath includeStats outputStream cb s) = Ok answer ->
  resolveRules now docs rules dataPath s = (Ok regole, s1) ->
  this_skipKeys (this s) = Some sk ->
  this_filterData (this s) = Some fd ->
  this_translateKey (this s) = Some tk ->
  this_translateValue (this s) = Some tv ->
  Obj.own k (selectionsOf answer) = Some sel ->
  NoDup sel /\
  forall x, In x sel ->
    In x (seenKeys (observedFor sk fd tk tv k dataPath (map key regole) docs)) /\
    Obj.inherits x = false.
Proof.
  intros Hok Hres Hsk Hfd Htk Htv Hown.
  apply transform_ok_inv in Hok
    as (regole' & s1' & results & out & Hres' & Hagg & Happ & Hanswer).
  rewrite Hres in Hres'. unfold Ok in Hres'. injection Hres' as <- <-.
  assert (Hsel : selectionsOf answer = fst out) by (subst answer; now destruct includeStats).
  rewrite Hsel in Hown. clear Hsel Hanswer.
  destruct (applyRules_spec _ _ _ _ _ _ _ Hagg Happ) as [Hin Hout].
  destruct (aggregated_keys _ _ _ _ _ Hagg) as [Hnd _].
  destruct (in_dec string_dec k
              (map fst (Obj.entries (sortResults (computePercentage results)))))
    as [Hk|Hk]; [|destruct (Hout k Hk); congruence].
  apply in_map_iff in Hk as ([k' v] & Heq & Hk). cbn in Heq. subst k'.
  destruct (Hin k v Hk) as (r & _ & H1 & _). rewrite H1 in Hown.
  destruct (ruleSelection r v) as [sel0|] eqn:Hrule; [|discriminate].
  cbn in Hown. injection Hown as <-.
  destruct (ranked_entries _ _ _ Hnd Hk) as (_ & tally & Hget & ->).
  pose proof (aggregate_tally _ sk fd tk tv Hsk Hfd Htk Htv _ _ _ _ _ _ Hagg Hget)
    as Htally.
  destruct (ruleSelection_sub _ _ _ Hrule) as [Hincl Hdistinct].
  assert (Hkeys : Permutation (map fst (rank (withPercentage tally)))
                              (created (seenKeys (observedFor sk fd tk tv k dataPath
                                                    (map key regole) docs)) [])).
  { rewrite (Permutation_map fst (rank_perm _)), withPercentage_keys, Htally.
    now rewrite tallyAll_keys. }
  split.
  - apply Hdistinct. apply (Permutation_NoDup (Permutation_sym Hkeys)).
    apply created_NoDup. constructor.
  - intros x Hx. apply in_map_iff in Hx as (p & <- & Hp). apply Hincl in Hp.
    apply (in_map fst) in Hp. apply (Permutation_in _ Hkeys) in Hp.
    apply created_In in Hp as [[]|Hp]. exact Hp.
Qed.

(** X14. A rule key listed in [skipKeys] is not tallied (provided
    [translateKey] sends no other rule key to it), yet it still appears in
    the result: a "top" or "percentage" rule for it returns the empty
    selection. *)
Theorem skipped_key_selects_nothing now docs rules dataPath includeStats outputStream cb
    (s s1 : State) answer regole sk fd tk tv (k : string) (r : Rule) :
  fst (transform now docs rules dataPath includeStats outputStream cb s) = Ok answer ->
  resolveRules now docs rules dataPath s = (Ok regole, s1) ->
  this_skipKeys (this s) = Some sk ->
  this_filterData (this s) = Some fd ->
  this_translateKey (this s) = Some tk ->
  this_translateValue (this s) = Some tv ->
  ruleFor k regole = Some r ->
  mode r = Some "top" \/ mode r = Some "percentage" ->
  k <> "__proto__" ->
  includes k sk = true ->
  (forall rk, In rk (map key regole) -> includes rk sk = false -> tk rk <> k) ->
  Obj.own k (selectionsOf answer) = Some [].
Proof.
  intros Hok Hres Hsk Hfd Htk Htv Hr Hmode Hproto Hskip Hnone.
  apply transform_ok_inv in Hok
    as (regole' & s1' & results & out & Hres' & Hagg & Happ & Hanswer).
  rewrite Hres in Hres'. unfold Ok in Hres'. injection Hres' as <- <-.
  assert (Hsel : selectionsOf answer = fst out) by (subst answer; now destruct includeStats).
  rewrite Hsel. clear Hsel Hanswer.
  destruct (applyRules_spec _ _ _ _ _ _ _ Hagg Happ) as [Hin _].
  destruct (aggregated_keys _ _ _ _ _ Hagg) as [Hnd Hkeys].
  assert (Hkey : In k (map fst results)).
  { apply Hkeys. unfold ruleFor in Hr. apply find_some in Hr as [Hr Heq].
    apply String.eqb_eq in Heq. subst k. now apply in_map. }
  destruct (JMap.get k results) as [tally|] eqn:Hget;
    [|unfold JMap.get in Hget; apply own_None in Hget; contradiction].
  pose proof (aggregate_tally _ sk fd tk tv Hsk Hfd Htk Htv _ _ _ _ _ _ Hagg Hget)
    as Htally.
  rewrite (observedFor_none sk fd tk tv k dataPath (map key regole) docs Hnone) in Htally.
  subst tally.
  pose proof (ranked_entry_of _ _ _ _ _ _ _ Hagg Hget Hproto) as Hentry.
  destruct (Hin _ _ Hentry) as (r' & Hr' & -> & _).
  rewrite Hr in Hr'. injection Hr' as <-.
  change (rank (withPercentage (tallyAll [] emptyTally))) with (@nil (string * Entry)).
  unfold ruleSelection, capped, satisfying, JS.slice0.
  destruct Hmode as [-> | ->]; cbn [equals String.eqb option_map].
  - change (equals "top" (Some "top")) with true. cbn. now rewrite firstn_nil.
  - change (equals "top" (Some "percentage")) with false.
    change (equals "percentage" (Some "percentage")) with true. cbn.
    destruct (cap r) as [c|]; [|reflexivity].
    destruct (Qeq_bool c 0); cbn; [reflexivity | now rewrite firstn_nil].
Qed.

(** X15. With the hooks defined and a [translateKey] that sends every rule
    key that is not skipped to a rule key (the identity does), a
    [transform] that gets past its three checks and is given an
    [outputStream] and a [cb] it can call, if any, succeeds when every
    value observed is falsy or has a string form to be counted under, and
    throws a TypeError when one of them has none (an object with an own
    property [toString]). *)
Theorem transform_succeeds now docs rules dataPath includeStats outputStream cb
    (s s1 : State) regole sk fd tk tv :
  pipe docs = false \/ (rules <> None /\ this_rules (this s) <> None) ->
  resolveRules now docs rules dataPath s = (Ok regole, s1) ->
  regole <> [] ->
  option_map hasPipe outputStream <> Some false ->
  option_map hasWrite outputStream <> Some false ->
  cb <> Some false ->
  this_skipKeys (this s) = Some sk ->
  this_filterData (this s) = Some fd ->
  this_translateKey (this s) = Some tk ->
  this_translateValue (this s) = Some tv ->
  (forall rk, In rk (map key regole) -> includes rk sk = false ->
              In (tk rk) (map key regole)) ->
  let observed := map snd (observations sk fd tk tv dataPath (map key regole) docs) in
  (forallb keyable observed = true ->
   exists answer,
     fst (transform now docs rules dataPath includeStats outputStream cb s) = Ok answer) /\
  (forallb keyable observed = false ->
   fst (transform now docs rules dataPath includeStats outputStream cb s)
   = Throw TypeError).
Proof.
  intros Hguard Hres Hne Hos Hwr Hcb Hsk Hfd Htk Htv Hclosed observed. split; intros Hkey.
  - destruct (aggregate_ok (this s) sk fd tk tv Hsk Hfd Htk Htv dataPath
                (map key regole) docs Hclosed Hkey) as [results Hagg].
    destruct (applyRules_total regole includeStats results) as [out Happ].
    { intros k. apply (aggregated_keys _ _ _ _ _ Hagg). }
    eexists. eapply transform_ok_intro; eauto.
  - eapply transform_aggregate_fail; eauto.
    apply (aggregate_fails (this s) sk fd tk tv Hsk Hfd Htk Htv); assumption.
Qed.

End Selected.

Lemma selected_values_observed_witness :
  NoDup ["x"] /\
  forall x, In x ["x"] ->
    In x (seenKeys (@observedFor Lossless [] keepAll sameKey sameValue "a" None
                                 (map key [topRule "a" 1]) xxy)) /\
    Obj.inherits x = false.
Proof.
  apply (@selected_values_observed Lossless 0 xxy (Some [topRule "a" 1]) None false None
           None fresh fresh (Selected [("a", ["x"])]) [topRule "a" 1] [] keepAll sameKey
           sameValue "a" ["x"]); reflexivity.
Defined.

Lemma skipped_key_selects_nothing_witness :
  fst (transform 0 xxy (Some [topRule "a" 1]) None false None None skippingA)
    = Ok (Selected [("a", [])]) /\
  Obj.own "a" (selectionsOf (Selected [("a", [])])) = Some [].
Proof.
  split; [reflexivity|].
  apply (@skipped_key_selects_nothing Lossless 0 xxy (Some [topRule "a" 1]) None false
           None None skippingA skippingA (Selected [("a", [])]) [topRule "a" 1] ["a"]
           keepAll sameKey sameValue "a" (topRule "a" 1)); try reflexivity.
  - left. reflexivity.
  - discriminate.
  - intros rk [<- | []] Hskip. discriminate.
Defined.

Lemma transform_succeeds_witness :
  let observed :=
    map snd (@observations Lossless [] keepAll sameKey sameValue None
                           (map key [topRule "a" 1]) xxy) in
  (forallb keyable observed = true ->
   exists answer,
     fst (transform 0 xxy (Some [topRule "a" 1]) None false (Some writableSink)
                    (Some true) fresh) = Ok answer) /\
  (forallb keyable observed = false ->
   fst (transform 0 xxy (Some [topRule "a" 1]) None false (Some writableSink)
                  (Some true) fresh) = Throw TypeError).
Proof.
  apply (@transform_succeeds Lossless 0 xxy (Some [topRule "a" 1]) None false
           (Some writableSink) (Some true) fresh fresh [topRule "a" 1] [] keepAll
           sameKey sameValue); try reflexivity.
  - left. reflexivity.
  - discriminate.
  - discriminate.
  - discriminate.
  - discriminate.
  - intros rk Hin _. exact Hin.
Defined.

(** A document whose value is an object with its own [toString] has no
    property key: the call throws at [root.values[value]]. *)
Example unkeyable_value_throws :
  JS.converts (JS.VObj [("toString", JS.VNum 1)]) = false /\
  fst (transform 0 (docsOf [doc1 "a" (JS.VObj [("toString", JS.VNum 1)])])
                 (Some [topRule "a" 1]) None false None None fresh)
  = Throw TypeError /\
  fst (transform 0 (docsOf [doc1 "a" (JS.VObj [("b", JS.VNum 1)])])
                 (Some [topRule "a" 1]) None false None None fresh)
  = Ok (Selected [("a", ["[object Object]"])]).
Proof. repeat split. Qed.

(** ** Array-valued fields *)

Section ArrayFields.
Context {E : External}.

(** X16. A document whose field holds an array is tallied like the sequence
    of documents holding its elements one by one (elements that are not
    arrays themselves): each element is an observation of its own. *)
Theorem array_elements_are_observations (t : Synthesizer) sk fd tk tv dataPath
    (rk : string) (doc : JS.value) (vs ds : list JS.value) (p p' : bool)
    (results : Results) :
  this_skipKeys t = Some sk ->
  this_filterData t = Some fd ->
  this_translateKey t = Some tk ->
  this_translateValue t = Some tv ->
  get (project dataPath doc) (tk rk) = JS.VArr vs ->
  Forall2 (fun d v => get (project dataPath d) (tk rk) = v /\ JS.isArray v = false) ds vs ->
  aggregate t dataPath [rk] (mkDocs p [doc]) results
  = aggregate t dataPath [rk] (mkDocs p' ds) results.
Proof.
  intros Hsk Hfd Htk Htv Hdoc Hds.
  rewrite !(aggregate_observations t sk fd tk tv Hsk Hfd Htk Htv).
  f_equal. unfold observations. cbn [items flat_map]. rewrite !app_nil_r.
  unfold observationsOf at 1. rewrite Hdoc.
  destruct (includes rk sk) eqn:Hskip.
  { clear Hds. induction ds as [|d ds IH]; cbn; [reflexivity|].
    unfold observationsOf at 1. now rewrite Hskip. }
  clear Hdoc.
  induction Hds as [|d v ds vs [Hd Hv] Hrest IH]; [reflexivity|].
  cbn [filter flat_map]. rewrite app_nil_r.
  unfold observationsOf at 1. rewrite Hskip, Hd.
  destruct v as [| | | | |inner|]; try discriminate Hv.
  all: destruct (fd (tk rk) _); cbn [negb map app]; rewrite IH; reflexivity.
Qed.

End ArrayFields.

Lemma array_elements_are_observations_witness :
  aggregate (instanceOf emptyConfig) None ["a"] (docsOf [arrayDoc]) (initResults ["a"])
  = aggregate (instanceOf emptyConfig) None ["a"] xy (initResults ["a"]).
Proof.
  apply (@array_elements_are_observations Lossless (instanceOf emptyConfig) [] keepAll
           sameKey sameValue None "a" arrayDoc [JS.VStr "x"; JS.VStr "y"]
           [doc1 "a" (JS.VStr "x"); doc1 "a" (JS.VStr "y")] false false
           (initResults ["a"])); try reflexivity.
  repeat constructor.
Defined.

(** ** Instances built from a saved model *)

Section FromModel.
Context {E : External}.

Lemma transform_without_skipKeys now docs given r dataPath includeStats outputStream cb
    (s : State) (d : JS.value) (ds : list JS.value) :
  this_skipKeys (this s) = None ->
  pipe docs = false ->
  items docs = d :: ds ->
  option_map hasPipe outputStream <> Some false ->
  fst (transform now docs (Some (r :: given)) dataPath includeStats outputStream cb s)
  = Throw TypeError.
Proof.
  intros Hskip Hp Hitems Hos.
  unfold transform, mbind, self, resolveRules, ret, lift, Ok. cbv beta iota.
  cbn [checkStream]. rewrite Hp. cbn [andb List.length Nat.eqb]. cbv beta iota.
  assert (Ho : isSome outputStream
               && negb (checkStream (option_map hasPipe outputStream)) = false)
    by (destruct outputStream as [[[|] hw]|]; cbn in *; congruence).
  rewrite Ho. unfold callbackRejected. rewrite andb_false_r.
  unfold aggregate. rewrite Hitems. cbn [map forEach]. unfold tallyField at 1.
  rewrite Hskip. reflexivity.
Qed.

(** X17. An instance constructed from the artifact that [getModel] produced
    (whatever the instance it came from, with a codec that loses nothing)
    is created without error but has no [skipKeys]; each [transform] of a
    non-empty array with rules passed to the call then fails with a
    TypeError, at [this.skipKeys.includes]. *)
Theorem instance_from_model_cannot_transform (c : Config) (t : Synthesizer)
    (now0 now : Z) docs given r dataPath includeStats outputStream cb
    (d : JS.value) (ds : list JS.value)
    (Hzip : forall x : Text, unzipSync (gzipSync x) = Some x)
    (Heval : forall m : ModelObject, evalModel (serialize m) = Some (DecodedObject m)) :
  cfg_model c = Some (fst (getModel now0 t)) ->
  pipe docs = false ->
  items docs = d :: ds ->
  option_map hasPipe outputStream <> Some false ->
  fst (new now c) = Ok tt /\
  this_rules (this (snd (new now c))) = this_rules t /\
  this_skipKeys (this (snd (new now c))) = None /\
  fst (transform now docs (Some (r :: given)) dataPath includeStats outputStream cb
                 (snd (new now c)))
  = Throw TypeError.
Proof.
  intros Hmodel Hp Hitems Hos.
  assert (Hnew : fst (new now c) = Ok tt /\
                 this_rules (this (snd (new now c))) = this_rules t /\
                 this_skipKeys (this (snd (new now c))) = None).
  { unfold new, construct. rewrite Hmodel.
    unfold extractDataFromModel, getModel. unfold mbind, lift, update, ret.
    cbn [fst snd]. rewrite Hzip. cbn [Ok]. rewrite Heval. cbn.
    rewrite asRules_ofRules. repeat split. }
  destruct Hnew as (Hok & Hrules & Hskip). repeat split; auto.
  now apply transform_without_skipKeys with (d := d) (ds := ds).
Qed.

End FromModel.

Lemma instance_from_model_cannot_transform_witness :
  fst (new 9 fromSaved) = Ok tt /\
  this_rules (this (snd (new 9 fromSaved))) = this_rules skippingB /\
  this_skipKeys (this (snd (new 9 fromSaved))) = None /\
  fst (transform 9 xxy (Some [topRule "a" 1]) None false None None
                 (snd (new 9 fromSaved)))
  = Throw TypeError.
Proof.
  apply (@instance_from_model_cannot_transform Lossless fromSaved skippingB 5 9 xxy []
           (topRule "a" 1) None false None None
           (doc1 "a" (JS.VStr "x"))
           [doc1 "a" (JS.VStr "x"); doc1 "a" (JS.VStr "y")]);
    try reflexivity.
  discriminate.
Defined.

(** ** Rule derivation *)

Section Derivation.
Context {E : External}.

Lemma setAdd_spec x acc :
  NoDup acc ->
  NoDup (setAdd x acc) /\ forall k, In k (setAdd x acc) <-> In k acc \/ k = x.
Proof.
  intros Hnd. unfold setAdd. destruct (existsb (String.eqb x) acc) eqn:Hex.
  - apply existsb_In in Hex. split; [exact Hnd|]. intros k. split; [tauto|].
    intros [H | ->]; assumption.
  - split.
    + apply (Permutation_NoDup (Permutation_cons_append acc x)).
      constructor; [|exact Hnd]. intros Hin. apply existsb_In in Hin. congruence.
    + intros k. rewrite in_app_iff. cbn [In]. split.
      * intros [H | [H | []]]; auto.
      * intros [H | H]; auto.
Qed.

Lemma fold_setAdd ks acc :
  NoDup acc ->
  NoDup (fold_left (fun s k => setAdd k s) ks acc) /\
  forall k, In k (fold_left (fun s k => setAdd k s) ks acc) <-> In k acc \/ In k ks.
Proof.
  revert acc. induction ks as [|x ks IH]; intros acc Hnd; cbn [fold_left].
  - split; [exact Hnd|]. intros k. cbn [In]. tauto.
  - destruct (setAdd_spec x acc Hnd) as [Hnd' Hin'].
    destruct (IH _ Hnd') as [H1 H2]. split; [exact H1|].
    intros k. rewrite H2, Hin'. cbn [In]. split.
    + intros [[H | H] | H]; auto.
    + intros [H | [H | H]]; auto.
Qed.

Lemma collected_keys dataPath ds acc out :
  forEach (fun doc rulesSet =>
             ks <- objectKeys (project dataPath doc) ;;
             Ok (fold_left (fun s k => setAdd k s) ks rulesSet)) ds acc = Ok out ->
  NoDup acc ->
  NoDup out /\
  forall k, In k out <->
            In k acc \/
            exists doc ks, In doc ds /\ objectKeys (project dataPath doc) = Ok ks
                           /\ In k ks.
Proof.
  revert acc. induction ds as [|d ds IH]; intros acc Hrun Hnd; cbn [forEach] in Hrun.
  - unfold Ok in Hrun. injection Hrun as <-. split; [exact Hnd|].
    intros k. split; [auto|]. intros [H | (doc & ks & [] & _)]. exact H.
  - destruct (objectKeys (project dataPath d)) as [ks|e] eqn:Hks; cbn [bind] in Hrun;
      [|discriminate].
    unfold Ok in Hrun. cbv beta iota in Hrun.
    destruct (fold_setAdd ks acc Hnd) as [Hnd' Hin'].
    destruct (IH _ Hrun Hnd') as [H1 H2]. split; [exact H1|].
    intros k. rewrite H2, Hin'. split.
    + intros [[H | H] | (doc & ks' & Hd & Hk & Hin)]; [now left | |].
      * right. exists d, ks. cbn [In]. auto.
      * right. exists doc, ks'. cbn [In]. auto.
    + intros [H | (doc & ks' & [<- | Hd] & Hk & Hin)]; [now left; left | |].
      * rewrite Hks in Hk. unfold Ok in Hk. injection Hk as <-. left. now right.
      * right. exists doc, ks'. auto.
Qed.

Lemma objectKeys_fails v e : objectKeys v = Throw e <-> nullish v = true /\ e = TypeError.
Proof.
  destruct v; cbn; unfold Throw, Ok; split; try discriminate;
    try (intros [H _]; discriminate); try (intros H; injection H as <-; auto);
    intros [_ ->]; reflexivity.
Qed.

Lemma collected_keys_fail dataPath ds acc :
  (exists e,
     forEach (fun doc rulesSet =>
                ks <- objectKeys (project dataPath doc) ;;
                Ok (fold_left (fun s k => setAdd k s) ks rulesSet)) ds acc = Throw e)
  <-> exists doc, In doc ds /\ nullish (project dataPath doc) = true.
Proof.
  revert acc. induction ds as [|d ds IH]; intros acc; cbn [forEach].
  - split; [intros [e H]; discriminate | intros (doc & [] & _)].
  - destruct (objectKeys (project dataPath d)) as [ks|e] eqn:Hks; cbn [bind].
    + unfold Ok. cbv beta iota.
      destruct (IH (fold_left (fun s k => setAdd k s) ks acc)) as [IH1 IH2]. split.
      * intros He. destruct (IH1 He) as (doc & Hin & Hn). exists doc. cbn [In]. auto.
      * intros (doc & [<- | Hin] & Hn); [|apply IH2; now exists doc].
        assert (Hf : objectKeys (project dataPath d) = Throw TypeError)
          by (apply objectKeys_fails; auto).
        rewrite Hks in Hf. discriminate.
    + apply objectKeys_fails in Hks as [Hn ->]. split.
      * intros _. exists d. cbn [In]. auto.
      * intros _. now exists TypeError.
Qed.

Lemma derived_from_keys (t : Synthesizer) sk fd ks acc :
  this_skipKeys t = Some sk ->
  this_filterData t = Some fd ->
  forEach (fun key rules =>
             skipKeys <- defined (this_skipKeys t) ;;
             if includes key skipKeys then Ok rules
             else
               filterData <- defined (this_filterData t) ;;
               if filterData key JS.VUndefined then Ok rules
               else Ok (rules ++ [mkRule key (this_defaultRuleValue t)
                                         (this_defaultRuleMode t) None None]))
          ks acc
  = Ok (acc ++ map (defaultRule t) (filter (derivable sk fd) ks)).
Proof.
  intros Hsk Hfd.
  match goal with |- forEach ?f _ _ = _ => set (F := f) end.
  assert (Hstep : forall k rules,
             F k rules = Ok (if derivable sk fd k then rules ++ [defaultRule t k]
                             else rules)).
  { intros k rules. subst F. cbv beta. rewrite Hsk, Hfd. unfold derivable. cbn.
    destruct (includes k sk); cbn; [reflexivity|].
    destruct (fd k JS.VUndefined); reflexivity. }
  revert acc. induction ks as [|k ks IH]; intros acc; cbn [forEach filter map].
  - now rewrite app_nil_r.
  - rewrite Hstep. unfold Ok at 1. cbn [bind]. rewrite IH.
    destruct (derivable sk fd k); cbn [map]; [now rewrite <- app_assoc | reflexivity].
Qed.

Lemma buildDefaultRules_ok (t : Synthesizer) docs dataPath sk fd derived :
  this_skipKeys t = Some sk ->
  this_filterData t = Some fd ->
  _buildDefaultRules t docs dataPath = Ok derived ->
  exists rulesSet,
    NoDup rulesSet /\
    (forall k, In k rulesSet <-> documentKey dataPath docs k) /\
    derived = map (defaultRule t) (filter (derivable sk fd) rulesSet).
Proof.
  intros Hsk Hfd. unfold _buildDefaultRules.
  match goal with |- context [forEach ?f (items docs) []] =>
    destruct (forEach f (items docs) []) as [rulesSet|e] eqn:Hkeys
  end; cbn [bind]; [|discriminate].
  rewrite (derived_from_keys t sk fd rulesSet [] Hsk Hfd). cbn [app].
  intros H. unfold Ok in H. injection H as <-.
  destruct (collected_keys _ _ _ _ Hkeys (NoDup_nil _)) as [Hnd Hin].
  exists rulesSet. split; [exact Hnd|]. split; [|reflexivity].
  intros k. rewrite Hin. unfold documentKey. split; [|auto].
  intros [[] | H]. exact H.
Qed.

(** X18. When rule derivation succeeds, it yields one rule per distinct key
    of the documents (taken under [dataPath]) that is neither in [skipKeys]
    nor rejected by [filterData(key)]; every such rule carries the
    instance's default threshold and mode and neither operator nor cap. *)
Theorem derived_rules_characterized (t : Synthesizer) docs dataPath sk fd derived :
  this_skipKeys t = Some sk ->
  this_filterData t = Some fd ->
  _buildDefaultRules t docs dataPath = Ok derived ->
  NoDup (map key derived) /\
  (forall k, In k (map key derived) <->
             documentKey dataPath docs k /\ includes k sk = false
             /\ fd k JS.VUndefined = false) /\
  (forall r, In r derived -> r = defaultRule t (key r)).
Proof.
  intros Hsk Hfd Hb.
  destruct (buildDefaultRules_ok t docs dataPath sk fd derived Hsk Hfd Hb)
    as (rulesSet & Hnd & Hin & ->).
  assert (Hkeys : forall l, map key (map (defaultRule t) l) = l).
  { intros l. rewrite map_map. cbn. apply map_id. }
  rewrite Hkeys. split; [now apply NoDup_filter|]. split.
  - intros k. rewrite filter_In, Hin. unfold derivable.
    rewrite andb_true_iff, !negb_true_iff. tauto.
  - intros r Hr. apply in_map_iff in Hr as (k & <- & _). reflexivity.
Qed.

(** X19. Rule derivation fails exactly when one of the documents, taken
    under [dataPath], is null or undefined; a [transform] of an array that
    has to derive its rules then fails with a TypeError, its state
    untouched. *)
Theorem derivation_fails_on_null_document (t : Synthesizer) docs dataPath sk fd :
  this_skipKeys t = Some sk ->
  this_filterData t = Some fd ->
  (_buildDefaultRules t docs dataPath = Throw TypeError <->
   exists doc, In doc (items docs) /\ nullish (project dataPath doc) = true) /\
  (forall now includeStats outputStream cb (s : State),
     this s = t -> pipe docs = false -> this_rules t = None ->
     (exists doc, In doc (items docs) /\ nullish (project dataPath doc) = true) ->
     transform now docs None dataPath includeStats outputStream cb s
     = (Throw TypeError, s)).
Proof.
  intros Hsk Hfd.
  assert (Hiff : _buildDefaultRules t docs dataPath = Throw TypeError <->
                 exists doc, In doc (items docs)
                             /\ nullish (project dataPath doc) = true).
  { rewrite <- (collected_keys_fail dataPath (items docs) []).
    unfold _buildDefaultRules.
    match goal with |- context [forEach ?f (items docs) []] =>
      destruct (forEach f (items docs) []) as [rulesSet|e] eqn:Hkeys
    end; cbn [bind].
    - rewrite (derived_from_keys t sk fd rulesSet [] Hsk Hfd). split.
      + discriminate.
      + intros [e H]. discriminate.
    - split.
      + intros _. now exists e.
      + intros _. pose proof (buildDefaultRules_throws t docs dataPath e) as He.
        unfold _buildDefaultRules in He. rewrite Hkeys in He. cbn [bind] in He.
        now rewrite (He eq_refl). }
  split; [exact Hiff|].
  intros now includeStats outputStream cb s Hthis Hp Hrules Hnull.
  apply Hiff in Hnull.
  unfold transform, resolveRules. unfold mbind, self, lift, Ok. cbv beta iota.
  cbn [checkStream fst snd]. rewrite Hp. cbn [andb]. cbv beta iota.
  rewrite Hthis, Hrules, Hnull. reflexivity.
Qed.

End Derivation.

Lemma derived_rules_characterized_witness :
  let derived := [defaultRule skippingB "a"; defaultRule skippingB "c"] in
  NoDup (map key derived) /\
  (forall k, In k (map key derived) <->
             @documentKey Lossless None abDocs k /\ includes k ["b"] = false
             /\ keepAll k JS.VUndefined = false) /\
  (forall r, In r derived -> r = defaultRule skippingB (key r)).
Proof.
  apply (@derived_rules_characterized Lossless skippingB abDocs None ["b"] keepAll);
    reflexivity.
Defined.

Lemma derivation_fails_on_null_document_witness :
  (_buildDefaultRules (instanceOf emptyConfig) nullDocs None = Throw TypeError <->
   exists doc, In doc (items nullDocs) /\ nullish (@project Lossless None doc) = true) /\
  (forall now includeStats outputStream cb (s : @State Lossless),
     this s = instanceOf emptyConfig -> pipe nullDocs = false ->
     this_rules (instanceOf emptyConfig) = None ->
     (exists doc, In doc (items nullDocs) /\ nullish (@project Lossless None doc) = true) ->
     transform now nullDocs None None includeStats outputStream cb s
     = (Throw TypeError, s)).
Proof.
  apply (@derivation_fails_on_null_document Lossless (instanceOf emptyConfig) nullDocs
           None [] keepAll); reflexivity.
Defined.

(** ** Repeated calls *)

Section Repeated.
Context {E : External}.

Lemma transform_ok_args now docs rules dataPath includeStats outputStream cb
    (s : State) answer :
  fst (transform now docs rules dataPath includeStats outputStream cb s) = Ok answer ->
  option_map hasPipe outputStream <> Some false /\
  option_map hasWrite outputStream <> Some false /\
  cb <> Some false.
Proof.
  unfold transform, mbind, self, lift, Ok. cbv beta iota.
  destruct (checkStream (Some (pipe docs)) && _); [discriminate|].
  destruct (resolveRules now docs rules dataPath s) as [[regole|e] s1]; [|discriminate].
  destruct (List.length regole =? 0)%nat; [discriminate|].
  destruct (isSome outputStream
            && negb (checkStream (option_map hasPipe outputStream))) eqn:Hos;
    [discriminate|].
  destruct (callbackRejected cb); [discriminate|].
  destruct (aggregate (this s1) dataPath (map key regole) docs
              (initResults (map key regole))) as [results|e]; [|discriminate].
  destruct (applyRules regole includeStats (sortResults (computePercentage results)))
    as [out|e]; [|discriminate].
  unfold effect, when, ret, throw.
  destruct outputStream as [[[|] [|]]|], cb as [[|]|]; cbn in *; try discriminate;
    intros _; repeat split; congruence.
Qed.

(** Resolving the rules again, in a state whose instance is the one the
    first resolution left, gives the same rules and changes nothing. *)
Lemma resolveRules_again now now' docs rules dataPath (s s1 s' : State) regole :
  resolveRules now docs rules dataPath s = (Ok regole, s1) ->
  this s' = this s1 ->
  resolveRules now' docs rules dataPath s' = (Ok regole, s').
Proof.
  intros Hres Hthis. pose proof Hres as Hcases.
  apply resolveRules_cases in Hcases
    as [[-> Hwhy] | (-> & _ & _ & derived & _ & Hr & ->)].
  - revert Hres. unfold resolveRules. destruct rules as [given|].
    { unfold ret. intros H. now injection H as <-. }
    unfold mbind, self. cbn [fst snd]. cbv beta iota. unfold Ok. cbv beta iota.
    rewrite Hthis.
    destruct (this_rules (this s)) as [configured|] eqn:Hrules.
    { unfold ret, Ok. intros H. now injection H as <-. }
    unfold lift. destruct (_buildDefaultRules (this s) docs dataPath) as [auto|e];
      [|discriminate].
    destruct (this_keepAutogeneratedRules (this s)) as [[|]|] eqn:Hkeep; cbn.
    + destruct Hwhy as [H | [H | [H | [e H]]]]; try congruence. discriminate.
    + intros H. now injection H as <-.
    + intros H. now injection H as <-.
  - unfold Ok in Hr. injection Hr as ->. cbn [this] in Hthis.
    unfold resolveRules, mbind, self. cbn [fst snd]. cbv beta iota.
    unfold Ok. cbv beta iota. rewrite Hthis. reflexivity.
Qed.

(** X20. A [transform] of an array that succeeded succeeds again when
    repeated on the instance it left, with the same result, provided no
    value sent to a tally in the first call was named like a member
    inherited from [Object.prototype] (for such a value the increment is a
    write on that member, which later reads of the documents can see): the
    tallies start afresh in each call, and rules derived and kept by the
    first call are the ones the second call resolves to. *)
Theorem transform_repeatable now now' docs rules dataPath includeStats outputStream cb
    (s s1 : State) answer regole sk fd tk tv :
  pipe docs = false ->
  fst (transform now docs rules dataPath includeStats outputStream cb s) = Ok answer ->
  resolveRules now docs rules dataPath s = (Ok regole, s1) ->
  this_skipKeys (this s) = Some sk ->
  this_filterData (this s) = Some fd ->
  this_translateKey (this s) = Some tk ->
  this_translateValue (this s) = Some tv ->
  shadowed (map snd (observations sk fd tk tv dataPath (map key regole) docs)) = [] ->
  fst (transform now' docs rules dataPath includeStats outputStream cb
                 (snd (transform now docs rules dataPath includeStats outputStream cb s)))
  = Ok answer.
Proof.
  intros Hp Hok Hres0 _ _ _ _ _.
  destruct (transform_ok_args _ _ _ _ _ _ _ _ _ Hok) as (Hos & Hwr & Hcb).
  destruct (transform_ok_inv _ _ _ _ _ _ _ _ _ Hok)
    as (regole0 & s0 & results & out & Hres & Hagg & Happ & ->).
  rewrite Hres0 in Hres. injection Hres as <- <-.
  destruct (transform_ok_full _ _ _ _ _ _ _ _ _ Hok)
    as (regole' & s1' & Hres' & Hne & Hs').
  rewrite Hres0 in Hres'. injection Hres' as <- <-.
  assert (Hthis : this (snd (transform now docs rules dataPath includeStats
                                       outputStream cb s)) = this s1)
    by (rewrite Hs'; reflexivity).
  pose proof (resolveRules_again now now' docs rules dataPath s s1 _ regole Hres0 Hthis)
    as Hres2.
  eapply transform_ok_intro; eauto.
  rewrite Hthis.
  apply resolveRules_this in Hres0 as [-> | [rs ->]]; exact Hagg.
Qed.

End Repeated.

Lemma transform_repeatable_witness :
  fst (transform 1 xxy None None false None None
                 (snd (transform 0 xxy None None false None None keeping)))
  = Ok (Selected [("a", ["x"; "y"])]).
Proof.
  apply (@transform_repeatable Lossless 0 1 xxy None None false None None keeping
           (snd (resolveRules 0 xxy None None keeping)) (Selected [("a", ["x"; "y"])])
           [defaultRule (this keeping) "a"] [] keepAll sameKey sameValue);
    reflexivity.
Defined.

(** ** Saving and loading *)

Section Saving.
Context {E : External}.

Lemma setParams_model now rules skipFields filterData translateKey translateValue
    (s : State) :
  this_model (this (snd (setParams now rules skipFields filterData translateKey
                                   translateValue s)))
  = this_model (this s).
Proof.
  destruct s as [t tr].
  destruct rules, skipFields, filterData, translateKey, translateValue; reflexivity.
Qed.

Lemma saveModel_this now dir generateJSONCopy (s : State) :
  this (snd (saveModel now dir generateJSONCopy s)) = this s.
Proof.
  unfold saveModel. destruct dir as [d|]; [|reflexivity].
  destruct (d =? ""); [reflexivity|].
  unfold mbind, self, Ok. cbv beta iota.
  destruct (truthyModel (this_model (this s))); [|reflexivity].
  destruct (getModel now (this s)) as [compressed model].
  unfold when, writeFileSync, effect, throw, ret, Ok.
  destruct generateJSONCopy; cbv beta iota; repeat destruct (writable _); reflexivity.
Qed.

Lemma use_model (u : Use) (s : State) : this_model (this (use u s)) = this_model (this s).
Proof.
  destruct u as [now docs rules dataPath includeStats outputStream cb
                | now rules skipFields filterData translateKey translateValue
                | | now dir copy]; cbn [use].
  - pose proof (transform_this_cases now docs rules dataPath includeStats
                  outputStream cb s) as Hcases.
    cbv zeta in Hcases. destruct Hcases as [-> | (_ & _ & _ & derived & _ & ->)];
      reflexivity.
  - apply setParams_model.
  - reflexivity.
  - now rewrite saveModel_this.
Qed.

Lemma after_model (us : list Use) (s : State) :
  this_model (this (after us s)) = this_model (this s).
Proof.
  revert s. induction us as [|u us IH]; intros s; [reflexivity|].
  cbn [after fold_left]. fold (after us (use u s)). rewrite IH. apply use_model.
Qed.

Lemma saveModel_without_model now dir generateJSONCopy (s : State) :
  this_model (this s) = None ->
  saveModel now dir generateJSONCopy s
  = (Throw (if truthyString dir then NoModelToSave else NoPathToSave), s).
Proof.
  intros Hmodel. unfold saveModel. destruct dir as [d|]; [|reflexivity].
  cbn [truthyString]. destruct (d =? ""); [reflexivity|].
  unfold mbind, self, Ok. cbv beta iota. rewrite Hmodel. reflexivity.
Qed.

(** X21. An instance constructed from plain options (no [model], no [path])
    cannot be saved, whatever use has been made of it since through
    [transform], [setParams], [getRules] or [saveModel]: none of them sets
    [this.model], so [saveModel] throws "No Model To Save" (or "No Path to
    Save Model" when [dir] is missing or empty) and changes nothing. *)
Theorem plain_instance_never_saved (c : Config) (now : Z) (us : list Use)
    (now' : Z) (dir : option string) (generateJSONCopy : bool) :
  cfg_model c = None ->
  truthyString (cfg_path c) = false ->
  fst (new now c) = Ok tt /\
  saveModel now' dir generateJSONCopy (after us (snd (new now c)))
  = (Throw (if truthyString dir then NoModelToSave else NoPathToSave),
     after us (snd (new now c))).
Proof.
  intros Hmodel Hpath.
  assert (Hnew : fst (new now c) = Ok tt /\ this_model (this (snd (new now c))) = None).
  { unfold new, construct. rewrite Hmodel, Hpath. split; reflexivity. }
  destruct Hnew as [Hok Hnone]. split; [exact Hok|].
  apply saveModel_without_model. now rewrite after_model.
Qed.

(** What [saveModel] does when it succeeds. *)
Lemma saveModel_ok now dir generateJSONCopy (s : State) compressed model :
  fst (saveModel now dir generateJSONCopy s) = Ok (compressed, model) ->
  (compressed, model) = getModel now (this s) /\
  exists d front,
    dir = Some d /\
    trace (snd (saveModel now dir generateJSONCopy s))
    = front ++ [WriteFile (artifactPath d model) (inl compressed);
                Emit_model_save compressed model].
Proof.
  unfold saveModel. destruct dir as [d|]; [|discriminate].
  destruct (d =? ""); [discriminate|].
  unfold mbind, self, Ok. cbv beta iota.
  destruct (truthyModel (this_model (this s))); [|discriminate].
  destruct (getModel now (this s)) as [compressed0 model0].
  unfold when, writeFileSync, effect, throw, ret, Ok, artifactPath.
  destruct generateJSONCopy; cbv beta iota.
  - destruct (writable _); [|discriminate]. cbv beta iota.
    destruct (writable _); [|discriminate]. cbn [fst snd trace].
    intros H. injection H as <- <-. split; [reflexivity|].
    match goal with |- context [WriteFile ?p (inr ?m)] =>
      exists d, (trace s ++ [WriteFile p (inr m)])
    end.
    split; [reflexivity|]. symmetry. apply (app_assoc _ [_] [_]).
  - destruct (writable _); [|discriminate]. cbn [fst snd trace].
    intros H. injection H as <- <-. split; [reflexivity|].
    exists d, (trace s). split; [reflexivity|].
    symmetry. apply (app_assoc _ [_] [_]).
Qed.

(** X22. What [saveModel] writes, [loadModel] reads back (with a codec that
    loses nothing): a successful [saveModel] ends by writing the artifact to
    [<dir>/<name>.j2s] and emitting "model_save"; loading a file that holds
    that artifact into any instance succeeds, gives it the saved name,
    rules, hooks and defaults, keeps the decoded object as [this.model] and
    emits "model_loaded" (after logging the model when verbose).  Only
    [skipKeys] is not restored: it comes back undefined. *)
Theorem saved_model_loads_back now dir generateJSONCopy (s : State) compressed model
    (Hzip : forall x : Text, unzipSync (gzipSync x) = Some x)
    (Heval : forall m : ModelObject, evalModel (serialize m) = Some (DecodedObject m)) :
  fst (saveModel now dir generateJSONCopy s) = Ok (compressed, model) ->
  exists d front,
    dir = Some d /\
    trace (snd (saveModel now dir generateJSONCopy s))
    = front ++ [WriteFile (artifactPath d model) (inl compressed);
                Emit_model_save compressed model] /\
    forall (path : string) (s2 : State),
      readFileSync path = Some compressed ->
      let s3 := snd (loadModel path s2) in
      fst (loadModel path s2) = Ok tt /\
      this_name (this s3) = this_name (this s) /\
      this_rules (this s3) = this_rules (this s) /\
      this_filterData (this s3) = this_filterData (this s) /\
      this_translateKey (this s3) = this_translateKey (this s) /\
      this_translateValue (this s3) = this_translateValue (this s) /\
      this_defaultRuleMode (this s3) = this_defaultRuleMode (this s) /\
      this_defaultRuleValue (this s3) = this_defaultRuleValue (this s) /\
      this_defaultRuleOperator (this s3) = this_defaultRuleOperator (this s) /\
      this_keepAutogeneratedRules (this s3) = this_keepAutogeneratedRules (this s) /\
      this_skipKeys (this s3) = None /\
      this_verbose (this s3) = this_verbose (this s2) /\
      this_model (this s3) = Some (DecodedModel (DecodedObject model)) /\
      trace s3 = trace s2
                 ++ (if this_verbose (this s2)
                     then [ConsoleLog (DecodedObject model)] else [])
                 ++ [Emit_model_loaded (DecodedObject model)].
Proof.
  intros Hok. destruct (saveModel_ok _ _ _ _ _ _ Hok) as (Hget & d & front & Hd & Htr).
  exists d, front. split; [exact Hd|]. split; [exact Htr|].
  intros path s2 Hfile s3. subst s3.
  assert (Hc : compressed = fst (getModel now (this s))) by now rewrite <- Hget.
  assert (Hm : model = snd (getModel now (this s))) by now rewrite <- Hget.
  unfold loadModel. rewrite Hfile, Hc.
  unfold extractDataFromModel, getModel. unfold mbind, lift, update, self, ret, Ok.
  cbn [fst snd]. rewrite Hzip. cbv beta iota. rewrite Heval. cbv beta iota.
  cbn [fst snd this this_verbose].
  destruct (this_verbose (this s2)) eqn:Hv; cbn.
  all: rewrite asRules_ofRules, asString_ofString, !asNumber_ofNumber,
         asBoolean_ofBoolean.
  all: rewrite Hm; unfold getModel; cbn [snd].
  all: destruct (this_name (this s)), (this_filterData (this s)),
         (this_translateKey (this s)), (this_translateValue (this s)),
         (this_defaultRuleMode (this s)), (this_defaultRuleOperator (this s));
    repeat split; rewrite <- ?app_assoc; reflexivity.
Qed.

End Saving.

Lemma plain_instance_never_saved_witness :
  fst (new 0 namedConfig) = Ok tt /\
  saveModel 3 (Some "out") true (after someUses (snd (new 0 namedConfig)))
  = (Throw NoModelToSave, after someUses (snd (new 0 namedConfig))).
Proof.
  apply (@plain_instance_never_saved Lossless namedConfig 0 someUses 3 (Some "out") true);
    reflexivity.
Defined.

Lemma saved_model_loads_back_witness :
  exists d front,
    Some "out" = Some d /\
    trace (snd (saveModel 7 (Some "out") false storedState))
    = front ++ [@WriteFile Stored (artifactPath d savedModel) (inl savedModel);
                @Emit_model_save Stored savedModel savedModel] /\
    forall (path : string) (s2 : @State Stored),
      @readFileSync Stored path = Some savedModel ->
      let s3 := snd (loadModel path s2) in
      fst (loadModel path s2) = Ok tt /\
      this_name (this s3) = this_name (this storedState) /\
      this_rules (this s3) = this_rules (this storedState) /\
      this_filterData (this s3) = this_filterData (this storedState) /\
      this_translateKey (this s3) = this_translateKey (this storedState) /\
      this_translateValue (this s3) = this_translateValue (this storedState) /\
      this_defaultRuleMode (this s3) = this_defaultRuleMode (this storedState) /\
      this_defaultRuleValue (this s3) = this_defaultRuleValue (this storedState) /\
      this_defaultRuleOperator (this s3) = this_defaultRuleOperator (this storedState) /\
      this_keepAutogeneratedRules (this s3)
      = this_keepAutogeneratedRules (this storedState) /\
      this_skipKeys (this s3) = None /\
      this_verbose (this s3) = this_verbose (this s2) /\
      this_model (this s3) = Some (DecodedModel (DecodedObject savedModel)) /\
      trace s3 = trace s2
                 ++ (if this_verbose (this s2)
                     then [ConsoleLog (DecodedObject savedModel)] else [])
                 ++ [Emit_model_loaded (DecodedObject savedModel)].
Proof.
  apply (@saved_model_loads_back Stored 7 (Some "out") false storedState
           savedModel savedModel); reflexivity.
Defined.

(** ** What the rules' fields do *)

Section RuleFields.
Context {E : External}.

Lemma key_bare r : key (bare r) = key r.
Proof. unfold bare. destruct (equals "top" (mode r)); reflexivity. Qed.

Lemma find_bare k regole :
  find (fun f => key f =? k) (map bare regole)
  = option_map bare (find (fun f => key f =? k) regole).
Proof.
  induction regole as [|r rs IH]; cbn [map find option_map]; [reflexivity|].
  rewrite key_bare. destruct (key r =? k); [reflexivity | exact IH].
Qed.

Lemma applyRule_bare regole includeStats kv out :
  applyRule (map bare regole) includeStats kv out = applyRule regole includeStats kv out.
Proof.
  unfold applyRule. rewrite find_bare.
  destruct (find (fun f => key f =? fst kv) regole) as [r|]; cbn [option_map];
    [|reflexivity].
  unfold defined, bind, Ok. cbv beta iota. unfold bare.
  destruct (equals "top" (mode r)) eqn:Htop; [|rewrite Htop; reflexivity].
  cbn [mode threshold]. rewrite Htop. reflexivity.
Qed.

(** X23. The [operator] and the [cap] of a "top" rule are never read: a
    call whose "top" rules are stripped of both has the same outcome and
    the same effects. *)
Theorem top_rule_ignores_operator_and_cap now docs given dataPath includeStats
    outputStream cb (s : State) :
  transform now docs (Some (map bare given)) dataPath includeStats outputStream cb s
  = transform now docs (Some given) dataPath includeStats outputStream cb s.
Proof.
  assert (Hk : map key (map bare given) = map key given).
  { rewrite map_map. apply map_ext. apply key_bare. }
  assert (Hr : forall sorted,
             applyRules (map bare given) includeStats sorted
             = applyRules given includeStats sorted).
  { intros sorted. unfold applyRules. apply forEach_ext. intros kv out.
    apply applyRule_bare. }
  unfold transform, resolveRules. unfold mbind, self, ret, lift, Ok. cbv beta iota.
  cbn [isSome negb orb fst snd].
  destruct (checkStream (Some (pipe docs)) && _); [reflexivity|].
  cbv beta iota. rewrite length_map, Hk.
  destruct (List.length given =? 0)%nat; [reflexivity|].
  destruct (isSome outputStream && negb (checkStream (option_map hasPipe outputStream)));
    [reflexivity|].
  destruct (callbackRejected cb); [reflexivity|].
  cbv beta iota.
  destruct (aggregate (this s) dataPath (map key given) docs (initResults (map key given)))
    as [results|e]; [|reflexivity].
  rewrite Hr. reflexivity.
Qed.

Lemma ranked_percentages t regole dataPath docs sorted k v x :
  rankedTallies t regole dataPath docs = Ok sorted ->
  In (k, v) (Obj.entries sorted) ->
  In x v ->
  exists p, percentage (snd x) = Some p /\ (0 <= p)%Q /\ (p <= 100)%Q.
Proof.
  intros Hranked Hin Hx.
  apply rankedTallies_inv in Hranked as (results & Hagg & ->).
  destruct (aggregated_keys _ _ _ _ _ Hagg) as [Hnd _].
  destruct (ranked_entries results k v Hnd Hin) as (_ & tally & Hget & ->).
  destruct (aggregate_wellCounted _ _ _ _ _ _ _ Hagg Hget) as (_ & Hall & Hsum).
  apply (Permutation_in _ (rank_perm _)) in Hx.
  unfold withPercentage in Hx. cbn [values] in Hx.
  apply in_map_iff in Hx as ([k0 e0] & <- & Hin0). cbn [fst snd percentage count].
  pose proof (count_le_sum _ _ Hin0) as Hle. cbn in Hle.
  rewrite Forall_forall in Hall. destruct (Hall _ Hin0) as [Hone _]. cbn in Hone.
  eexists. split; [reflexivity|]. apply toPercentage_bounds; lia.
Qed.

Lemma capped_nil c : capped c [] = [].
Proof.
  unfold capped. destruct c as [q|]; [|reflexivity].
  destruct (Qeq_bool q 0); [reflexivity|]. unfold JS.slice0. apply firstn_nil.
Qed.

(** X24. A "percentage" rule without a threshold, or with a threshold above
    100, selects nothing; with a threshold of 0 or less it selects every
    value of the ranking (up to its cap). *)
Theorem percentage_threshold_extremes now docs rules dataPath includeStats outputStream cb
    (s s1 : State) answer regole sorted k v r :
  fst (transform now docs rules dataPath includeStats outputStream cb s) = Ok answer ->
  resolveRules now docs rules dataPath s = (Ok regole, s1) ->
  rankedTallies (this s) regole dataPath docs = Ok sorted ->
  In (k, v) (Obj.entries sorted) ->
  ruleFor k regole = Some r ->
  mode r = Some "percentage" ->
  (threshold r = None -> Obj.own k (selectionsOf answer) = Some []) /\
  (forall q, threshold r = Some q -> (100 < q)%Q ->
             Obj.own k (selectionsOf answer) = Some []) /\
  (forall q, threshold r = Some q -> (q <= 0)%Q ->
             Obj.own k (selectionsOf answer) = Some (map fst (capped (cap r) v))).
Proof.
  intros Hok Hres Hranked Hin Hr Hmode.
  rewrite (percentage_selection _ _ _ _ _ _ _ _ _ _ _ _ _ _ _
             Hok Hres Hranked Hin Hr Hmode).
  pose proof (fun x => ranked_percentages _ _ _ _ _ _ _ x Hranked Hin) as Hp.
  unfold satisfying. split; [|split].
  - intros ->. rewrite filter_none; [now rewrite capped_nil|].
    intros x Hx. destruct (Hp x Hx) as (p & -> & _). reflexivity.
  - intros q -> Hq. rewrite filter_none; [now rewrite capped_nil|].
    intros x Hx. destruct (Hp x Hx) as (p & -> & _ & Hle). cbn [compareNum].
    destruct (Qle_bool q p) eqn:Hb; [|reflexivity].
    apply Qle_bool_iff in Hb. exfalso.
    apply (Qlt_irrefl q). eapply Qle_lt_trans; [|exact Hq].
    eapply Qle_trans; eassumption.
  - intros q -> Hq. rewrite filter_all; [reflexivity|].
    intros x Hx. destruct (Hp x Hx) as (p & -> & Hge & _). cbn [compareNum].
    apply Qle_bool_iff. eapply Qle_trans; eassumption.
Qed.

(** X25. The [cap] of a "percentage" rule, truncated toward zero to [n],
    cuts the values at or above the threshold like [slice(0, cap)]: a cap
    of 0 is ignored; for [n >= 0] the first [n] of them remain, hence none
    for a cap strictly between -1 and 1 other than 0; for [n < 0] all but
    the last [-n] remain. *)
Theorem percentage_cap_selection now docs rules dataPath includeStats outputStream cb
    (s s1 : State) answer regole sorted k v r (c : Q) :
  fst (transform now docs rules dataPath includeStats outputStream cb s) = Ok answer ->
  resolveRules now docs rules dataPath s = (Ok regole, s1) ->
  rankedTallies (this s) regole dataPath docs = Ok sorted ->
  In (k, v) (Obj.entries sorted) ->
  ruleFor k regole = Some r ->
  mode r = Some "percentage" ->
  cap r = Some c ->
  let hits := satisfying Gte (threshold r) v in
  let n := JS.toIntegerOrInfinity c in
  exists sel,
    Obj.own k (selectionsOf answer) = Some sel /\
    ((c == 0)%Q -> sel = map fst hits) /\
    (~ (c == 0)%Q -> (0 <= n)%Z ->
       sel = map fst (firstn (Z.to_nat n) hits) /\
       List.length sel = Nat.min (Z.to_nat n) (List.length hits)) /\
    (~ (c == 0)%Q -> (n < 0)%Z ->
       sel = map fst (firstn (List.length hits - Z.to_nat (- n)) hits) /\
       List.length sel = List.length hits - Z.to_nat (- n)).
Proof.
  intros Hok Hres Hranked Hin Hr Hmode Hcap hits n.
  rewrite (percentage_selection _ _ _ _ _ _ _ _ _ _ _ _ _ _ _
             Hok Hres Hranked Hin Hr Hmode).
  fold hits. rewrite Hcap. unfold capped. eexists. split; [reflexivity|].
  destruct (Qeq_bool c 0) eqn:Hz.
  - apply Qeq_bool_iff in Hz. split; [reflexivity|]. split; intros Hnz; contradiction.
  - assert (Hnz : ~ (c == 0)%Q).
    { intros H. apply Qeq_bool_iff in H. congruence. }
    split; [intros H; contradiction|]. unfold JS.slice0. split; intros _ Hn.
    + rewrite sliceEnd_nonneg by exact Hn. fold n. rewrite firstn_min.
      split; [reflexivity|]. rewrite length_map, length_firstn. reflexivity.
    + rewrite sliceEnd_negative by exact Hn. fold n.
      split; [reflexivity|]. rewrite length_map, length_firstn. lia.
Qed.

End RuleFields.

Lemma percentage_threshold_extremes_witness :
  let r := percentageRule "a" None 101 in
  let answer := Selected [("a", [])] in
  (threshold r = None -> Obj.own "a" (selectionsOf answer) = Some []) /\
  (forall q, threshold r = Some q -> (100 < q)%Q ->
             Obj.own "a" (selectionsOf answer) = Some []) /\
  (forall q, threshold r = Some q -> (q <= 0)%Q ->
             Obj.own "a" (selectionsOf answer) = Some (map fst (capped (cap r) xxyRanked))).
Proof.
  apply (@percentage_threshold_extremes Lossless 0 xxy
           (Some [percentageRule "a" None 101]) None false None None fresh fresh
           (Selected [("a", [])]) [percentageRule "a" None 101] [("a", xxyRanked)]
           "a" xxyRanked (percentageRule "a" None 101)); try reflexivity.
  left. reflexivity.
Defined.

Lemma percentage_cap_selection_witness :
  let hits := satisfying Gte (Some (inject_Z 0)) xxyRanked in
  let n := JS.toIntegerOrInfinity (1 # 1) in
  exists sel,
    Obj.own "a" (selectionsOf (Selected [("a", ["x"])])) = Some sel /\
    ((1 # 1 == 0)%Q -> sel = map fst hits) /\
    (~ (1 # 1 == 0)%Q -> (0 <= n)%Z ->
       sel = map fst (firstn (Z.to_nat n) hits) /\
       List.length sel = Nat.min (Z.to_nat n) (List.length hits)) /\
    (~ (1 # 1 == 0)%Q -> (n < 0)%Z ->
       sel = map fst (firstn (List.length hits - Z.to_nat (- n)) hits) /\
       List.length sel = List.length hits - Z.to_nat (- n)).
Proof.
  apply (@percentage_cap_selection Lossless 0 xxy
           (Some [cappedRule "a" 0 (1 # 1)]) None false None None fresh fresh
           (Selected [("a", ["x"])]) [cappedRule "a" 0 (1 # 1)] [("a", xxyRanked)]
           "a" xxyRanked (cappedRule "a" 0 (1 # 1)) (1 # 1)); try reflexivity.
  left. reflexivity.
Defined.

(** ** Fresh instances, and instances given a model *)

Section Construction.
Context {E : External}.

Lemma new_plain (c : Config) now :
  cfg_model c = None ->
  truthyString (cfg_path c) = false ->
  fst (new now c) = Ok tt /\
  this_rules (this (snd (new now c))) = cfg_rules c /\
  this_skipKeys (this (snd (new now c))) = Some (orDefault (cfg_skipKeys c) []) /\
  this_filterData (this (snd (new now c)))
  = Some (orDefault (cfg_filterData c) (fun _ _ => false)) /\
  this_translateKey (this (snd (new now c)))
  = Some (orDefault (cfg_translateKey c) (fun k => k)) /\
  this_translateValue (this (snd (new now c)))
  = Some (orDefault (cfg_translateValue c) (fun _ v => v)).
Proof.
  intros Hm Hp. unfold new, construct. rewrite Hm, Hp. repeat split.
Qed.

(** X26. An instance constructed from plain options (no [model], no [path])
    with the default [translateKey] transforms every array of documents
    whose observed values are falsy or have a string form to be counted
    under: with a non-empty list of rules, passed to the call or to the
    constructor, and an [outputStream] and a [cb] it can call, if any,
    [transform] succeeds; when one of the values has no string form it
    throws a TypeError. *)
Theorem fresh_instance_transforms (c : Config) (now now' : Z) docs rules r given
    dataPath includeStats outputStream cb :
  cfg_model c = None ->
  truthyString (cfg_path c) = false ->
  cfg_translateKey c = None ->
  rules = Some (r :: given) \/ (rules = None /\ cfg_rules c = Some (r :: given)) ->
  pipe docs = false ->
  option_map hasPipe outputStream <> Some false ->
  option_map hasWrite outputStream <> Some false ->
  cb <> Some false ->
  let observed :=
    map snd (observations (orDefault (cfg_skipKeys c) [])
                          (orDefault (cfg_filterData c) (fun _ _ => false))
                          (fun k => k)
                          (orDefault (cfg_translateValue c) (fun _ v => v))
                          dataPath (map key (r :: given)) docs) in
  (forallb keyable observed = true ->
   exists answer,
     fst (transform now' docs rules dataPath includeStats outputStream cb
                    (snd (new now c))) = Ok answer) /\
  (forallb keyable observed = false ->
   fst (transform now' docs rules dataPath includeStats outputStream cb
                  (snd (new now c))) = Throw TypeError).
Proof.
  intros Hm Hp Htk Hrules Hpipe Hos Hwr Hcb observed.
  destruct (new_plain c now Hm Hp) as (_ & Hr & Hsk & Hfd & Htk' & Htv).
  rewrite Htk in Htk'. cbn [orDefault] in Htk'.
  set (s := snd (new now c)) in *.
  assert (Hres : resolveRules now' docs rules dataPath s = (Ok (r :: given), s)).
  { destruct Hrules as [-> | [-> Hcfg]]; [reflexivity|].
    unfold resolveRules, mbind, self. cbn [fst snd]. cbv beta iota.
    unfold Ok. cbv beta iota. rewrite Hr, Hcfg. reflexivity. }
  assert (Hclosed : forall rk, In rk (map key (r :: given)) ->
                      includes rk (orDefault (cfg_skipKeys c) []) = false ->
                      In rk (map key (r :: given)))
    by (intros rk Hin _; exact Hin).
  split; intros Hkey.
  - destruct (aggregate_ok (this s) _ _ _ _ Hsk Hfd Htk' Htv dataPath
                (map key (r :: given)) docs Hclosed Hkey) as [results Hagg].
    destruct (applyRules_total (r :: given) includeStats results) as [out Happ].
    { intros k. apply (aggregated_keys _ _ _ _ _ Hagg). }
    eexists. eapply transform_ok_intro; eauto. discriminate.
  - eapply transform_aggregate_fail; eauto; [discriminate|].
    apply (aggregate_fails (this s) _ _ _ _ Hsk Hfd Htk' Htv); assumption.
Qed.

Lemma setModel_ok raw (s : State) :
  fst (setModel raw s) = Ok tt ->
  exists text model,
    unzipSync raw = Some text /\ evalModel text = Some model /\
    snd (setModel raw s)
    = mkState
        (mkSynthesizer
           (asString (prop "name" (propertiesOf model)))
           (asRules (prop "rules" (propertiesOf model)))
           (asStrings (prop "skipFields" (propertiesOf model)))
           (asFilterData (prop "filterData" (propertiesOf model)))
           (asTranslateKey (prop "translateKey" (propertiesOf model)))
           (asTranslateValue (prop "translateValue" (propertiesOf model)))
           (asString (prop "defaultRuleMode" (propertiesOf model)))
           (asNumber (prop "defaultRuleValue" (propertiesOf model)))
           (asString (prop "defaultRuleOperator" (propertiesOf model)))
           (asBoolean (prop "keepAutogeneratedRules" (propertiesOf model)))
           (this_verbose (this s)) (Some (DecodedModel model)))
        (trace s ++ (if this_verbose (this s) then [ConsoleLog model] else [])
                 ++ [Emit_model_set model]).
Proof.
  unfold setModel, extractDataFromModel. unfold mbind, lift, update, self, ret, Ok.
  cbn [fst snd].
  destruct (unzipSync raw) as [text|] eqn:Hzip; [|discriminate]. cbv beta iota.
  destruct (evalModel text) as [model|] eqn:Heval; [|discriminate]. cbv beta iota.
  cbn [fst snd this this_verbose]. intros _. exists text, model.
  split; [reflexivity|]. split; [exact Heval|].
  unfold when, effect, ret, set_model.
  destruct (this_verbose (this s)); cbn; rewrite <- ?app_assoc; reflexivity.
Qed.

(** X27. [setModel] replaces the configuration wholesale: whether it
    succeeds depends on the artifact alone, and afterwards name, rules,
    skipKeys, hooks, defaults and [this.model] are those the artifact
    decodes to, whatever they were before; only [verbose] is kept.  It
    emits "model_set" once, after logging the model when verbose. *)
Theorem setModel_replaces_configuration raw (s1 s2 : State) :
  fst (setModel raw s1) = Ok tt ->
  fst (setModel raw s2) = Ok tt /\
  this (snd (setModel raw s2))
  = withVerbose (this_verbose (this s2)) (this (snd (setModel raw s1))) /\
  exists model,
    this_model (this (snd (setModel raw s2))) = Some (DecodedModel model) /\
    trace (snd (setModel raw s2))
    = trace s2 ++ (if this_verbose (this s2) then [ConsoleLog model] else [])
              ++ [Emit_model_set model].
Proof.
  intros Hok. destruct (setModel_ok raw s1 Hok) as (text & model & Hzip & Heval & Hs1).
  assert (Hok2 : fst (setModel raw s2) = Ok tt).
  { unfold setModel, extractDataFromModel. unfold mbind, lift, update, self, ret, Ok.
    cbn [fst snd]. rewrite Hzip. cbv beta iota. rewrite Heval. cbv beta iota.
    cbn [fst snd this this_verbose]. unfold when, effect, ret.
    destruct (this_verbose (this s2)); reflexivity. }
  split; [exact Hok2|].
  destruct (setModel_ok raw s2 Hok2) as (text' & model' & Hzip' & Heval' & Hs2).
  rewrite Hzip in Hzip'. injection Hzip' as <-.
  rewrite Heval in Heval'. injection Heval' as <-.
  rewrite Hs1, Hs2. cbn [this trace this_model]. split; [reflexivity|].
  exists model. split; reflexivity.
Qed.

Lemma saveModel_with_model now d generateJSONCopy (s : State) :
  d <> "" ->
  (forall p, writable p = true) ->
  fst (saveModel now (Some d) generateJSONCopy s)
  = if truthyModel (this_model (this s)) then Ok (getModel now (this s))
    else Throw NoModelToSave.
Proof.
  intros Hd Hw. unfold saveModel.
  destruct (String.eqb_spec d "") as [->|_]; [congruence|].
  unfold mbind, self, Ok. cbv beta iota.
  destruct (truthyModel (this_model (this s))); [|reflexivity].
  destruct (getModel now (this s)) as [compressed model].
  unfold when, writeFileSync, effect, throw, ret, Ok.
  destruct generateJSONCopy; cbv beta iota; rewrite ?Hw; cbv beta iota;
    rewrite ?Hw; reflexivity.
Qed.

(** X28. Whether an instance can be saved after [setModel] or [loadModel]
    depends on what the artifact decoded to, which is what [this.model]
    now holds: [saveModel] with a non-empty [dir], the files being
    writable, returns the artifact of the configuration as it now is when
    that was an object or a truthy primitive, and throws "No Model To Save"
    when it was a falsy primitive such as 0.  In the artifact returned,
    [skipKeys] is undefined unless the decoded object had a property
    [skipFields]. *)
Theorem saveModel_after_load (m : M unit) (s : State) now d generateJSONCopy :
  (exists raw, m = setModel raw) \/ (exists path, m = loadModel path) ->
  fst (m s) = Ok tt ->
  d <> "" ->
  (forall p, writable p = true) ->
  exists model,
    this_model (this (snd (m s))) = Some (DecodedModel model) /\
    fst (saveModel now (Some d) generateJSONCopy (snd (m s)))
    = match model with
      | DecodedPrimitive false => Throw NoModelToSave
      | _ => Ok (getModel now (this (snd (m s))))
      end /\
    prop "skipKeys" (snd (getModel now (this (snd (m s)))))
    = ofStrings (asStrings (prop "skipFields" (propertiesOf model))).
Proof.
  intros Hm Hok Hd Hw.
  assert (Hset : exists raw, fst (setModel raw s) = Ok tt
                             /\ this (snd (m s)) = this (snd (setModel raw s))).
  { destruct Hm as [[raw ->] | [path ->]]; [now exists raw|].
    revert Hok. unfold loadModel, setModel. unfold mbind at 1 3. unfold lift.
    destruct (readFileSync path) as [raw|]; [|discriminate].
    unfold Ok at 1 2. cbv beta iota. intros Hok. exists raw.
    revert Hok. unfold mbind, self, when, update, effect, ret, Ok.
    destruct (extractDataFromModel raw s) as [[model|e] s']; [|discriminate].
    destruct (this_verbose (this s')); cbn; auto. }
  destruct Hset as (raw & Hok' & Hthis).
  destruct (setModel_ok raw s Hok') as (text & model & _ & _ & Hs).
  exists model. split; [rewrite Hthis, Hs; reflexivity|]. split.
  - rewrite (saveModel_with_model now d generateJSONCopy (snd (m s)) Hd Hw).
    rewrite Hthis, Hs. cbn [this this_model truthyModel].
    destruct model as [obj|[|]]; reflexivity.
  - rewrite Hthis, Hs. reflexivity.
Qed.

End Construction.

Lemma fresh_instance_transforms_witness :
  let observed :=
    map snd (@observations Lossless [] keepAll sameKey sameValue None
                           (map key [topRule "a" 1]) xxy) in
  (forallb keyable observed = true ->
   exists answer,
     fst (transform 1 xxy None None false None None (snd (new 0 namedConfig)))
     = Ok answer) /\
  (forallb keyable observed = false ->
   fst (transform 1 xxy None None false None None (snd (new 0 namedConfig)))
   = Throw TypeError).
Proof.
  apply (@fresh_instance_transforms Lossless namedConfig 0 1 xxy None (topRule "a" 1) []
           None false None None); try reflexivity; try discriminate.
  right. split; reflexivity.
Defined.

Lemma setModel_replaces_configuration_witness :
  fst (setModel (fst (getModel 5 skippingB)) chatty) = Ok tt /\
  this (snd (setModel (fst (getModel 5 skippingB)) chatty))
  = withVerbose (this_verbose (this chatty))
                (this (snd (setModel (fst (getModel 5 skippingB)) fresh))) /\
  exists model,
    this_model (this (snd (setModel (fst (getModel 5 skippingB)) chatty)))
    = Some (DecodedModel model) /\
    trace (snd (setModel (fst (getModel 5 skippingB)) chatty))
    = trace chatty ++ (if this_verbose (this chatty) then [ConsoleLog model] else [])
                   ++ [Emit_model_set model].
Proof.
  apply (@setModel_replaces_configuration Lossless (fst (getModel 5 skippingB))
           fresh chatty).
  reflexivity.
Defined.

Lemma saveModel_after_load_witness :
  exists model,
    this_model (this (snd (setModel (fst (getModel 5 skippingB)) fresh)))
    = Some (DecodedModel model) /\
    fst (saveModel 7 (Some "out") true
                   (snd (setModel (fst (getModel 5 skippingB)) fresh)))
    = match model with
      | DecodedPrimitive false => Throw NoModelToSave
      | _ => Ok (getModel 7 (this (snd (setModel (fst (getModel 5 skippingB)) fresh))))
      end /\
    prop "skipKeys"
         (snd (getModel 7 (this (snd (setModel (fst (getModel 5 skippingB)) fresh)))))
    = ofStrings (asStrings (prop "skipFields" (propertiesOf model))).
Proof.
  apply (@saveModel_after_load Lossless (setModel (fst (getModel 5 skippingB)))
           fresh 7 "out" true).
  - left. eexists. reflexivity.
  - reflexivity.
  - discriminate.
  - reflexivity.
Defined.

(** An artifact that holds the text [0]: [setModel] succeeds, every field
    is undefined afterwards, and the instance cannot be saved. *)
Example zero_artifact :
  fst (setModel zeroArtifact zeroState) = Ok tt /\
  this_model (this (snd (setModel zeroArtifact zeroState)))
  = Some (DecodedModel (DecodedPrimitive false)) /\
  this_rules (this (snd (setModel zeroArtifact zeroState))) = None /\
  fst (saveModel 7 (Some "out") false (snd (setModel zeroArtifact zeroState)))
  = Throw NoModelToSave.
Proof. repeat split. Qed.
